(** * llmdebate: the debate orchestration core, embedded in Rocq

    The repository holds two near-duplicate variants of the program:
    - [V1] embeds [src/main.go] (one prompt string per generation call,
      [MaxHistory = 10], three rounds by default);
    - [V2] embeds [src/unnamed/part_000] (system and prompt as two fields,
      [MaxHistory = 100], the seed re-installed at index 0 of every
      per-round view, [math.MaxInt] rounds by default); this is the variant
      exercised by [src/main_test.go].

    Go slices are modelled with their backing arrays, so that aliasing
    between [history] and [tempHistory] is visible.  Everything the program
    takes from the Go runtime, the operating system or the Ollama API is a
    field of a type class. *)

From Stdlib Require Import ZArith Floats Uint63 DecimalString Lia.
From stdpp Require Import base list strings.

Local Open Scope string_scope.
Local Open Scope list_scope.

(** ** Go values shared by both variants *)

Definition error := string.

(** The result of a Go call returning [(T, error)], or a run-time panic. *)
Inductive outcome (A : Type) : Type :=
| Ok (a : A)
| Err (e : error)
| Panic (msg : string).
Arguments Ok {A} a.
Arguments Err {A} e.
Arguments Panic {A} msg.

Definition is_ok {A} (o : outcome A) : bool :=
  match o with Ok _ => true | _ => false end.

Definition nl : string := String (Ascii.ascii_of_nat 10) EmptyString.

(** [%d] of a Go [int]. *)
Definition fmt_d (z : Z) : string := NilZero.string_of_int (Z.to_int z).

Definition RoleUser := "user".
Definition RoleSystem := "system".
Definition RoleChallenger := "challenger".
Definition RoleDefender := "defender".
Definition RoleSummarizer := "summarizer".

Record Message := { Role : string; Content : string }.

Record DebateRound := { Challenger : string; Defender : string }.

Record DebateConfig := {
  Rounds : Z;
  Duration : string;
  InputFile : string;
  OutputFile : string
}.

Record LLMConfig := {
  ChallengerModel : string;
  DefenderModel : string;
  ChalPrompt : string;
  DefPrompt : string
}.

(** The command-line flags as cobra hands them to [parseFlags]. *)
Record Flags := {
  flag_input : string;
  flag_output : string;
  flag_rounds : Z;
  flag_duration : string;
  flag_challenger : string;
  flag_defender : string;
  flag_challenger_prompt : string;
  flag_defender_prompt : string
}.

#[global] Instance Message_eq_dec : EqDecision Message.
Proof. solve_decision. Defined.

(** [DebateConfig{Rounds: 1}], the configuration of the trial round. *)
Definition trialConfig : DebateConfig :=
  {| Rounds := 1; Duration := ""; InputFile := ""; OutputFile := "" |}.

(** [math.MaxInt] on a 64-bit platform. *)
Definition MaxInt : Z := 2 ^ 63 - 1.

(** ** What the program takes from outside *)

(** The Go runtime and the operating system. *)
Class GoRuntime (P : Type) := {
  (** [time.Now], read as nanoseconds on the monotonic clock *)
  Now : P -> Z * P;
  (** [time.Time.String] and [time.Duration.String] *)
  TimeString : Z -> string;
  DurationString : Z -> string;
  (** [time.ParseDuration]: nanoseconds, or a parse error *)
  ParseDuration : string -> outcome Z;
  (** writes to [os.Stdout] and [os.Stderr]: the error, if any *)
  Stdout : P -> string -> option error * P;
  Stderr : P -> string -> option error * P;
  ReadFile : P -> string -> outcome string * P;
  WriteFile : P -> string -> string -> option error * P;
  (** [api.ClientFromEnvironment]: the error, if any *)
  ClientFromEnvironment : P -> option error;
  (** the capacity [append] picks when it must reallocate: old capacity,
      needed length *)
  growslice : nat -> nat -> nat;
  growslice_fits : forall old need, need <= growslice old need;
  (** [int(f)] where [f] is infinite, NaN or out of range: the Go
      specification leaves the value to the implementation *)
  int_of_unrepresentable : float -> Z
}.

(** A request to the Ollama API, [api.GenerateRequest]. *)
Record GenerateRequest := {
  req_Model : string;
  req_System : string;
  req_Prompt : string;
  req_Stream : option bool;
  req_Options : list (string * string)
}.

(** [api.Client.Generate]: the [Response] fragments handed to the callback,
    in order, and the error returned at the end, if any. *)
Class OllamaAPI (A : Type) := {
  api_Generate : A -> GenerateRequest -> (list string * option error) * A
}.

(** The callback of both [Generate] wrappers: [result += resp.Response]. *)
Definition assemble (fragments : list string) : string :=
  foldl (fun result resp => result +:+ resp) "" fragments.

(** ** Slices over backing arrays *)

Module GoSlice.

(** A slice header: backing array, offset of element 0 in it, length and
    capacity. *)
Record slice := { s_arr : nat; s_off : nat; s_len : nat; s_cap : nat }.

(** The heap of backing arrays, addressed by position. *)
Abbreviation heap A := (list (list A)).

Section Slices.
Context {A : Type} (zero : A).
Implicit Types h : heap A.

Definition backing h (a : nat) : list A := default [] (h !! a).

(** The elements seen through a slice. *)
Definition slice_list h (s : slice) : list A :=
  take (s_len s) (drop (s_off s) (backing h (s_arr s))).

(** [copy] of [vs] into an array from position [p] on. *)
Definition write_at (p : nat) (vs : list A) (arr : list A) : list A :=
  take p arr ++ vs ++ drop (p + length vs) arr.

Definition store h (s : slice) (i : nat) (v : A) : heap A :=
  alter (fun arr => <[s_off s + i := v]> arr) (s_arr s) h.

(** [s[i] = v] *)
Definition index_set h (s : slice) (i : Z) (v : A) : outcome (heap A) :=
  if bool_decide (0 <= i < Z.of_nat (s_len s))%Z
  then Ok (store h s (Z.to_nat i) v)
  else Panic "index out of range".

(** [s[low:]] *)
Definition reslice_from (s : slice) (low : Z) : outcome slice :=
  if bool_decide (0 <= low <= Z.of_nat (s_len s))%Z
  then Ok {| s_arr := s_arr s;
             s_off := s_off s + Z.to_nat low;
             s_len := s_len s - Z.to_nat low;
             s_cap := s_cap s - Z.to_nat low |}
  else Panic "slice bounds out of range".

(** [[]T{v}] *)
Definition make1 h (v : A) : heap A * slice :=
  (h ++ [[v]], {| s_arr := length h; s_off := 0; s_len := 1; s_cap := 1 |}).

(** [append(s, vs...)]: in place when the capacity allows it, into a fresh
    array otherwise. *)
Definition append `{GoRuntime P} h (s : slice) (vs : list A)
  : heap A * slice :=
  let need := s_len s + length vs in
  if bool_decide (need <= s_cap s) then
    (alter (write_at (s_off s + s_len s) vs) (s_arr s) h,
     {| s_arr := s_arr s; s_off := s_off s; s_len := need; s_cap := s_cap s |})
  else
    let newcap := growslice (s_cap s) need in
    (h ++ [slice_list h s ++ vs ++ replicate (newcap - need) zero],
     {| s_arr := length h; s_off := 0; s_len := need; s_cap := newcap |}).

(** A header that points into the heap. *)
Definition valid h (s : slice) : Prop :=
  s_arr s < length h /\
  s_off s + s_cap s <= length (backing h (s_arr s)) /\
  s_len s <= s_cap s.
End Slices.
End GoSlice.

Export GoSlice.

(** ** [time.Duration] and [float64] *)

Definition MinInt64 : Z := - 2 ^ 63.
Definition MaxInt64 : Z := 2 ^ 63 - 1.

Definition Millisecond : Z := 1000000.
Definition Second : Z := 1000000000.

(** [t.Sub(u)]: the difference, saturated to the range of a [Duration]. *)
Definition time_Sub (t u : Z) : Z := Z.max MinInt64 (Z.min MaxInt64 (t - u)).

(** [float64(z)] for an integer of magnitude below [2^63]. *)
Definition float64_of_Z (z : Z) : float :=
  if (z <? 0)%Z then PrimFloat.opp (PrimFloat.of_uint63 (Uint63.of_Z (- z)))
  else PrimFloat.of_uint63 (Uint63.of_Z z).

(** [Duration.Seconds]: [float64(d / Second) + float64(d % Second) / 1e9]. *)
Definition Seconds (d : Z) : float :=
  PrimFloat.add (float64_of_Z (Z.quot d Second))
                (PrimFloat.div (float64_of_Z (Z.rem d Second)) 1e9%float).

(** [int(f)]: the fraction is discarded; a value that does not fit is left
    to the implementation. *)
Definition go_int `{GoRuntime P} (f : float) : Z :=
  match Prim2SF f with
  | S754_zero _ => 0%Z
  | S754_finite sign m e =>
      let mag := if (0 <=? e)%Z then (Z.pos m * 2 ^ e)%Z
                 else (Z.pos m / 2 ^ (- e))%Z in
      let z := if sign then (- mag)%Z else mag in
      if bool_decide (MinInt64 <= z <= MaxInt64)%Z then z
      else int_of_unrepresentable f
  | _ => int_of_unrepresentable f
  end.

(** ** The monad of the program: state, trace of generation calls, errors *)

Section Monad.
Context {S E : Type}.

Definition M (A : Type) : Type := S -> outcome A * list E * S.

Definition ret {A} (a : A) : M A := fun s => (Ok a, [], s).

Definition bind {A B} (m : M A) (k : A -> M B) : M B :=
  fun s =>
    match m s with
    | (Ok a, t, s') => let '(r, t', s'') := k a s' in (r, t ++ t', s'')
    | (Err e, t, s') => (Err e, t, s')
    | (Panic p, t, s') => (Panic p, t, s')
    end.

(** [return ..., err] *)
Definition fail {A} (e : error) : M A := fun s => (Err e, [], s).

Definition lift {A} (o : outcome A) : M A := fun s => (o, [], s).

(** [if err != nil { return ..., fmt.Errorf(prefix + "%w", err) }] *)
Definition wrapErr {A} (prefix : string) (m : M A) : M A :=
  fun s =>
    match m s with
    | (Err e, t, s') => (Err (prefix +:+ e), t, s')
    | r => r
    end.

(** [Q] holds of the result, the trace and the final state of [m] run
    from [s]. *)
Definition wp {A} (m : M A) (Q : outcome A -> list E -> S -> Prop) (s : S)
  : Prop :=
  Q (m s).1.1 (m s).1.2 (m s).2.
End Monad.
Arguments M : clear implicits.

Declare Scope go_scope.
Delimit Scope go_scope with go.
Notation "x <- m ;; k" := (bind m (fun x => k))
  (at level 100, m at next level, right associativity) : go_scope.
Notation "m ;;; k" := (bind m (fun _ => k))
  (at level 100, right associativity) : go_scope.
Local Open Scope go_scope.

(** The state of a run: the client, the process and the slice heap. *)
Record world (C P : Type) := {
  w_client : C;
  w_proc : P;
  w_heap : heap Message
}.
Arguments w_client {C P} w.
Arguments w_proc {C P} w.
Arguments w_heap {C P} w.

Definition zeroMessage : Message := {| Role := ""; Content := "" |}.

Section Primitives.
Context {C P E : Type} `{GoRuntime P}.
Local Abbreviation Mw := (M (world C P) E).

Definition with_client (w : world C P) (c : C) : world C P :=
  {| w_client := c; w_proc := w_proc w; w_heap := w_heap w |}.

Definition with_proc (w : world C P) (p : P) : world C P :=
  {| w_client := w_client w; w_proc := p; w_heap := w_heap w |}.

Definition with_heap (w : world C P) (h : heap Message) : world C P :=
  {| w_client := w_client w; w_proc := w_proc w; w_heap := h |}.

Definition on_proc {A} (f : P -> A * P) : Mw A :=
  fun w => let '(a, p) := f (w_proc w) in (Ok a, [], with_proc w p).

Definition on_heap {A} (f : heap Message -> heap Message * A) : Mw A :=
  fun w => let '(h, a) := f (w_heap w) in (Ok a, [], with_heap w h).

Definition now : Mw Z := on_proc Now.

(** [[]Message{m}] *)
Definition slice_lit1 (m : Message) : Mw slice :=
  on_heap (fun h => make1 h m).

Definition slice_append (s : slice) (vs : list Message) : Mw slice :=
  on_heap (fun h => append zeroMessage h s vs).

Definition slice_set (s : slice) (i : Z) (v : Message) : Mw unit :=
  fun w =>
    match index_set (w_heap w) s i v with
    | Ok h => (Ok tt, [], with_heap w h)
    | Err e => (Err e, [], w)
    | Panic p => (Panic p, [], w)
    end.

(** The elements a [range] over the slice visits. *)
Definition slice_read (s : slice) : Mw (list Message) :=
  fun w => (Ok (slice_list (w_heap w) s), [], w).

(** [fmt.Printf] with its error returned. *)
Definition printf (text : string) : Mw unit :=
  r <- on_proc (fun p => Stdout p text) ;;
  match r with Some e => fail e | None => ret tt end.

(** [fmt.Printf] and [fmt.Fprintf(os.Stderr, ...)] with the error dropped. *)
Definition printf_ (text : string) : Mw unit :=
  on_proc (fun p => Stdout p text) ;;; ret tt.

Definition eprintf_ (text : string) : Mw unit :=
  on_proc (fun p => Stderr p text) ;;; ret tt.

(** [trimHistory], the same function in both variants. *)
Definition trimHistory (history : slice) (max : Z) : outcome slice :=
  if bool_decide (Z.of_nat (s_len history) <= max)%Z then Ok history
  else reslice_from history (Z.of_nat (s_len history) - max).

(** Each turn rendered as ["<role>: <content>\n"], in window order: the
    loop of [runSingleRound]. *)
Definition render_from (acc : string) (view : list Message) : string :=
  foldl (fun fullPrompt m => fullPrompt +:+ (Role m +:+ ": " +:+ Content m +:+ nl))
        acc view.

(** The loop of [summarizeDebate]; [i] is the index of the next round. *)
Fixpoint summary_text (i : Z) (debate : list DebateRound) (fullText : string)
  : string :=
  match debate with
  | [] => fullText
  | r :: rest =>
      summary_text (i + 1) rest
        (fullText +:+ ("### Round " +:+ fmt_d (i + 1) +:+ nl +:+
                       "Challenger: " +:+ Challenger r +:+ nl +:+
                       "Defender: " +:+ Defender r +:+ nl +:+ nl))
  end.

Definition summaryInstruction : string :=
  "Summarize the debate: top blind spots, opportunities, deadly assumption.".

Definition mustLoadPrompt (path fallback : string) : Mw string :=
  if bool_decide (path = "") then ret fallback
  else
    r <- on_proc (fun p => ReadFile p path) ;;
    match r with
    | Ok data => ret data
    | Err _ =>
        eprintf_ ("⚠️ Warning: failed to load prompt " +:+ path +:+
                  ", using default" +:+ nl) ;;;
        ret fallback
    | Panic p => lift (Panic p)
    end.

Definition parseFlags (cmd : Flags) : Mw (DebateConfig * LLMConfig) :=
  if bool_decide (flag_input cmd = "" \/ flag_output cmd = "") then
    fail "input and output required"
  else
    chal <- mustLoadPrompt (flag_challenger_prompt cmd)
              "You are the Challenger. Attack ruthlessly:" ;;
    def <- mustLoadPrompt (flag_defender_prompt cmd)
             "You are the Defender. Represent the user:" ;;
    ret ({| Rounds := flag_rounds cmd; Duration := flag_duration cmd;
            InputFile := flag_input cmd; OutputFile := flag_output cmd |},
         {| ChallengerModel := flag_challenger cmd;
            DefenderModel := flag_defender cmd;
            ChalPrompt := chal; DefPrompt := def |}).

Definition loadInput (path : string) : Mw string :=
  r <- on_proc (fun p => ReadFile p path) ;;
  match r with
  | Ok data => ret data
  | Err e => fail ("reading input file: " +:+ e)
  | Panic p => lift (Panic p)
  end.

Definition writeOutput (path report : string) : Mw unit :=
  r <- on_proc (fun p => WriteFile p path report) ;;
  match r with Some e => fail e | None => ret tt end.

Definition clientFromEnvironment : Mw unit :=
  fun w =>
    match ClientFromEnvironment (w_proc w) with
    | Some e => (Err ("creating client: " +:+ e), [], w)
    | None => (Ok tt, [], w)
    end.

(** Some write to standard output fails. *)
Definition stdout_fails : Prop :=
  exists (p : P) text e, (Stdout p text).1 = Some e.

(** The arithmetic of [estimateRounds] once the trial round is timed. *)
Definition roundsFor (total elapsed : Z) : Z :=
  let rounds := go_int (PrimFloat.div (Seconds total) (Seconds elapsed)) in
  if (rounds <? 1)%Z then 1%Z else rounds.

Definition estimateMessage (rounds elapsed : Z) : string :=
  "Estimated " +:+ fmt_d rounds +:+ " rounds (1 round = " +:+
  DurationString elapsed +:+ ")" +:+ nl.
End Primitives.

(** ** Variant 2: [src/unnamed/part_000] *)

Module V2.

Definition MaxHistory : Z := 100.

(** The [LLMClient] interface; [context.Background()] carries nothing. *)
Class LLMClient (C : Type) := {
  Generate : C -> string -> string -> string -> outcome string * C
}.

(** One call of [client.Generate], as [fakeLLM] of the tests records it,
    together with the slice contents it was rendered from and the reply. *)
Record call := {
  c_model : string;
  c_system : string;
  c_prompt : string;
  c_view : list Message;
  c_reply : outcome string
}.

Section Ollama.
Context {A : Type} `{OllamaAPI A}.

Definition generateOptions : list (string * string) :=
  [("temperature", "0.7"); ("top_p", "0.9"); ("max_tokens", "150")].

Definition generateRequest (model system prompt : string) : GenerateRequest :=
  {| req_Model := model; req_System := system; req_Prompt := prompt;
     req_Stream := Some true; req_Options := generateOptions |}.

(** [GenerateWithChannel]: the result, and the values sent on [channel]
    before it is closed. *)
Definition GenerateWithChannel (o : A) (model system prompt : string)
  : (outcome string * list Z) * A :=
  let '((fragments, err), o') :=
    api_Generate o (generateRequest model system prompt) in
  let result := assemble fragments in
  let sent := map Z.of_nat (seq 0 (length fragments)) in
  match err with
  | Some e => ((Err e, sent), o')
  | None =>
      if bool_decide (result = "") then ((Err "empty response", sent), o')
      else ((Ok result, sent), o')
  end.

(** [OllamaClient.Generate]; the goroutine that draws the progress bar
    only consumes the channel. *)
Definition OllamaGenerate (o : A) (model system prompt : string)
  : outcome string * A :=
  let '((r, _), o') := GenerateWithChannel o model system prompt in (r, o').

#[export] Instance OllamaClient : LLMClient A := {| Generate := OllamaGenerate |}.
End Ollama.

Section Debate.
Context {C P : Type} `{LLMClient C} `{GoRuntime P}.
Local Abbreviation Mw := (M (world C P) call).

Definition generate (model system prompt : string) (view : list Message)
  : Mw string :=
  fun w =>
    let '(r, c) := Generate (w_client w) model system prompt in
    (r,
     [{| c_model := model; c_system := system; c_prompt := prompt;
         c_view := view; c_reply := r |}],
     with_client w c).

Definition logDebate (text : string) : Mw unit :=
  t <- now ;;
  printf (nl +:+ " Logged on: " +:+ TimeString t +:+ nl +:+ text +:+ nl).

Definition runSingleRound (model prompt : string) (history : slice)
  : Mw string :=
  view <- slice_read history ;;
  let fullPrompt := render_from "" view in
  generate model prompt fullPrompt view.

(** The variables that live across iterations of the loop. *)
Record loop_state := { history : slice; rounds : list DebateRound }.

(** Lines 212-213, the view of one iteration:
    [tempHistory := trimHistory(history, max); tempHistory[0] = claimEntry]. *)
Definition trimmedView (max : Z) (history : slice) (claimEntry : Message)
  : Mw slice :=
  tempHistory <- lift (trimHistory history max) ;;
  slice_set tempHistory 0 claimEntry ;;;
  ret tempHistory.

Definition roundView : slice -> Message -> Mw slice :=
  trimmedView (MaxHistory + 1).

Definition roundBody (llm : LLMConfig) (claimEntry : Message)
           (st : loop_state) : Mw loop_state :=
  tempHistory <- roundView (history st) claimEntry ;;
  chal <- wrapErr "running challenger: "
            (runSingleRound (ChallengerModel llm)
               (RoleChallenger +:+ nl +:+ ChalPrompt llm) tempHistory) ;;
  let chalEntry := {| Role := RoleChallenger; Content := chal |} in
  tempHistory <- slice_append tempHistory [chalEntry] ;;
  let localHistory := [chalEntry] in
  wrapErr "logging challenger response: "
    (logDebate ("Challenger responded: " +:+ chal)) ;;;
  def <- wrapErr "running defender: "
           (runSingleRound (DefenderModel llm)
              (RoleDefender +:+ nl +:+ DefPrompt llm) tempHistory) ;;
  let defEntry := {| Role := RoleDefender; Content := def |} in
  tempHistory <- slice_append tempHistory [defEntry] ;;
  let localHistory := localHistory ++ [defEntry] in
  wrapErr "logging defender response: "
    (logDebate ("Defender responded: " +:+ def)) ;;;
  history' <- slice_append (history st) localHistory ;;
  ret {| history := history';
         rounds := rounds st ++ [{| Challenger := chal; Defender := def |}] |}.

(** [for i := 0; i < config.Rounds; i++]: [n] iterations are left. *)
Fixpoint debateLoop (llm : LLMConfig) (claimEntry : Message) (n : nat)
         (st : loop_state) : Mw loop_state :=
  match n with
  | 0 => ret st
  | S n' =>
      st' <- roundBody llm claimEntry st ;;
      debateLoop llm claimEntry n' st'
  end.

Definition debateStart (claim : string) : Mw loop_state :=
  let claimEntry := {| Role := RoleUser; Content := claim |} in
  history <- slice_lit1 claimEntry ;;
  logDebate ("Starting debate with claim: " +:+ claim +:+ nl) ;;;
  ret {| history := history; rounds := [] |}.

Definition runDebateFlow (claim : string) (config : DebateConfig)
           (llm : LLMConfig) : Mw (list DebateRound) :=
  let claimEntry := {| Role := RoleUser; Content := claim |} in
  st <- debateStart claim ;;
  st' <- debateLoop llm claimEntry (Z.to_nat (Rounds config)) st ;;
  ret (rounds st').

Definition summarizeDebate (debate : list DebateRound) (model : string)
  : Mw string :=
  let fullText := summary_text 0 debate "" in
  context <- slice_lit1 {| Role := RoleSystem; Content := fullText |} ;;
  runSingleRound model summaryInstruction context.

Definition estimateRounds (claim : string) (llm : LLMConfig)
           (duration : string) : Mw Z :=
  start <- now ;;
  runDebateFlow claim trialConfig llm ;;;
  t <- now ;;
  let elapsed := time_Sub t start in
  let elapsed := if (elapsed <=? 0)%Z then Millisecond else elapsed in
  match ParseDuration duration with
  | Ok total =>
      let rounds := roundsFor total elapsed in
      printf_ (estimateMessage rounds elapsed) ;;;
      ret rounds
  | Err e => fail ("invalid duration: " +:+ e)
  | Panic p => lift (Panic p)
  end.

Definition runCLI (cmd : Flags) : Mw unit :=
  parsed <- parseFlags cmd ;;
  let '(config, llm) := parsed in
  if bool_decide (0 < Rounds config)%Z && negb (bool_decide (Duration config = ""))
  then fail "--rounds and --duration cannot be used together"
  else
    input <- loadInput (InputFile config) ;;
    clientFromEnvironment ;;;
    n <- (if bool_decide (Rounds config = 0%Z)
             && negb (bool_decide (Duration config = ""))
          then estimateRounds input llm (Duration config)
          else ret (Rounds config)) ;;
    (* infinity rounds *)
    let n := if bool_decide (n <= 0)%Z then MaxInt else n in
    let config := {| Rounds := n; Duration := Duration config;
                     InputFile := InputFile config;
                     OutputFile := OutputFile config |} in
    debate <- runDebateFlow input config llm ;;
    report <- summarizeDebate debate (ChallengerModel llm) ;;
    writeOutput (OutputFile config) report.
End Debate.

(** *** Shapes of traces *)

Definition challengerCall (llm : LLMConfig) (c : call) : Prop :=
  c_model c = ChallengerModel llm /\
  c_system c = RoleChallenger +:+ nl +:+ ChalPrompt llm /\
  c_prompt c = render_from "" (c_view c).

Definition defenderCall (llm : LLMConfig) (d : call) : Prop :=
  c_model d = DefenderModel llm /\
  c_system d = RoleDefender +:+ nl +:+ DefPrompt llm /\
  c_prompt d = render_from "" (c_view d).

(** A view that starts with the seed and holds at most [MaxHistory + 1]
    turns. *)
Definition seedView (claimEntry : Message) (c : call) : Prop :=
  c_view c !! 0 = Some claimEntry /\
  (Z.of_nat (length (c_view c)) <= MaxHistory + 1)%Z.

(** The two calls of one round: the challenger's view starts with the seed
    and holds at most [MaxHistory + 1] turns, the defender's is that view
    followed by the challenger's reply. *)
Definition exchange (llm : LLMConfig) (claimEntry : Message) (c d : call)
  : Prop :=
  challengerCall llm c /\ defenderCall llm d /\
  seedView claimEntry c /\
  exists chal, c_reply c = Ok chal /\
    c_view d = c_view c ++ [{| Role := RoleChallenger; Content := chal |}].

(** The trace of any run of the loop, complete or cut short. *)
Inductive debate_trace (llm : LLMConfig) (claimEntry : Message)
  : list call -> Prop :=
| dt_nil : debate_trace llm claimEntry []
| dt_challenger c :
    challengerCall llm c -> seedView claimEntry c ->
    debate_trace llm claimEntry [c]
| dt_round c d rest :
    exchange llm claimEntry c d ->
    debate_trace llm claimEntry rest ->
    debate_trace llm claimEntry (c :: d :: rest).

(** The trace of a run that completed, with the rounds it returns. *)
Inductive complete_trace (llm : LLMConfig) (claimEntry : Message)
  : list call -> list DebateRound -> Prop :=
| ct_nil : complete_trace llm claimEntry [] []
| ct_round c d chal def rest rs :
    exchange llm claimEntry c d ->
    c_reply c = Ok chal -> c_reply d = Ok def ->
    complete_trace llm claimEntry rest rs ->
    complete_trace llm claimEntry (c :: d :: rest)
      ({| Challenger := chal; Defender := def |} :: rs).

(** What the loop keeps true of [history]. *)
Definition loop_inv (h : heap Message) (st : loop_state) : Prop :=
  valid h (history st) /\ 1 <= s_len (history st).

(** *** Postconditions of the loop *)

Section Posts.
Context {C P : Type} `{LLMClient C} `{GoRuntime P}.
Implicit Types (w : world C P) (st : loop_state).

(** Why a run stopped early: its last call failed, or a log write did. *)
Definition failure_cause (t : list call) : Prop :=
  (exists c, last t = Some c /\ is_ok (c_reply c) = false) \/
  stdout_fails (P := P).

Definition round_post (llm : LLMConfig) (claimEntry : Message) st
           (r : outcome loop_state) (t : list call) w : Prop :=
  match r with
  | Ok st' =>
      exists c d chal def,
        t = [c; d] /\ exchange llm claimEntry c d /\
        c_reply c = Ok chal /\ c_reply d = Ok def /\
        rounds st' = rounds st ++ [{| Challenger := chal; Defender := def |}] /\
        loop_inv (w_heap w) st'
  | _ =>
      ((exists c, t = [c] /\ challengerCall llm c /\ seedView claimEntry c) \/
       (exists c d, t = [c; d] /\ exchange llm claimEntry c d)) /\
      failure_cause t
  end.

Definition loop_post (llm : LLMConfig) (claimEntry : Message) (n : nat) st
           (r : outcome loop_state) (t : list call) w : Prop :=
  match r with
  | Ok st' =>
      exists rs, complete_trace llm claimEntry t rs /\ length rs = n /\
                 rounds st' = rounds st ++ rs /\ loop_inv (w_heap w) st'
  | _ => debate_trace llm claimEntry t /\ failure_cause t /\ length t <= 2 * n
  end.

Definition flow_post (llm : LLMConfig) (claim : string) (config : DebateConfig)
           (r : outcome (list DebateRound)) (t : list call) w : Prop :=
  let claimEntry := {| Role := RoleUser; Content := claim |} in
  match r with
  | Ok rs => complete_trace llm claimEntry t rs /\
             length rs = Z.to_nat (Rounds config)
  | _ => debate_trace llm claimEntry t /\ failure_cause t /\
         length t <= 2 * Z.to_nat (Rounds config)
  end.

(** The trial round of [estimateRounds] and the time measured for it. *)
Definition trialRun (claim : string) (llm : LLMConfig) w :=
  runDebateFlow claim trialConfig llm (with_proc w (Now (w_proc w)).2).

Definition trialElapsed (claim : string) (llm : LLMConfig) w : Z :=
  let start := (Now (w_proc w)).1 in
  let elapsed := time_Sub (Now (w_proc (trialRun claim llm w).2)).1 start in
  if (elapsed <=? 0)%Z then Millisecond else elapsed.
End Posts.
End V2.

(** ** Variant 1: [src/main.go] *)

Module V1.

Definition MaxHistory : Z := 10.

Class LLMClient (C : Type) := {
  Generate : C -> string -> string -> outcome string * C
}.

(** One call of [client.Generate], with the slice contents the prompt was
    rendered from and the reply. *)
Record call := {
  c_model : string;
  c_prompt : string;
  c_view : list Message;
  c_reply : outcome string
}.

Section Ollama.
Context {A : Type} `{OllamaAPI A}.

Definition generateRequest (model prompt : string) : GenerateRequest :=
  {| req_Model := model; req_System := ""; req_Prompt := prompt;
     req_Stream := None; req_Options := [] |}.

(** [OllamaClient.Generate] *)
Definition OllamaGenerate (o : A) (model prompt : string)
  : outcome string * A :=
  let '((fragments, err), o') := api_Generate o (generateRequest model prompt) in
  let result := assemble fragments in
  match err with
  | Some e => (Err e, o')
  | None =>
      if bool_decide (result = "") then (Err "empty response", o')
      else (Ok result, o')
  end.

#[export] Instance OllamaClient : LLMClient A := {| Generate := OllamaGenerate |}.
End Ollama.

Section Debate.
Context {C P : Type} `{LLMClient C} `{GoRuntime P}.
Local Abbreviation Mw := (M (world C P) call).

Definition generate (model prompt : string) (view : list Message)
  : Mw string :=
  fun w =>
    let '(r, c) := Generate (w_client w) model prompt in
    (r,
     [{| c_model := model; c_prompt := prompt; c_view := view;
         c_reply := r |}],
     with_client w c).

Definition runSingleRound (model prompt : string) (history : slice)
           (role : string) : Mw string :=
  view <- slice_read history ;;
  let fullPrompt := render_from (prompt +:+ nl) view in
  generate model fullPrompt view.

Record loop_state := { history : slice; rounds : list DebateRound }.

Definition roundBody (llm : LLMConfig) (st : loop_state) : Mw loop_state :=
  history <- lift (trimHistory (history st) MaxHistory) ;;
  chal <- runSingleRound (ChallengerModel llm) (ChalPrompt llm) history
            RoleChallenger ;;
  history <- slice_append history [{| Role := RoleChallenger; Content := chal |}] ;;
  def <- runSingleRound (DefenderModel llm) (DefPrompt llm) history
           RoleDefender ;;
  history <- slice_append history [{| Role := RoleDefender; Content := def |}] ;;
  ret {| history := history;
         rounds := rounds st ++ [{| Challenger := chal; Defender := def |}] |}.

Fixpoint debateLoop (llm : LLMConfig) (n : nat) (st : loop_state)
  : Mw loop_state :=
  match n with
  | 0 => ret st
  | S n' =>
      st' <- roundBody llm st ;;
      debateLoop llm n' st'
  end.

Definition debateStart (claim : string) : Mw loop_state :=
  history <- slice_lit1 {| Role := RoleUser; Content := claim |} ;;
  ret {| history := history; rounds := [] |}.

Definition runDebateFlow (claim : string) (config : DebateConfig)
           (llm : LLMConfig) : Mw (list DebateRound) :=
  st <- debateStart claim ;;
  st' <- debateLoop llm (Z.to_nat (Rounds config)) st ;;
  ret (rounds st').

Definition summarizeDebate (debate : list DebateRound) (model : string)
  : Mw string :=
  let fullText := summary_text 0 debate "" in
  context <- slice_lit1 {| Role := RoleSystem; Content := fullText |} ;;
  runSingleRound model summaryInstruction context RoleSummarizer.

Definition estimateRounds (claim : string) (llm : LLMConfig)
           (duration : string) : Mw Z :=
  start <- now ;;
  runDebateFlow claim trialConfig llm ;;;
  t <- now ;;
  let elapsed := time_Sub t start in
  match ParseDuration duration with
  | Ok total =>
      let rounds := roundsFor total elapsed in
      printf_ (estimateMessage rounds elapsed) ;;;
      ret rounds
  | Err e => fail ("invalid duration: " +:+ e)
  | Panic p => lift (Panic p)
  end.

Definition runCLI (cmd : Flags) : Mw unit :=
  parsed <- parseFlags cmd ;;
  let '(config, llm) := parsed in
  if bool_decide (0 < Rounds config)%Z && negb (bool_decide (Duration config = ""))
  then fail "--rounds and --duration cannot be used together"
  else
    input <- loadInput (InputFile config) ;;
    clientFromEnvironment ;;;
    n <- (if bool_decide (Rounds config = 0%Z)
             && negb (bool_decide (Duration config = ""))
          then estimateRounds input llm (Duration config)
          else ret (Rounds config)) ;;
    let n := if bool_decide (n <= 0)%Z then 3%Z else n in
    let config := {| Rounds := n; Duration := Duration config;
                     InputFile := InputFile config;
                     OutputFile := OutputFile config |} in
    debate <- runDebateFlow input config llm ;;
    report <- summarizeDebate debate (ChallengerModel llm) ;;
    writeOutput (OutputFile config) report.
End Debate.

(** *** Shapes of traces *)

Definition challengerCall (llm : LLMConfig) (c : call) : Prop :=
  c_model c = ChallengerModel llm /\
  c_prompt c = render_from (ChalPrompt llm +:+ nl) (c_view c).

Definition defenderCall (llm : LLMConfig) (d : call) : Prop :=
  c_model d = DefenderModel llm /\
  c_prompt d = render_from (DefPrompt llm +:+ nl) (c_view d).

(** The two calls of one round: the challenger's view holds at most
    [MaxHistory] turns, the defender's is that view followed by the
    challenger's reply. *)
Definition exchange (llm : LLMConfig) (c d : call) : Prop :=
  challengerCall llm c /\ defenderCall llm d /\
  (Z.of_nat (length (c_view c)) <= MaxHistory)%Z /\
  exists chal, c_reply c = Ok chal /\
    c_view d = c_view c ++ [{| Role := RoleChallenger; Content := chal |}].

Inductive debate_trace (llm : LLMConfig) : list call -> Prop :=
| dt_nil : debate_trace llm []
| dt_challenger c : challengerCall llm c -> debate_trace llm [c]
| dt_round c d rest :
    exchange llm c d -> debate_trace llm rest ->
    debate_trace llm (c :: d :: rest).

Inductive complete_trace (llm : LLMConfig)
  : list call -> list DebateRound -> Prop :=
| ct_nil : complete_trace llm [] []
| ct_round c d chal def rest rs :
    exchange llm c d ->
    c_reply c = Ok chal -> c_reply d = Ok def ->
    complete_trace llm rest rs ->
    complete_trace llm (c :: d :: rest)
      ({| Challenger := chal; Defender := def |} :: rs).

Definition loop_inv (h : heap Message) (st : loop_state) : Prop :=
  valid h (history st) /\ 1 <= s_len (history st).

(** *** Postconditions of the loop *)

Section Posts.
Context {C P : Type} `{LLMClient C} `{GoRuntime P}.
Implicit Types (w : world C P) (st : loop_state).

(** Why a run stopped early: its last call failed. *)
Definition failure_cause (t : list call) : Prop :=
  exists c, last t = Some c /\ is_ok (c_reply c) = false.

Definition round_post (llm : LLMConfig) st
           (r : outcome loop_state) (t : list call) w : Prop :=
  match r with
  | Ok st' =>
      exists c d chal def,
        t = [c; d] /\ exchange llm c d /\
        c_reply c = Ok chal /\ c_reply d = Ok def /\
        rounds st' = rounds st ++ [{| Challenger := chal; Defender := def |}] /\
        loop_inv (w_heap w) st'
  | _ =>
      ((exists c, t = [c] /\ challengerCall llm c) \/
       (exists c d, t = [c; d] /\ exchange llm c d)) /\
      failure_cause t
  end.

Definition loop_post (llm : LLMConfig) (n : nat) st
           (r : outcome loop_state) (t : list call) w : Prop :=
  match r with
  | Ok st' =>
      exists rs, complete_trace llm t rs /\ length rs = n /\
                 rounds st' = rounds st ++ rs /\ loop_inv (w_heap w) st'
  | _ => debate_trace llm t /\ failure_cause t /\ length t <= 2 * n
  end.

Definition flow_post (llm : LLMConfig) (config : DebateConfig)
           (r : outcome (list DebateRound)) (t : list call) w : Prop :=
  match r with
  | Ok rs => complete_trace llm t rs /\ length rs = Z.to_nat (Rounds config)
  | _ => debate_trace llm t /\ failure_cause t /\
         length t <= 2 * Z.to_nat (Rounds config)
  end.

(** The trial round of [estimateRounds] and the time measured for it. *)
Definition trialRun (claim : string) (llm : LLMConfig) w :=
  runDebateFlow claim trialConfig llm (with_proc w (Now (w_proc w)).2).

Definition trialElapsed (claim : string) (llm : LLMConfig) w : Z :=
  let start := (Now (w_proc w)).1 in
  time_Sub (Now (w_proc (trialRun claim llm w).2)).1 start.
End Posts.
End V1.

(** ** The transcript as the specification describes it *)

Definition roundHeader (k : Z) : string := "### Round " +:+ fmt_d k.

(** Header, challenger text, defender text, and a blank line. *)
Definition roundBlock (k : Z) (r : DebateRound) : string :=
  roundHeader k +:+ nl +:+
  "Challenger: " +:+ Challenger r +:+ nl +:+
  "Defender: " +:+ Defender r +:+ nl +:+ nl.

(** The blocks of rounds [k+1], [k+2], ... *)
Fixpoint roundBlocks (k : Z) (debate : list DebateRound) : list string :=
  match debate with
  | [] => []
  | r :: rest => roundBlock (k + 1) r :: roundBlocks (k + 1) rest
  end.

Definition joined (blocks : list string) : string :=
  foldr String.append "" blocks.

(** ** A concrete runtime and the client of the tests *)

Module Fake.

(** The process of the examples: a clock that advances by [tick] at every
    reading, writes that succeed, no readable file but ["notes.md"]. *)
Record proc := { clock : Z; tick : Z; out : list string;
                 files : list (string * string) }.

Definition parseTable : list (string * Z) :=
  [("2m", 120000000000); ("6.6s", 6600000000); ("1m", 60000000000)]%Z.

Definition parseDuration (s : string) : outcome Z :=
  match list_find (fun e => e.1 = s) parseTable with
  | Some (_, (_, d)) => Ok d
  | None => Err ("time: invalid duration " +:+ s)
  end.

#[export] Instance runtime : GoRuntime proc := {|
  Now p := (clock p, {| clock := clock p + tick p; tick := tick p;
                        out := out p; files := files p |}%Z);
  TimeString t := fmt_d t;
  DurationString d := fmt_d d +:+ "ns";
  ParseDuration := parseDuration;
  Stdout p s := (None, {| clock := clock p; tick := tick p;
                          out := out p ++ [s]; files := files p |});
  Stderr p s := (None, p);
  ReadFile p path :=
    (if bool_decide (path = "notes.md") then Ok "the claim"
     else Err ("open " +:+ path +:+ ": no such file or directory"), p);
  WriteFile p path data :=
    (None, {| clock := clock p; tick := tick p; out := out p;
              files := files p ++ [(path, data)] |});
  ClientFromEnvironment p := None;
  growslice old need := Nat.max need (2 * old);
  growslice_fits old need := Nat.le_max_l need (2 * old);
  int_of_unrepresentable f := MinInt64
|}.

(** A process whose standard output is closed. *)
Record closedProc := { inner : proc }.

#[export] Instance closedRuntime : GoRuntime closedProc := {|
  Now p := let '(t, q) := Now (inner p) in (t, {| inner := q |});
  TimeString t := fmt_d t;
  DurationString d := fmt_d d +:+ "ns";
  ParseDuration := parseDuration;
  Stdout p s := (Some "write /dev/stdout: bad file descriptor", p);
  Stderr p s := (None, p);
  ReadFile p path := let '(r, q) := ReadFile (inner p) path in (r, {| inner := q |});
  WriteFile p path data :=
    let '(r, q) := WriteFile (inner p) path data in (r, {| inner := q |});
  ClientFromEnvironment p := None;
  growslice old need := Nat.max need (2 * old);
  growslice_fits old need := Nat.le_max_l need (2 * old);
  int_of_unrepresentable f := MinInt64
|}.

(** [fakeLLM] of [main_test.go] with the [respond] of
    [TestRunDebateFlow_Basic]; the state is the list of recorded calls. *)
Definition isPrefix (p s : string) : bool :=
  bool_decide (String.substring 0 (String.length p) s = p).

Definition respond (model system prompt : string) : outcome string :=
  if isPrefix RoleChallenger system then Ok "chal"
  else if isPrefix RoleDefender system then Ok "def"
  else Ok "?".

#[export] Instance fakeLLM : V2.LLMClient (list (string * string * string)) := {|
  V2.Generate calls model system prompt :=
    (respond model system prompt, calls ++ [(model, system, prompt)])
|}.

(** The same for the two-argument interface of [src/main.go], answering
    ["ok"] as [fakeLLM] does without [respond]. *)
#[export] Instance fakeLLM1 : V1.LLMClient (list (string * string)) := {|
  V1.Generate calls model prompt := (Ok "ok", calls ++ [(model, prompt)])
|}.

Definition proc0 : proc := {| clock := 0; tick := 10000000000; out := []; files := [] |}.

Definition world0 {C} (c : C) : world C proc :=
  {| w_client := c; w_proc := proc0; w_heap := [] |}.

(** A world whose clock advances by [t] nanoseconds at every reading. *)
Definition ticking {C} (c : C) (t : Z) : world C proc :=
  {| w_client := c;
     w_proc := {| clock := 0; tick := t; out := []; files := [] |};
     w_heap := [] |}.

(** The initial worlds of the examples, for each variant. *)
Definition start2 : world (list (string * string * string)) proc := world0 [].
Definition start1 : world (list (string * string)) proc := world0 [].

Definition llm0 : LLMConfig :=
  {| ChallengerModel := "mC"; DefenderModel := "mD";
     ChalPrompt := "CP"; DefPrompt := "DP" |}.

Definition config0 (n : Z) : DebateConfig :=
  {| Rounds := n; Duration := ""; InputFile := "notes.md";
     OutputFile := "report.md" |}.

Definition flags0 (n : Z) (duration : string) : Flags :=
  {| flag_input := "notes.md"; flag_output := "report.md"; flag_rounds := n;
     flag_duration := duration; flag_challenger := "mC"; flag_defender := "mD";
     flag_challenger_prompt := ""; flag_defender_prompt := "" |}.
End Fake.

(** A client that answers ["ok"] a given number of times and fails from
    then on; the state is the number of answers left. *)
Module Flaky.

Definition answer (left : nat) : outcome string * nat :=
  match left with
  | 0 => (Err "connection refused", 0)
  | S n => (Ok "ok", n)
  end.

#[export] Instance flakyLLM : V2.LLMClient nat := {|
  V2.Generate left model system prompt := answer left
|}.

#[export] Instance flakyLLM1 : V1.LLMClient nat := {|
  V1.Generate left model prompt := answer left
|}.

(** The world in which the client answers [n] times. *)
Definition answers (n : nat) : world nat Fake.proc := Fake.world0 n.
End Flaky.

(** The flags with the round count and the duration taken away. *)
Definition withoutBudget (cmd : Flags) : Flags :=
  {| flag_input := flag_input cmd; flag_output := flag_output cmd;
     flag_rounds := 0; flag_duration := "";
     flag_challenger := flag_challenger cmd;
     flag_defender := flag_defender cmd;
     flag_challenger_prompt := flag_challenger_prompt cmd;
     flag_defender_prompt := flag_defender_prompt cmd |}.

(** ** The debate as its trace shows it *)

(** The turns of the rounds a trace holds in full, in the order in which
    the loop appends them to the history. *)
Fixpoint v2_turns (t : list V2.call) : list Message :=
  match t with
  | c :: d :: rest =>
      match V2.c_reply c, V2.c_reply d with
      | Ok chal, Ok def =>
          {| Role := RoleChallenger; Content := chal |} ::
          {| Role := RoleDefender; Content := def |} :: v2_turns rest
      | _, _ => []
      end
  | _ => []
  end.

Fixpoint v1_turns (t : list V1.call) : list Message :=
  match t with
  | c :: d :: rest =>
      match V1.c_reply c, V1.c_reply d with
      | Ok chal, Ok def =>
          {| Role := RoleChallenger; Content := chal |} ::
          {| Role := RoleDefender; Content := def |} :: v1_turns rest
      | _, _ => []
      end
  | _ => []
  end.

(** The rounds a trace holds in full: the replies of its calls, two by
    two. *)
Fixpoint v2_rounds_of (t : list V2.call) : list DebateRound :=
  match t with
  | c :: d :: rest =>
      match V2.c_reply c, V2.c_reply d with
      | Ok chal, Ok def =>
          {| Challenger := chal; Defender := def |} :: v2_rounds_of rest
      | _, _ => []
      end
  | _ => []
  end.

Fixpoint v1_rounds_of (t : list V1.call) : list DebateRound :=
  match t with
  | c :: d :: rest =>
      match V1.c_reply c, V1.c_reply d with
      | Ok chal, Ok def =>
          {| Challenger := chal; Defender := def |} :: v1_rounds_of rest
      | _, _ => []
      end
  | _ => []
  end.

(** [rounds = append(rounds, r)] seen from the rounds that follow. *)
Definition cons_round (r : DebateRound) (res : outcome (list DebateRound))
  : outcome (list DebateRound) :=
  match res with
  | Ok rs => Ok (r :: rs)
  | Err e => Err e
  | Panic p => Panic p
  end.

Section Runs.
Context {P : Type} `{GoRuntime P}.

(** *** [src/unnamed/part_000] *)

(** What the loop keeps true of [history], [turns] being the turns of the
    rounds completed so far: the slice holds the seed and one element per
    turn; the elements the next views can reach are the turns themselves
    (older ones may have been overwritten by the seed). *)
Definition v2_stored (seed : Message) (turns : list Message)
           (h : heap Message) (st : V2.loop_state) : Prop :=
  valid h (V2.history st) /\
  s_len (V2.history st) = S (length turns) /\
  slice_list h (V2.history st) !! 0 = Some seed /\
  forall j, length turns - Z.to_nat V2.MaxHistory < j ->
    slice_list h (V2.history st) !! j = (seed :: turns) !! j.

(** How a round ends when it does not complete: the call failed or
    panicked, or the log write after it failed. *)
Definition v2_stopped {A} (calling logging : string) (reply : outcome string)
           (res : outcome A) : Prop :=
  match reply with
  | Err e => res = Err (calling +:+ e)
  | Panic p => res = Panic p
  | Ok _ => stdout_fails (P := P) /\ exists e, res = Err (logging +:+ e)
  end.

(** The Challenger call of a round that starts after [turns]. *)
Definition v2_opening (llm : LLMConfig) (seed : Message) (turns : list Message)
           (c : V2.call) : Prop :=
  V2.challengerCall llm c /\
  V2.c_view c = seed :: drop (length turns - Z.to_nat V2.MaxHistory) turns.

(** The Defender call that follows it. *)
Definition v2_answer (llm : LLMConfig) (c : V2.call) (chal : string)
           (d : V2.call) : Prop :=
  V2.c_reply c = Ok chal /\ V2.defenderCall llm d /\
  V2.c_view d = V2.c_view c ++ [{| Role := RoleChallenger; Content := chal |}].

(** A run of the loop that starts after [turns]: its calls and what it
    returns. *)
Inductive v2_run (llm : LLMConfig) (seed : Message)
  : list Message -> list V2.call -> outcome (list DebateRound) -> Prop :=
| v2_run_done turns : v2_run llm seed turns [] (Ok [])
| v2_run_challenger turns c res :
    v2_opening llm seed turns c ->
    v2_stopped "running challenger: " "logging challenger response: "
      (V2.c_reply c) res ->
    v2_run llm seed turns [c] res
| v2_run_defender turns c chal d res :
    v2_opening llm seed turns c -> v2_answer llm c chal d ->
    v2_stopped "running defender: " "logging defender response: "
      (V2.c_reply d) res ->
    v2_run llm seed turns [c; d] res
| v2_run_round turns c chal d def rest res :
    v2_opening llm seed turns c -> v2_answer llm c chal d ->
    V2.c_reply d = Ok def ->
    v2_run llm seed
      (turns ++ [{| Role := RoleChallenger; Content := chal |};
                 {| Role := RoleDefender; Content := def |}]) rest res ->
    v2_run llm seed turns (c :: d :: rest)
      (cons_round {| Challenger := chal; Defender := def |} res).

Definition v2_round_run {C} (llm : LLMConfig) (seed : Message)
           (turns : list Message) (st : V2.loop_state)
           (r : outcome V2.loop_state) (t : list V2.call) (w : world C P)
  : Prop :=
  match r with
  | Ok st' =>
      exists c chal d def,
        t = [c; d] /\ v2_opening llm seed turns c /\ v2_answer llm c chal d /\
        V2.c_reply d = Ok def /\
        V2.rounds st' =
          V2.rounds st ++ [{| Challenger := chal; Defender := def |}] /\
        v2_stored seed
          (turns ++ [{| Role := RoleChallenger; Content := chal |};
                     {| Role := RoleDefender; Content := def |}])
          (w_heap w) st'
  | _ =>
      (exists c, t = [c] /\ v2_opening llm seed turns c /\
         v2_stopped "running challenger: " "logging challenger response: "
           (V2.c_reply c) r) \/
      (exists c chal d, t = [c; d] /\ v2_opening llm seed turns c /\
         v2_answer llm c chal d /\
         v2_stopped "running defender: " "logging defender response: "
           (V2.c_reply d) r)
  end.

Definition v2_loop_run {C} (llm : LLMConfig) (seed : Message)
           (turns : list Message) (n : nat) (st : V2.loop_state)
           (r : outcome V2.loop_state) (t : list V2.call) (w : world C P)
  : Prop :=
  match r with
  | Ok st' =>
      exists rs, v2_run llm seed turns t (Ok rs) /\ length rs = n /\
                 V2.rounds st' = V2.rounds st ++ rs
  | Err e => v2_run llm seed turns t (Err e)
  | Panic p => v2_run llm seed turns t (Panic p)
  end.

(** *** [src/main.go] *)

(** There the history itself is cut at every round: it holds the last
    [MaxHistory + 2] elements, at most, of the seed followed by the turns. *)
Definition v1_stored (seed : Message) (turns : list Message)
           (h : heap Message) (st : V1.loop_state) : Prop :=
  valid h (V1.history st) /\
  slice_list h (V1.history st) =
    drop (S (length turns) - (Z.to_nat V1.MaxHistory + 2)) (seed :: turns).

Definition v1_stopped {A} (reply : outcome string) (res : outcome A) : Prop :=
  match reply with
  | Err e => res = Err e
  | Panic p => res = Panic p
  | Ok _ => False
  end.

Definition v1_opening (llm : LLMConfig) (seed : Message) (turns : list Message)
           (c : V1.call) : Prop :=
  V1.challengerCall llm c /\
  V1.c_view c = drop (S (length turns) - Z.to_nat V1.MaxHistory) (seed :: turns).

Definition v1_answer (llm : LLMConfig) (c : V1.call) (chal : string)
           (d : V1.call) : Prop :=
  V1.c_reply c = Ok chal /\ V1.defenderCall llm d /\
  V1.c_view d = V1.c_view c ++ [{| Role := RoleChallenger; Content := chal |}].

Inductive v1_run (llm : LLMConfig) (seed : Message)
  : list Message -> list V1.call -> outcome (list DebateRound) -> Prop :=
| v1_run_done turns : v1_run llm seed turns [] (Ok [])
| v1_run_challenger turns c res :
    v1_opening llm seed turns c -> v1_stopped (V1.c_reply c) res ->
    v1_run llm seed turns [c] res
| v1_run_defender turns c chal d res :
    v1_opening llm seed turns c -> v1_answer llm c chal d ->
    v1_stopped (V1.c_reply d) res ->
    v1_run llm seed turns [c; d] res
| v1_run_round turns c chal d def rest res :
    v1_opening llm seed turns c -> v1_answer llm c chal d ->
    V1.c_reply d = Ok def ->
    v1_run llm seed
      (turns ++ [{| Role := RoleChallenger; Content := chal |};
                 {| Role := RoleDefender; Content := def |}]) rest res ->
    v1_run llm seed turns (c :: d :: rest)
      (cons_round {| Challenger := chal; Defender := def |} res).

Definition v1_round_run {C} (llm : LLMConfig) (seed : Message)
           (turns : list Message) (st : V1.loop_state)
           (r : outcome V1.loop_state) (t : list V1.call) (w : world C P)
  : Prop :=
  match r with
  | Ok st' =>
      exists c chal d def,
        t = [c; d] /\ v1_opening llm seed turns c /\ v1_answer llm c chal d /\
        V1.c_reply d = Ok def /\
        V1.rounds st' =
          V1.rounds st ++ [{| Challenger := chal; Defender := def |}] /\
        v1_stored seed
          (turns ++ [{| Role := RoleChallenger; Content := chal |};
                     {| Role := RoleDefender; Content := def |}])
          (w_heap w) st'
  | _ =>
      (exists c, t = [c] /\ v1_opening llm seed turns c /\
         v1_stopped (V1.c_reply c) r) \/
      (exists c chal d, t = [c; d] /\ v1_opening llm seed turns c /\
         v1_answer llm c chal d /\ v1_stopped (V1.c_reply d) r)
  end.

Definition v1_loop_run {C} (llm : LLMConfig) (seed : Message)
           (turns : list Message) (n : nat) (st : V1.loop_state)
           (r : outcome V1.loop_state) (t : list V1.call) (w : world C P)
  : Prop :=
  match r with
  | Ok st' =>
      exists rs, v1_run llm seed turns t (Ok rs) /\ length rs = n /\
                 V1.rounds st' = V1.rounds st ++ rs
  | Err e => v1_run llm seed turns t (Err e)
  | Panic p => v1_run llm seed turns t (Panic p)
  end.

(** *** A run of the command line that ends without error *)

(** Its calls are those of the trial round, if one was run to estimate the
    round count [n] from a duration, those of the debate of [n] rounds, and
    the call of the Summarizer over the rounds of that debate, whose reply
    is what [os.WriteFile] was given. *)
Definition v2_reported {C} (cmd : Flags) (t : list V2.call) (w' : world C P)
  : Prop :=
  exists trial debate c report n,
    t = trial ++ debate ++ [c] /\
    (trial = [] \/
     flag_rounds cmd = 0%Z /\ flag_duration cmd <> "" /\ length trial = 2 /\
     exists total elapsed,
       ParseDuration (flag_duration cmd) = Ok total /\ (0 < elapsed)%Z /\
       n = roundsFor total elapsed) /\
    (0 < n)%Z /\
    ((0 < flag_rounds cmd)%Z -> n = flag_rounds cmd /\ trial = []) /\
    (flag_duration cmd = "" -> (flag_rounds cmd <= 0)%Z -> n = MaxInt) /\
    length debate = 2 * Z.to_nat n /\
    Forall (fun x => is_ok (V2.c_reply x) = true) debate /\
    V2.c_model c = flag_challenger cmd /\
    V2.c_system c = summaryInstruction /\
    V2.c_view c =
      [{| Role := RoleSystem;
          Content := summary_text 0 (v2_rounds_of debate) "" |}] /\
    V2.c_prompt c = render_from "" (V2.c_view c) /\
    V2.c_reply c = Ok report /\
    exists p, WriteFile p (flag_output cmd) report = (None, w_proc w').

Definition v1_reported {C} (cmd : Flags) (t : list V1.call) (w' : world C P)
  : Prop :=
  exists trial debate c report n,
    t = trial ++ debate ++ [c] /\
    (trial = [] \/
     flag_rounds cmd = 0%Z /\ flag_duration cmd <> "" /\ length trial = 2 /\
     exists total elapsed,
       ParseDuration (flag_duration cmd) = Ok total /\
       n = roundsFor total elapsed) /\
    (0 < n)%Z /\
    ((0 < flag_rounds cmd)%Z -> n = flag_rounds cmd /\ trial = []) /\
    (flag_duration cmd = "" -> (flag_rounds cmd <= 0)%Z -> n = 3%Z) /\
    length debate = 2 * Z.to_nat n /\
    Forall (fun x => is_ok (V1.c_reply x) = true) debate /\
    V1.c_model c = flag_challenger cmd /\
    V1.c_view c =
      [{| Role := RoleSystem;
          Content := summary_text 0 (v1_rounds_of debate) "" |}] /\
    V1.c_prompt c = render_from (summaryInstruction +:+ nl) (V1.c_view c) /\
    V1.c_reply c = Ok report /\
    exists p, WriteFile p (flag_output cmd) report = (None, w_proc w').
End Runs.

(** ** The writes of a run to standard output *)

(** A process together with the writes made to its standard output so far:
    the text of each and what the write returned. *)
Record recorded (P : Type) := {
  base : P;
  writes : list (string * option error)
}.
Arguments base {P} r.
Arguments writes {P} r.

(** The runtime of [P] with every write to standard output noted down;
    nothing else is changed. *)
Definition recording `{GoRuntime P} : GoRuntime (recorded P) := {|
  Now p := ((Now (base p)).1,
            {| base := (Now (base p)).2; writes := writes p |});
  TimeString := @TimeString P _;
  DurationString := @DurationString P _;
  ParseDuration := @ParseDuration P _;
  Stdout p s :=
    ((Stdout (base p) s).1,
     {| base := (Stdout (base p) s).2;
        writes := writes p ++ [(s, (Stdout (base p) s).1)] |});
  Stderr p s := ((Stderr (base p) s).1,
                 {| base := (Stderr (base p) s).2; writes := writes p |});
  ReadFile p path :=
    ((ReadFile (base p) path).1,
     {| base := (ReadFile (base p) path).2; writes := writes p |});
  WriteFile p path data :=
    ((WriteFile (base p) path data).1,
     {| base := (WriteFile (base p) path data).2; writes := writes p |});
  ClientFromEnvironment p := ClientFromEnvironment (base p);
  growslice := @growslice P _;
  growslice_fits := @growslice_fits P _;
  int_of_unrepresentable := @int_of_unrepresentable P _
|}.

(** The runtime of [P] with every write to standard output reported as a
    success; the process moves as it does in [P]. *)
Record quieted (P : Type) := { under : P }.
Arguments under {P} q.

Definition quiet `{GoRuntime P} : GoRuntime (quieted P) := {|
  Now p := ((Now (under p)).1, {| under := (Now (under p)).2 |});
  TimeString := @TimeString P _;
  DurationString := @DurationString P _;
  ParseDuration := @ParseDuration P _;
  Stdout p s := (None, {| under := (Stdout (under p) s).2 |});
  Stderr p s := ((Stderr (under p) s).1, {| under := (Stderr (under p) s).2 |});
  ReadFile p path :=
    ((ReadFile (under p) path).1, {| under := (ReadFile (under p) path).2 |});
  WriteFile p path data :=
    ((WriteFile (under p) path data).1,
     {| under := (WriteFile (under p) path data).2 |});
  ClientFromEnvironment p := ClientFromEnvironment (under p);
  growslice := @growslice P _;
  growslice_fits := @growslice_fits P _;
  int_of_unrepresentable := @int_of_unrepresentable P _
|}.

Section Watching.
Context {C P : Type} `{GoRuntime P}.
#[local] Existing Instance recording.
#[local] Existing Instance quiet.

Definition recorded_as (w : world C P) (log : list (string * option error))
  : world C (recorded P) :=
  {| w_client := w_client w;
     w_proc := {| base := w_proc w; writes := log |};
     w_heap := w_heap w |}.

(** The world [w] with nothing written yet. *)
Definition record (w : world C P) : world C (recorded P) := recorded_as w [].

Definition quieten (w : world C P) : world C (quieted P) :=
  {| w_client := w_client w;
     w_proc := {| under := w_proc w |};
     w_heap := w_heap w |}.

(** [runDebateFlow] of [src/unnamed/part_000] under the recording runtime,
    and the writes to standard output it makes: those of [logDebate]. *)
Definition v2_recorded_run `{V2.LLMClient C} (claim : string)
           (config : DebateConfig) (llm : LLMConfig) (w : world C P) :=
  V2.runDebateFlow claim config llm (record w).

Definition v2_writes `{V2.LLMClient C} (claim : string)
           (config : DebateConfig) (llm : LLMConfig) (w : world C P)
  : list (string * option error) :=
  writes (w_proc (v2_recorded_run claim config llm w).2).

(** A write that succeeded. *)
Definition written (wr : string * option error) : Prop := wr.2 = None.

(** [mr] is [m] with its writes noted down, and [mq] is [m] whenever the
    writes it makes succeed. *)
Definition tracked {E A} (m : M (world C P) E A)
           (mr : M (world C (recorded P)) E A)
           (mq : M (world C (quieted P)) E A) : Prop :=
  forall w log,
    exists new,
      mr (recorded_as w log) = ((m w).1, recorded_as (m w).2 (log ++ new)) /\
      (Forall written new -> mq (quieten w) = ((m w).1, quieten (m w).2)).
End Watching.

(** ** Counting a text in a text *)

(** The number of positions of [s] at which [pat] starts. *)
Fixpoint occurrences (pat s : string) : nat :=
  match s with
  | EmptyString => 0
  | String _ rest =>
      (if String.prefix pat s then 1 else 0) + occurrences pat rest
  end.

(** ** Proof steps *)


Import Fake.
Import Flaky.

(** ** Facts about slices *)

Section SliceFacts.
Context {A : Type} (zero : A) `{GoRuntime P}.
Implicit Types (h : heap A) (s t : slice) (vs : list A).

Lemma backing_lookup h a arr : h !! a = Some arr -> backing h a = arr.
Proof. unfold backing. intros ->. reflexivity. Qed.

Lemma backing_alter_eq h a f :
  backing (alter f a h) a = if decide (a < length h) then f (backing h a) else [].
Proof.
  unfold backing. rewrite list_lookup_alter_eq.
  destruct (h !! a) eqn:E; simpl.
  - apply lookup_lt_Some in E. rewrite decide_True; done.
  - apply lookup_ge_None in E. rewrite decide_False; [done | lia].
Qed.

Lemma backing_alter_ne h a b f : a <> b -> backing (alter f a h) b = backing h b.
Proof. intros. unfold backing. rewrite list_lookup_alter_ne; done. Qed.

Lemma backing_app_old h k a : a < length h -> backing (h ++ k) a = backing h a.
Proof. intros. unfold backing. rewrite lookup_app_l; done. Qed.

Lemma backing_app_new h arr : backing (h ++ [arr]) (length h) = arr.
Proof. unfold backing. rewrite list_lookup_middle; done. Qed.

Lemma slice_list_length_le h s : length (slice_list h s) <= s_len s.
Proof. unfold slice_list. rewrite length_take. lia. Qed.

Lemma slice_list_length h s : valid h s -> length (slice_list h s) = s_len s.
Proof.
  intros (_ & Hcap & Hlen). unfold slice_list.
  rewrite length_take, length_drop. lia.
Qed.

Lemma write_at_length p vs arr :
  p + length vs <= length arr -> length (write_at p vs arr) = length arr.
Proof.
  intros. unfold write_at.
  rewrite !length_app, length_take, length_drop. lia.
Qed.

(** *** [s[i] = v] *)

Lemma store_valid h s i v t : valid h t -> valid (store h s i v) t.
Proof.
  intros (Ha & Hcap & Hlen). unfold valid, store.
  rewrite length_alter. repeat split; try done.
  destruct (decide (s_arr s = s_arr t)) as [E | E].
  - rewrite E, backing_alter_eq, decide_True by done.
    rewrite length_insert. done.
  - rewrite backing_alter_ne by done. done.
Qed.

Lemma store_slice_list h s i v :
  valid h s -> i < s_len s ->
  slice_list (store h s i v) s = <[i := v]> (slice_list h s).
Proof.
  intros (Ha & Hcap & Hlen) Hi. unfold slice_list, store.
  rewrite backing_alter_eq, decide_True by done.
  rewrite drop_insert_ge by lia.
  rewrite take_insert_lt by lia.
  f_equal. lia.
Qed.

(** *** [s[low:]] *)

Lemma reslice_valid h s low t :
  valid h s -> reslice_from s low = Ok t -> valid h t.
Proof.
  intros (Ha & Hcap & Hlen). unfold reslice_from.
  case_bool_decide; [| discriminate]. intros [= <-].
  unfold valid; simpl. repeat split; [done | lia | lia].
Qed.

Lemma reslice_list h s low t :
  reslice_from s low = Ok t ->
  slice_list h t = drop (Z.to_nat low) (slice_list h s).
Proof.
  unfold reslice_from. case_bool_decide; [| discriminate]. intros [= <-].
  unfold slice_list; simpl.
  apply list_eq. intros j.
  rewrite lookup_drop, !lookup_take, !lookup_drop.
  repeat case_decide; try lia; try done.
  f_equal. lia.
Qed.

(** *** [append] *)

Lemma append_len h s vs :
  s_len (append zero h s vs).2 = s_len s + length vs.
Proof. unfold append. case_bool_decide; reflexivity. Qed.

Lemma append_valid h s vs : valid h s -> valid (append zero h s vs).1 (append zero h s vs).2.
Proof.
  intros (Ha & Hcap & Hlen). unfold append.
  case_bool_decide as Hfit; simpl; unfold valid; simpl.
  - rewrite length_alter, backing_alter_eq, decide_True by done.
    rewrite write_at_length by lia. repeat split; [done | lia | lia].
  - rewrite backing_app_new, !length_app, length_replicate; simpl.
    pose proof (growslice_fits (s_cap s) (s_len s + length vs)).
    pose proof (slice_list_length h s (conj Ha (conj Hcap Hlen))).
    repeat split; lia.
Qed.

Lemma append_keeps_valid h s vs t : valid h t -> valid (append zero h s vs).1 t.
Proof.
  intros (Ha & Hcap & Hlen). unfold append.
  case_bool_decide as Hfit; simpl; unfold valid.
  - rewrite length_alter. repeat split; try done.
    destruct (decide (s_arr s = s_arr t)) as [E | E].
    + rewrite E, backing_alter_eq, decide_True by done.
      unfold write_at. rewrite !length_app, length_take, length_drop. lia.
    + rewrite backing_alter_ne by done. done.
  - rewrite length_app, backing_app_old by done. simpl. repeat split; [lia | done | done].
Qed.

Lemma append_list h s vs :
  valid h s ->
  slice_list (append zero h s vs).1 (append zero h s vs).2 = slice_list h s ++ vs.
Proof.
  intros (Ha & Hcap & Hlen). unfold append.
  case_bool_decide as Hfit; simpl; unfold slice_list; simpl.
  - rewrite backing_alter_eq, decide_True by done.
    unfold write_at.
    set (arr := backing h (s_arr s)) in *.
    rewrite drop_app_le by (rewrite length_take; lia).
    assert (length (drop (s_off s) (take (s_off s + s_len s) arr)) = s_len s) as Hl.
    { rewrite length_drop, length_take. lia. }
    rewrite take_app_ge by lia. rewrite Hl.
    replace (s_len s + length vs - s_len s) with (length vs) by lia.
    rewrite take_app_length. f_equal.
    rewrite <- take_drop_commute. reflexivity.
  - rewrite backing_app_new. rewrite drop_0.
    fold (slice_list h s).
    pose proof (slice_list_length h s (conj Ha (conj Hcap Hlen))) as Hl.
    rewrite app_assoc. rewrite take_app_length'; [done |].
    rewrite length_app. lia.
Qed.
Lemma make1_valid h v : valid (make1 h v).1 (make1 h v).2.
Proof.
  unfold valid, make1; simpl. rewrite length_app, backing_app_new; simpl.
  repeat split; lia.
Qed.
End SliceFacts.

(** ** Weakest preconditions for the monad *)

Section WP.
Context {S E : Type}.

Lemma wp_ret {A} (a : A) (Q : outcome A -> list E -> S -> Prop) s : Q (Ok a) [] s -> wp (ret a) Q s.
Proof. intros HQ. exact HQ. Qed.

Lemma wp_lift {A} (o : outcome A) (Q : outcome A -> list E -> S -> Prop) s : Q o [] s -> wp (lift o) Q s.
Proof. intros HQ. exact HQ. Qed.

Lemma wp_fail {A} e (Q : outcome A -> list E -> S -> Prop) s : Q (Err e) [] s -> wp (fail e) Q s.
Proof. intros HQ. exact HQ. Qed.

Lemma wp_bind {A B} (m : M S E A) (k : A -> M S E B) Q s :
  wp m (fun r t s' =>
          match r with
          | Ok a => wp (k a) (fun r' t' s'' => Q r' (t ++ t') s'') s'
          | Err e => Q (Err e) t s'
          | Panic p => Q (Panic p) t s'
          end) s ->
  wp (bind m k) Q s.
Proof.
  unfold wp, bind. destruct (m s) as [[[a | e | p] t] s']; simpl; try done.
  destruct (k a s') as [[r t'] s'']; simpl. done.
Qed.

Lemma wp_wrapErr {A} prefix (m : M S E A) Q s :
  wp m (fun r t s' =>
          Q (match r with Err e => Err (prefix +:+ e) | _ => r end) t s') s ->
  wp (wrapErr prefix m) Q s.
Proof.
  unfold wp, wrapErr. destruct (m s) as [[[a | e | p] t] s']; simpl; done.
Qed.

Lemma wp_mono {A} (m : M S E A) (Q Q' : outcome A -> list E -> S -> Prop) s :
  wp m Q s -> (forall r t s', Q r t s' -> Q' r t s') -> wp m Q' s.
Proof. unfold wp. auto. Qed.
End WP.

Section WPPrimitives.
Context {C P E : Type} `{GoRuntime P}.
Implicit Types (w : world C P).

Lemma wp_on_proc {A} (f : P -> A * P) (Q : outcome A -> list E -> _ -> Prop) w :
  Q (Ok (f (w_proc w)).1) [] (with_proc w (f (w_proc w)).2) ->
  wp (on_proc f) Q w.
Proof. unfold wp, on_proc. destruct (f (w_proc w)); done. Qed.

Lemma wp_now (Q : outcome Z -> list E -> _ -> Prop) w :
  Q (Ok (Now (w_proc w)).1) [] (with_proc w (Now (w_proc w)).2) ->
  wp now Q w.
Proof. apply wp_on_proc. Qed.

Lemma wp_printf text (Q : outcome unit -> list E -> _ -> Prop) w :
  Q (match (Stdout (w_proc w) text).1 with Some e => Err e | None => Ok tt end)
    [] (with_proc w (Stdout (w_proc w) text).2) ->
  wp (printf text) Q w.
Proof.
  intros HQ. unfold printf. apply wp_bind, wp_on_proc.
  destruct (Stdout (w_proc w) text) as [[e |] p]; simpl in *; done.
Qed.

Lemma wp_printf_ text (Q : outcome unit -> list E -> _ -> Prop) w :
  Q (Ok tt) [] (with_proc w (Stdout (w_proc w) text).2) ->
  wp (printf_ text) Q w.
Proof. intros HQ. unfold printf_. apply wp_bind, wp_on_proc. done. Qed.

Lemma wp_slice_lit1 m (Q : outcome slice -> list E -> _ -> Prop) w :
  Q (Ok (make1 (w_heap w) m).2) [] (with_heap w (make1 (w_heap w) m).1) ->
  wp (slice_lit1 m) Q w.
Proof. intros HQ. exact HQ. Qed.

Lemma wp_slice_append s vs (Q : outcome slice -> list E -> _ -> Prop) w :
  Q (Ok (append zeroMessage (w_heap w) s vs).2) []
    (with_heap w (append zeroMessage (w_heap w) s vs).1) ->
  wp (slice_append s vs) Q w.
Proof.
  unfold wp, slice_append, on_heap.
  destruct (append zeroMessage (w_heap w) s vs); done.
Qed.

Lemma wp_slice_set s i v (Q : outcome unit -> list E -> _ -> Prop) w :
  (0 <= i < Z.of_nat (s_len s))%Z ->
  Q (Ok tt) [] (with_heap w (store (w_heap w) s (Z.to_nat i) v)) ->
  wp (slice_set s i v) Q w.
Proof.
  intros Hi HQ. unfold wp, slice_set, index_set.
  rewrite bool_decide_eq_true_2 by done. done.
Qed.

Lemma wp_slice_read s (Q : outcome (list Message) -> list E -> _ -> Prop) w :
  Q (Ok (slice_list (w_heap w) s)) [] w -> wp (slice_read s) Q w.
Proof. intros HQ. exact HQ. Qed.

(** [trimHistory] with a positive bound *)
Lemma trimHistory_ok history max :
  (0 <= max)%Z ->
  exists t, trimHistory history max = Ok t /\
            s_len t = Nat.min (s_len history) (Z.to_nat max) /\
            forall h : heap Message,
              slice_list h t =
              drop (s_len history - Z.to_nat max) (slice_list h history) /\
              (valid h history -> valid h t).
Proof.
  intros Hmax. unfold trimHistory. case_bool_decide as Hle.
  - exists history. split; [done |]. split; [lia |]. intros h.
    replace (s_len history - Z.to_nat max) with 0 by lia. done.
  - destruct (reslice_from history (Z.of_nat (s_len history) - max))
      as [t | e | p] eqn:Hre.
    + exists t. split; [done |].
      assert (s_len t = Nat.min (s_len history) (Z.to_nat max)) as Hl.
      { unfold reslice_from in Hre. case_bool_decide; [| discriminate].
        injection Hre as <-. simpl. lia. }
      split; [done |]. intros h. split.
      * rewrite (reslice_list h _ _ _ Hre). f_equal. lia.
      * intros Hv. eapply reslice_valid; done.
    + unfold reslice_from in Hre. case_bool_decide; discriminate.
    + unfold reslice_from in Hre. case_bool_decide; [discriminate | lia].
Qed.
End WPPrimitives.

Module V2Facts.
Import V2.
Section Run.
Context {C P : Type} `{LLMClient C} `{GoRuntime P}.
Implicit Types (w : world C P) (st : loop_state).

Lemma v2_wp_generate model system prompt view
      (Q : outcome string -> list call -> world C P -> Prop) w :
  (forall r c,
      Q r [{| c_model := model; c_system := system; c_prompt := prompt;
              c_view := view; c_reply := r |}] (with_client w c)) ->
  wp (generate model system prompt view) Q w.
Proof.
  intros HQ. unfold wp, generate.
  destruct (Generate (w_client w) model system prompt) as [r c]. apply HQ.
Qed.

Lemma v2_wp_runSingleRound model prompt history
      (Q : outcome string -> list call -> world C P -> Prop) w :
  (forall r c,
      Q r [{| c_model := model; c_system := prompt;
              c_prompt := render_from "" (slice_list (w_heap w) history);
              c_view := slice_list (w_heap w) history; c_reply := r |}]
        (with_client w c)) ->
  wp (runSingleRound model prompt history) Q w.
Proof.
  intros HQ. unfold runSingleRound.
  apply wp_bind, wp_slice_read, v2_wp_generate. intros r c.
  destruct r; apply HQ.
Qed.

Lemma v2_wp_logDebate text (Q : outcome unit -> list call -> world C P -> Prop) w :
  (forall p, Q (Ok tt) [] (with_proc w p)) ->
  (stdout_fails -> forall e p, Q (Err e) [] (with_proc w p)) ->
  wp (logDebate text) Q w.
Proof.
  intros Hok Herr. unfold logDebate.
  apply wp_bind, wp_now, wp_printf. simpl.
  destruct (Stdout _ _) as [[e |] p] eqn:Hout; simpl.
  - apply (Herr ltac:(eexists _, _, e; rewrite Hout; done)).
  - apply Hok.
Qed.

Lemma v2_roundBody_spec llm claimEntry st w :
  loop_inv (w_heap w) st ->
  wp (roundBody llm claimEntry st) (round_post llm claimEntry st) w.
Proof.
  intros [Hv Hlen]. unfold roundBody, roundView, trimmedView.
  destruct (trimHistory_ok (history st) (MaxHistory + 1) ltac:(done))
    as (t0 & Htrim & Hl0 & Hview0).
  change (Z.to_nat (MaxHistory + 1)) with 101 in *.
  apply wp_bind, wp_bind. rewrite Htrim. apply wp_lift.
  apply wp_bind, wp_slice_set; [lia |]. apply wp_ret. simpl.
  change (Z.to_nat 0) with 0.
  set (h1 := store (w_heap w) t0 0 claimEntry).
  assert (valid (w_heap w) t0) as Hv0 by (apply Hview0; done).
  assert (valid h1 t0) as Hv1 by (apply store_valid; done).
  assert (valid h1 (history st)) as Hvh1 by (apply store_valid; done).
  assert (slice_list h1 t0 = <[0 := claimEntry]> (slice_list (w_heap w) t0)) as Hview1.
  { apply store_slice_list; [done | lia]. }
  assert (length (slice_list h1 t0) = s_len t0) as Hlen1
      by (apply slice_list_length; done).
  assert (slice_list h1 t0 !! 0 = Some claimEntry) as Hseed.
  { rewrite Hview1. apply list_lookup_insert_eq.
    rewrite (slice_list_length _ _ Hv0). lia. }
  apply wp_bind, wp_wrapErr, v2_wp_runSingleRound. intros r1 c1. simpl.
  set (c := {| c_model := _ |}).
  assert (challengerCall llm c) as Hc by done.
  assert (seedView claimEntry c) as Hsv.
  { split; [done |]. subst c. simpl. rewrite Hlen1. unfold MaxHistory. lia. }
  destruct r1 as [chal | e | p]; simpl.
  2,3: split; [left; eexists; done | left; exists c; done].
  apply wp_bind, wp_slice_append. simpl.
  set (chalEntry := {| Role := RoleChallenger; Content := chal |}).
  pose proof (append_valid zeroMessage h1 t0 [chalEntry] Hv1) as Hv2.
  pose proof (append_list zeroMessage h1 t0 [chalEntry] Hv1) as Hview2.
  pose proof (append_keeps_valid zeroMessage h1 t0 [chalEntry] _ Hvh1) as Hvh2.
  destruct (append zeroMessage h1 t0 [chalEntry]) as [h2 t1]. simpl in *.
  assert (forall r, exchange llm claimEntry c
            {| c_model := DefenderModel llm;
               c_system := RoleDefender +:+ nl +:+ DefPrompt llm;
               c_prompt := render_from "" (slice_list h2 t1);
               c_view := slice_list h2 t1; c_reply := r |}) as Hex.
  { intros r. split; [done |]. split; [done |]. split; [done |].
    exists chal. done. }
  apply wp_bind, wp_wrapErr, v2_wp_logDebate.
  2: { intros Hf e p. simpl. split; [left; eexists; done | right; done]. }
  intros p1. simpl.
  apply wp_bind, wp_wrapErr, v2_wp_runSingleRound. intros r2 c2. simpl.
  specialize (Hex r2).
  destruct r2 as [def | e | p]; simpl.
  2,3: split; [right; eexists _, _; done | left; eexists; split; reflexivity].
  set (d := Build_call (DefenderModel llm) _ _ _ _) in *.
  apply wp_bind, wp_slice_append. simpl.
  set (defEntry := {| Role := RoleDefender; Content := def |}).
  pose proof (append_keeps_valid zeroMessage h2 t1 [defEntry] _ Hvh2) as Hvh3.
  destruct (append zeroMessage h2 t1 [defEntry]) as [h3 t2]. simpl in *.
  apply wp_bind, wp_wrapErr, v2_wp_logDebate.
  2: { intros Hf e p. simpl. split; [right; eexists _, _; done | right; done]. }
  intros p2. simpl.
  apply wp_bind, wp_slice_append, wp_ret. simpl.
  pose proof (append_valid zeroMessage h3 (history st) [chalEntry; defEntry] Hvh3) as Hv4.
  pose proof (append_len zeroMessage h3 (history st) [chalEntry; defEntry]) as Hl4.
  destruct (append zeroMessage h3 (history st) [chalEntry; defEntry]) as [h4 hist']. simpl in *.
  exists c, d, chal, def.
  split; [done |]. split; [exact Hex |]. split; [done |]. split; [done |].
  split; [done |]. split; [exact Hv4 | simpl; lia].
Qed.

Lemma v2_failure_cause_later c d t : t <> [] -> failure_cause t -> failure_cause (c :: d :: t).
Proof.
  intros Hne [(x & Hlast & Hx) | Hout]; [left | right; done].
  exists x. split; [| done].
  destruct t as [| y t]; [done |]. simpl in *. done.
Qed.

Lemma v2_debateLoop_spec llm claimEntry n : forall st w,
  loop_inv (w_heap w) st ->
  wp (debateLoop llm claimEntry n st) (loop_post llm claimEntry n st) w.
Proof.
  induction n as [| n IH]; intros st w Hinv; simpl.
  - apply wp_ret. exists []. rewrite app_nil_r.
    split; [constructor |]. split; [done |]. split; done.
  - apply wp_bind. eapply wp_mono; [apply v2_roundBody_spec; done |].
    intros r t w1 Hr. destruct r as [st1 | e | p]; simpl in Hr.
    + destruct Hr as (c & d & chal & def & -> & Hex & Hc & Hd & Hrs & Hinv1).
      eapply wp_mono; [apply IH; done |].
      intros r2 t2 w2 Hr2. destruct r2 as [st2 | e | p]; simpl in *.
      * destruct Hr2 as (rs & Hct & Hn & Hrs2 & Hinv2).
        exists ({| Challenger := chal; Defender := def |} :: rs).
        split; [econstructor; done |]. split; [simpl; lia |].
        split; [| done]. rewrite Hrs2, Hrs, <- app_assoc. done.
      * destruct Hr2 as (Hdt & Hcause & Hlen). split; [constructor; done |].
        split; [| simpl; lia].
        destruct t2; [| apply v2_failure_cause_later; done].
        destruct Hcause as [(x & Hl & _) | Hout]; [done | right; done].
      * destruct Hr2 as (Hdt & Hcause & Hlen). split; [constructor; done |].
        split; [| simpl; lia].
        destruct t2; [| apply v2_failure_cause_later; done].
        destruct Hcause as [(x & Hl & _) | Hout]; [done | right; done].
    + destruct Hr as [[(c & -> & Hc & Hsv) | (c & d & -> & Hex)] Hcause];
        (split; [| split; [done | simpl; lia]]);
        [constructor; done | constructor; [done | constructor]].
    + destruct Hr as [[(c & -> & Hc & Hsv) | (c & d & -> & Hex)] Hcause];
        (split; [| split; [done | simpl; lia]]);
        [constructor; done | constructor; [done | constructor]].
Qed.

Lemma v2_runDebateFlow_spec claim config llm w :
  wp (runDebateFlow claim config llm) (flow_post llm claim config) w.
Proof.
  unfold runDebateFlow, debateStart.
  apply wp_bind, wp_bind, wp_slice_lit1.
  pose proof (make1_valid (w_heap w) {| Role := RoleUser; Content := claim |}) as Hv.
  destruct (make1 _ _) as [h0 s0] eqn:Hmk. simpl in *.
  assert (s_len s0 = 1) as Hl by (injection Hmk as _ <-; done).
  apply wp_bind, v2_wp_logDebate.
  2: { intros Hf e p. simpl. split; [constructor |]. split; [right; done | lia]. }
  intros p. apply wp_ret. simpl.
  apply wp_bind. eapply wp_mono; [apply v2_debateLoop_spec; split; simpl; [done | lia] |].
  intros r t w1 Hr. destruct r as [st1 | e | q]; simpl in *; try done.
  destruct Hr as (rs & Hct & Hn & Hrs & _). apply wp_ret. simpl.
  rewrite Hrs, app_nil_r. done.
Qed.
End Run.
End V2Facts.

Module V1Facts.
Import V1.
Section Run.
Context {C P : Type} `{LLMClient C} `{GoRuntime P}.
Implicit Types (w : world C P) (st : loop_state).

Lemma v1_wp_generate model prompt view
      (Q : outcome string -> list call -> world C P -> Prop) w :
  (forall r c,
      Q r [{| c_model := model; c_prompt := prompt; c_view := view;
              c_reply := r |}] (with_client w c)) ->
  wp (generate model prompt view) Q w.
Proof.
  intros HQ. unfold wp, generate.
  destruct (Generate (w_client w) model prompt) as [r c]. apply HQ.
Qed.

Lemma v1_wp_runSingleRound model prompt history role
      (Q : outcome string -> list call -> world C P -> Prop) w :
  (forall r c,
      Q r [{| c_model := model;
              c_prompt := render_from (prompt +:+ nl)
                            (slice_list (w_heap w) history);
              c_view := slice_list (w_heap w) history; c_reply := r |}]
        (with_client w c)) ->
  wp (runSingleRound model prompt history role) Q w.
Proof.
  intros HQ. unfold runSingleRound.
  apply wp_bind, wp_slice_read, v1_wp_generate. intros r c.
  destruct r; apply HQ.
Qed.

Lemma v1_roundBody_spec llm st w :
  loop_inv (w_heap w) st ->
  wp (roundBody llm st) (round_post llm st) w.
Proof.
  intros [Hv Hlen]. unfold roundBody.
  destruct (trimHistory_ok (history st) MaxHistory ltac:(done))
    as (t0 & Htrim & Hl0 & Hview0).
  change (Z.to_nat MaxHistory) with 10 in *.
  apply wp_bind. rewrite Htrim. apply wp_lift.
  assert (valid (w_heap w) t0) as Hv0 by (apply Hview0; done).
  assert (length (slice_list (w_heap w) t0) = s_len t0) as Hlen0
      by (apply slice_list_length; done).
  apply wp_bind, v1_wp_runSingleRound. intros r1 c1. simpl.
  set (c := Build_call (ChallengerModel llm) _ _ _).
  assert (challengerCall llm c) as Hc by done.
  destruct r1 as [chal | e | p]; simpl.
  2,3: split; [left; eexists; done | exists c; done].
  apply wp_bind, wp_slice_append. simpl.
  set (chalEntry := {| Role := RoleChallenger; Content := chal |}).
  pose proof (append_valid zeroMessage (w_heap w) t0 [chalEntry] Hv0) as Hv1.
  pose proof (append_list zeroMessage (w_heap w) t0 [chalEntry] Hv0) as Hview1.
  pose proof (append_len zeroMessage (w_heap w) t0 [chalEntry]) as Hl1.
  destruct (append zeroMessage (w_heap w) t0 [chalEntry]) as [h1 t1]. simpl in *.
  assert (forall r, exchange llm c
            {| c_model := DefenderModel llm;
               c_prompt := render_from (DefPrompt llm +:+ nl) (slice_list h1 t1);
               c_view := slice_list h1 t1; c_reply := r |}) as Hex.
  { intros r. split; [done |]. split; [done |]. split.
    - subst c. simpl. rewrite Hlen0. unfold MaxHistory. lia.
    - exists chal. done. }
  apply wp_bind, v1_wp_runSingleRound. intros r2 c2. simpl.
  specialize (Hex r2).
  destruct r2 as [def | e | p]; simpl.
  2,3: split; [right; eexists _, _; done | eexists; split; reflexivity].
  set (d := Build_call (DefenderModel llm) _ _ _) in *.
  apply wp_bind, wp_slice_append, wp_ret. simpl.
  set (defEntry := {| Role := RoleDefender; Content := def |}).
  pose proof (append_valid zeroMessage h1 t1 [defEntry] Hv1) as Hv2.
  pose proof (append_len zeroMessage h1 t1 [defEntry]) as Hl2.
  destruct (append zeroMessage h1 t1 [defEntry]) as [h2 t2]. simpl in *.
  exists c, d, chal, def.
  split; [done |]. split; [exact Hex |]. split; [done |]. split; [done |].
  split; [done |]. split; [exact Hv2 | simpl; lia].
Qed.

Lemma v1_failure_cause_later c d t : t <> [] -> failure_cause t -> failure_cause (c :: d :: t).
Proof.
  intros Hne (x & Hlast & Hx). exists x. split; [| done].
  destruct t as [| y t]; [done |]. simpl in *. done.
Qed.

Lemma v1_debateLoop_spec llm n : forall st w,
  loop_inv (w_heap w) st ->
  wp (debateLoop llm n st) (loop_post llm n st) w.
Proof.
  induction n as [| n IH]; intros st w Hinv; simpl.
  - apply wp_ret. exists []. rewrite app_nil_r.
    split; [constructor |]. split; [done |]. split; done.
  - apply wp_bind. eapply wp_mono; [apply v1_roundBody_spec; done |].
    intros r t w1 Hr. destruct r as [st1 | e | p]; simpl in Hr.
    + destruct Hr as (c & d & chal & def & -> & Hex & Hc & Hd & Hrs & Hinv1).
      eapply wp_mono; [apply IH; done |].
      intros r2 t2 w2 Hr2. destruct r2 as [st2 | e | p]; simpl in *.
      * destruct Hr2 as (rs & Hct & Hn & Hrs2 & Hinv2).
        exists ({| Challenger := chal; Defender := def |} :: rs).
        split; [econstructor; done |]. split; [simpl; lia |].
        split; [| done]. rewrite Hrs2, Hrs, <- app_assoc. done.
      * destruct Hr2 as (Hdt & Hcause & Hlen). split; [constructor; done |].
        split; [| simpl; lia].
        destruct t2; [| apply v1_failure_cause_later; done].
        destruct Hcause as (x & Hl & _); done.
      * destruct Hr2 as (Hdt & Hcause & Hlen). split; [constructor; done |].
        split; [| simpl; lia].
        destruct t2; [| apply v1_failure_cause_later; done].
        destruct Hcause as (x & Hl & _); done.
    + destruct Hr as [[(c & -> & Hc) | (c & d & -> & Hex)] Hcause];
        (split; [| split; [done | simpl; lia]]);
        [constructor; done | constructor; [done | constructor]].
    + destruct Hr as [[(c & -> & Hc) | (c & d & -> & Hex)] Hcause];
        (split; [| split; [done | simpl; lia]]);
        [constructor; done | constructor; [done | constructor]].
Qed.

Lemma v1_runDebateFlow_spec claim config llm w :
  wp (runDebateFlow claim config llm) (flow_post llm config) w.
Proof.
  unfold runDebateFlow, debateStart.
  apply wp_bind, wp_bind, wp_slice_lit1.
  pose proof (make1_valid (w_heap w) {| Role := RoleUser; Content := claim |}) as Hv.
  destruct (make1 _ _) as [h0 s0] eqn:Hmk. simpl in *.
  assert (s_len s0 = 1) as Hl by (injection Hmk as _ <-; done).
  apply wp_ret. simpl.
  apply wp_bind. eapply wp_mono; [apply v1_debateLoop_spec; split; simpl; [done | lia] |].
  intros r t w1 Hr. destruct r as [st1 | e | q]; simpl in *; try done.
  destruct Hr as (rs & Hct & Hn & Hrs & _). apply wp_ret. simpl.
  rewrite Hrs, app_nil_r. done.
Qed.
End Run.
End V1Facts.

(** ** Reading a trace by position *)

Lemma v2_complete_debate llm ce t rs :
  V2.complete_trace llm ce t rs -> V2.debate_trace llm ce t.
Proof. induction 1; constructor; done. Qed.

Lemma v2_complete_length llm ce t rs :
  V2.complete_trace llm ce t rs -> length t = 2 * length rs.
Proof. induction 1; simpl; lia. Qed.

Lemma v2_complete_alternates llm ce t rs :
  V2.complete_trace llm ce t rs ->
  forall k c, t !! k = Some c ->
    if Nat.even k then V2.challengerCall llm c else V2.defenderCall llm c.
Proof.
  induction 1 as [| c d chal def rest rs Hex Hc Hd Hrest IH]; intros k x Hk.
  - done.
  - destruct Hex as (Hcc & Hdc & _).
    destruct k as [| [| k]]; simpl in Hk.
    + injection Hk as <-. done.
    + injection Hk as <-. done.
    + apply (IH k x Hk).
Qed.

Lemma v2_debate_defender llm ce t :
  V2.debate_trace llm ce t ->
  forall k d, t !! (2 * k + 1) = Some d ->
    exists c, t !! (2 * k) = Some c /\ V2.exchange llm ce c d.
Proof.
  induction 1 as [| c Hc Hsv | c d rest Hex Hrest IH]; intros k x Hk.
  - done.
  - destruct k; simpl in Hk; [done |].
    replace (k + S (k + 0) + 1) with (S (2 * k + 1)) in Hk by lia. done.
  - destruct k as [| k].
    + injection Hk as <-. exists c. done.
    + replace (2 * S k + 1) with (S (S (2 * k + 1))) in Hk by lia.
      replace (2 * S k) with (S (S (2 * k))) by lia. simpl in *.
      apply IH. done.
Qed.

Lemma v2_debate_challenger llm ce t :
  V2.debate_trace llm ce t ->
  forall k c, t !! (2 * k) = Some c ->
    V2.challengerCall llm c /\ V2.seedView ce c.
Proof.
  induction 1 as [| c Hc Hsv | c d rest Hex Hrest IH]; intros k x Hk.
  - done.
  - destruct k; simpl in Hk; [injection Hk as <-; done |].
    replace (k + S (k + 0)) with (S (2 * k)) in Hk by lia. done.
  - destruct k as [| k].
    + injection Hk as <-. destruct Hex as (Hc & _ & Hsv & _). done.
    + replace (2 * S k) with (S (S (2 * k))) in Hk by lia. simpl in *.
      apply (IH k). done.
Qed.

Lemma v1_complete_debate llm t rs :
  V1.complete_trace llm t rs -> V1.debate_trace llm t.
Proof. induction 1; constructor; done. Qed.

Lemma v1_complete_length llm t rs :
  V1.complete_trace llm t rs -> length t = 2 * length rs.
Proof. induction 1; simpl; lia. Qed.

Lemma v1_complete_alternates llm t rs :
  V1.complete_trace llm t rs ->
  forall k c, t !! k = Some c ->
    if Nat.even k then V1.challengerCall llm c else V1.defenderCall llm c.
Proof.
  induction 1 as [| c d chal def rest rs Hex Hc Hd Hrest IH]; intros k x Hk.
  - done.
  - destruct Hex as (Hcc & Hdc & _).
    destruct k as [| [| k]]; simpl in Hk.
    + injection Hk as <-. done.
    + injection Hk as <-. done.
    + apply (IH k x Hk).
Qed.

Lemma v1_debate_defender llm t :
  V1.debate_trace llm t ->
  forall k d, t !! (2 * k + 1) = Some d ->
    exists c, t !! (2 * k) = Some c /\ V1.exchange llm c d.
Proof.
  induction 1 as [| c Hc | c d rest Hex Hrest IH]; intros k x Hk.
  - done.
  - destruct k; simpl in Hk; [done |].
    replace (k + S (k + 0) + 1) with (S (2 * k + 1)) in Hk by lia. done.
  - destruct k as [| k].
    + injection Hk as <-. exists c. done.
    + replace (2 * S k + 1) with (S (S (2 * k + 1))) in Hk by lia.
      replace (2 * S k) with (S (S (2 * k))) by lia. simpl in *.
      apply IH. done.
Qed.

Lemma all_ok_last {A} (f : A -> outcome string) (t : list A) c :
  Forall (fun c => is_ok (f c) = true) t ->
  last t = Some c -> is_ok (f c) = false -> False.
Proof.
  intros Hall Hlast Hc. apply last_Some in Hlast as [t' ->].
  apply Forall_app in Hall as [_ Hall]. inversion Hall; subst. congruence.
Qed.

(** ** The debate flow, read off its trace *)

Section Flow.
Context {P : Type} `{GoRuntime P}.

Lemma v2_flow_trace {C} `{V2.LLMClient C} claim config llm (w : world C P) :
  V2.debate_trace llm {| Role := RoleUser; Content := claim |}
    (V2.runDebateFlow claim config llm w).1.2.
Proof.
  pose proof (V2Facts.v2_runDebateFlow_spec claim config llm w) as Hs.
  unfold wp, V2.flow_post in Hs.
  destruct ((V2.runDebateFlow claim config llm w).1.1); try apply Hs.
  eapply v2_complete_debate, Hs.
Qed.

Lemma v1_flow_trace {C} `{V1.LLMClient C} claim config llm (w : world C P) :
  V1.debate_trace llm (V1.runDebateFlow claim config llm w).1.2.
Proof.
  pose proof (V1Facts.v1_runDebateFlow_spec claim config llm w) as Hs.
  unfold wp, V1.flow_post in Hs.
  destruct ((V1.runDebateFlow claim config llm w).1.1); try apply Hs.
  eapply v1_complete_debate, Hs.
Qed.

Lemma v2_flow_complete {C} `{V2.LLMClient C} claim config llm (w : world C P) :
  (forall (p : P) text, (Stdout p text).1 = None) ->
  Forall (fun c => is_ok (V2.c_reply c) = true)
         (V2.runDebateFlow claim config llm w).1.2 ->
  exists rs,
    (V2.runDebateFlow claim config llm w).1.1 = Ok rs /\
    V2.complete_trace llm {| Role := RoleUser; Content := claim |}
      (V2.runDebateFlow claim config llm w).1.2 rs /\
    length rs = Z.to_nat (Rounds config).
Proof.
  intros Hout Hall.
  pose proof (V2Facts.v2_runDebateFlow_spec claim config llm w) as Hs.
  unfold wp, V2.flow_post in Hs.
  destruct ((V2.runDebateFlow claim config llm w).1.1) as [rs | e | p].
  - exists rs. done.
  - destruct Hs as (_ & [(c & Hl & Hc) | (p & text & e' & Hf)] & _).
    + destruct (all_ok_last _ _ _ Hall Hl Hc).
    + rewrite Hout in Hf. done.
  - destruct Hs as (_ & [(c & Hl & Hc) | (p' & text & e' & Hf)] & _).
    + destruct (all_ok_last _ _ _ Hall Hl Hc).
    + rewrite Hout in Hf. done.
Qed.

Lemma v1_flow_complete {C} `{V1.LLMClient C} claim config llm (w : world C P) :
  Forall (fun c => is_ok (V1.c_reply c) = true)
         (V1.runDebateFlow claim config llm w).1.2 ->
  exists rs,
    (V1.runDebateFlow claim config llm w).1.1 = Ok rs /\
    V1.complete_trace llm (V1.runDebateFlow claim config llm w).1.2 rs /\
    length rs = Z.to_nat (Rounds config).
Proof.
  intros Hall.
  pose proof (V1Facts.v1_runDebateFlow_spec claim config llm w) as Hs.
  unfold wp, V1.flow_post in Hs.
  destruct ((V1.runDebateFlow claim config llm w).1.1) as [rs | e | p].
  - exists rs. done.
  - destruct Hs as (_ & (c & Hl & Hc) & _). destruct (all_ok_last _ _ _ Hall Hl Hc).
  - destruct Hs as (_ & (c & Hl & Hc) & _). destruct (all_ok_last _ _ _ Hall Hl Hc).
Qed.
End Flow.

(** ** Following the writes of a run *)

Section Tracking.
Context {C P : Type} `{GoRuntime P}.
#[local] Existing Instance recording.
#[local] Existing Instance quiet.

Lemma tracked_silent {E A} (m : M (world C P) E A) mr mq :
  (forall w log, mr (recorded_as w log) = ((m w).1, recorded_as (m w).2 log)) ->
  (forall w, mq (quieten w) = ((m w).1, quieten (m w).2)) ->
  tracked m mr mq.
Proof.
  intros Hr Hq w log. exists []. rewrite app_nil_r. split; [apply Hr | intros _; apply Hq].
Qed.

Lemma tracked_ret {E A} (a : A) : tracked (C := C) (P := P) (E := E) (ret a) (ret a) (ret a).
Proof. apply tracked_silent; done. Qed.

Lemma tracked_fail {E A} e : tracked (C := C) (P := P) (E := E) (A := A) (fail e) (fail e) (fail e).
Proof. apply tracked_silent; done. Qed.

Lemma tracked_lift {E A} (o : outcome A) : tracked (C := C) (P := P) (E := E) (lift o) (lift o) (lift o).
Proof. apply tracked_silent; done. Qed.

Lemma tracked_bind {E A B} (m : M (world C P) E A) mr mq
      (k : A -> M (world C P) E B) kr kq :
  tracked m mr mq -> (forall a, tracked (k a) (kr a) (kq a)) ->
  tracked (bind m k) (bind mr kr) (bind mq kq).
Proof.
  intros Hm Hk w log. destruct (Hm w log) as (new1 & Hr & Hq).
  unfold bind. rewrite Hr.
  destruct (m w) as [[[a | e | p] t] w1]; simpl in *.
  - destruct (Hk a w1 (log ++ new1)) as (new2 & Hr2 & Hq2). rewrite Hr2.
    exists (new1 ++ new2).
    destruct (k a w1) as [[r t'] w2]; simpl in *.
    split; [by rewrite app_assoc |].
    intros [H1 H2]%Forall_app. rewrite (Hq H1). simpl. rewrite (Hq2 H2). done.
  - exists new1. split; [done |]. intros Hall. rewrite (Hq Hall). done.
  - exists new1. split; [done |]. intros Hall. rewrite (Hq Hall). done.
Qed.

Lemma tracked_wrapErr {E A} prefix (m : M (world C P) E A) mr mq :
  tracked m mr mq -> tracked (wrapErr prefix m) (wrapErr prefix mr) (wrapErr prefix mq).
Proof.
  intros Hm w log. destruct (Hm w log) as (new & Hr & Hq).
  exists new. unfold wrapErr. rewrite Hr.
  destruct (m w) as [[[a | e | p] t] w1]; simpl in *;
    (split; [done |]); intros Hall; rewrite (Hq Hall); done.
Qed.

Lemma tracked_on_heap {E A} (f : heap Message -> heap Message * A) :
  tracked (C := C) (P := P) (E := E) (on_heap f) (on_heap f) (on_heap f).
Proof.
  apply tracked_silent; intros; unfold on_heap; simpl; destruct (f (w_heap w)); done.
Qed.

Lemma tracked_slice_append {E} s vs :
  tracked (C := C) (P := P) (E := E) (slice_append s vs) (slice_append s vs) (slice_append s vs).
Proof.
  apply tracked_silent; intros; unfold slice_append, on_heap, append; simpl;
    case_bool_decide; done.
Qed.

Lemma tracked_slice_set {E} s i v :
  tracked (C := C) (P := P) (E := E) (slice_set s i v) (slice_set s i v) (slice_set s i v).
Proof.
  apply tracked_silent; intros; unfold slice_set; simpl;
    destruct (index_set (w_heap w) s i v); done.
Qed.

Lemma tracked_slice_read {E} s :
  tracked (C := C) (P := P) (E := E) (slice_read s) (slice_read s) (slice_read s).
Proof. apply tracked_silent; done. Qed.

Lemma tracked_now {E} : tracked (C := C) (P := P) (E := E) now now now.
Proof.
  apply tracked_silent; intros; unfold now, on_proc; simpl;
    destruct (Now (w_proc w)); done.
Qed.

Lemma tracked_printf {E} text : tracked (C := C) (P := P) (E := E) (printf text) (printf text) (printf text).
Proof.
  intros w log. exists [(text, (Stdout (w_proc w) text).1)].
  unfold printf, bind, on_proc, fail, ret. simpl.
  destruct (Stdout (w_proc w) text) as [[e |] p]; simpl.
  - split; [done |]. intros Hall. inversion Hall as [| ? ? Hw]; subst. done.
  - split; [done |]. intros _. done.
Qed.
End Tracking.

Section TrackingV2.
Context {C P : Type} `{V2.LLMClient C} `{GoRuntime P}.
#[local] Existing Instance recording.
#[local] Existing Instance quiet.

Lemma v2_tracked_generate model system prompt view :
  tracked (C := C) (P := P) (V2.generate model system prompt view)
          (V2.generate model system prompt view)
          (V2.generate model system prompt view).
Proof.
  apply tracked_silent; intros; unfold V2.generate; simpl;
    destruct (V2.Generate (w_client w) model system prompt); done.
Qed.

Lemma v2_tracked_logDebate text :
  tracked (C := C) (P := P) (V2.logDebate text) (V2.logDebate text) (V2.logDebate text).
Proof.
  unfold V2.logDebate. apply tracked_bind; [apply tracked_now |].
  intros t. apply (tracked_printf (nl +:+ " Logged on: " +:+ @TimeString P _ t +:+ nl +:+ text +:+ nl)).
Qed.

Lemma v2_tracked_runSingleRound model prompt history :
  tracked (C := C) (P := P) (V2.runSingleRound model prompt history)
          (V2.runSingleRound model prompt history)
          (V2.runSingleRound model prompt history).
Proof.
  unfold V2.runSingleRound. apply tracked_bind; [apply tracked_slice_read |].
  intros view. apply v2_tracked_generate.
Qed.

Lemma v2_tracked_roundView history seed :
  tracked (C := C) (P := P) (V2.roundView history seed) (V2.roundView history seed)
          (V2.roundView history seed).
Proof.
  unfold V2.roundView, V2.trimmedView.
  apply tracked_bind; [apply tracked_lift |]. intros temp.
  apply tracked_bind; [apply tracked_slice_set |]. intros _. apply tracked_ret.
Qed.

Lemma v2_tracked_roundBody llm seed st :
  tracked (C := C) (P := P) (V2.roundBody llm seed st) (V2.roundBody llm seed st)
          (V2.roundBody llm seed st).
Proof.
  unfold V2.roundBody.
  apply tracked_bind; [apply v2_tracked_roundView |]. intros temp.
  apply tracked_bind; [apply tracked_wrapErr, v2_tracked_runSingleRound |]. intros chal.
  apply tracked_bind; [apply tracked_slice_append |]. intros temp1.
  apply tracked_bind; [apply tracked_wrapErr, v2_tracked_logDebate |]. intros _.
  apply tracked_bind; [apply tracked_wrapErr, v2_tracked_runSingleRound |]. intros def.
  apply tracked_bind; [apply tracked_slice_append |]. intros temp2.
  apply tracked_bind; [apply tracked_wrapErr, v2_tracked_logDebate |]. intros _.
  apply tracked_bind; [apply tracked_slice_append |]. intros history'.
  apply tracked_ret.
Qed.

Lemma v2_tracked_debateLoop llm seed n : forall st,
  tracked (C := C) (P := P) (V2.debateLoop llm seed n st) (V2.debateLoop llm seed n st)
          (V2.debateLoop llm seed n st).
Proof.
  induction n as [| n IH]; intros st; simpl; [apply tracked_ret |].
  apply tracked_bind; [apply v2_tracked_roundBody | apply IH].
Qed.

Lemma v2_tracked_runDebateFlow claim config llm :
  tracked (C := C) (P := P) (V2.runDebateFlow claim config llm) (V2.runDebateFlow claim config llm)
          (V2.runDebateFlow claim config llm).
Proof.
  unfold V2.runDebateFlow, V2.debateStart.
  apply tracked_bind.
  { apply tracked_bind; [apply tracked_on_heap |]. intros history.
    apply tracked_bind; [apply v2_tracked_logDebate |]. intros _. apply tracked_ret. }
  intros st. apply tracked_bind; [apply v2_tracked_debateLoop |].
  intros st'. apply tracked_ret.
Qed.

(** Noting the writes down changes nothing of the run: same result, same
    calls, same client, heap and process at the end. *)
Lemma v2_recording_changes_nothing claim config llm (w : world C P) :
  v2_recorded_run claim config llm w =
    ((V2.runDebateFlow claim config llm w).1,
     recorded_as (V2.runDebateFlow claim config llm w).2
       (v2_writes claim config llm w)).
Proof.
  unfold v2_writes, v2_recorded_run, record.
  destruct (v2_tracked_runDebateFlow claim config llm w []) as (new & Hr & _).
  rewrite Hr. done.
Qed.

(** When every write of the run succeeds, the run is the one of the
    runtime in which no write fails. *)
Lemma v2_run_when_written claim config llm (w : world C P) :
  Forall written (v2_writes claim config llm w) ->
  V2.runDebateFlow claim config llm (quieten w) =
    ((V2.runDebateFlow claim config llm w).1,
     quieten (V2.runDebateFlow claim config llm w).2).
Proof.
  unfold v2_writes, v2_recorded_run, record.
  destruct (v2_tracked_runDebateFlow claim config llm w []) as (new & Hr & Hq).
  rewrite Hr. simpl. exact Hq.
Qed.

Lemma quiet_never_fails (p : quieted P) text : (Stdout p text).1 = None.
Proof. done. Qed.

(** A run all of whose calls and writes succeed completes. *)
Lemma v2_flow_complete_written claim config llm (w : world C P) :
  Forall written (v2_writes claim config llm w) ->
  Forall (fun c => is_ok (V2.c_reply c) = true)
         (V2.runDebateFlow claim config llm w).1.2 ->
  exists rs,
    (V2.runDebateFlow claim config llm w).1.1 = Ok rs /\
    V2.complete_trace llm {| Role := RoleUser; Content := claim |}
      (V2.runDebateFlow claim config llm w).1.2 rs /\
    length rs = Z.to_nat (Rounds config).
Proof.
  intros Hw Hall. pose proof (v2_run_when_written claim config llm w Hw) as Hq.
  destruct (v2_flow_complete claim config llm (quieten w) quiet_never_fails)
    as (rs & Hr & Hct & Hn).
  { rewrite Hq. exact Hall. }
  rewrite Hq in Hr, Hct. exists rs. done.
Qed.
End TrackingV2.

(** The writes of a run of one round with the client of the tests: the
    opening line and one line per turn, each under its time stamp. *)
Example v2_writes_of_one_round :
  v2_writes "the claim" (config0 1) llm0 start2 =
    [(nl +:+ " Logged on: 0" +:+ nl +:+
      "Starting debate with claim: the claim" +:+ nl +:+ nl, None);
     (nl +:+ " Logged on: 10000000000" +:+ nl +:+
      "Challenger responded: chal" +:+ nl, None);
     (nl +:+ " Logged on: 20000000000" +:+ nl +:+
      "Defender responded: def" +:+ nl, None)].
Proof. vm_compute. reflexivity. Qed.

(** With standard output closed, the run makes one write, which fails. *)
Example v2_writes_when_stdout_is_closed :
  v2_writes "the claim" (config0 2) llm0
    {| w_client := ([] : list (string * string * string));
       w_proc := {| inner := proc0 |}; w_heap := [] |} =
    [(nl +:+ " Logged on: 0" +:+ nl +:+
      "Starting debate with claim: the claim" +:+ nl +:+ nl,
      Some "write /dev/stdout: bad file descriptor")].
Proof. vm_compute. reflexivity. Qed.

(** ** Strings *)

Lemma append_cons a (s t : string) : String a s +:+ t = String a (s +:+ t).
Proof. reflexivity. Qed.

Lemma append_nil_l (s : string) : "" +:+ s = s.
Proof. reflexivity. Qed.

Lemma append_nil_r (s : string) : s +:+ "" = s.
Proof. induction s as [| a s IH]; [done | by rewrite append_cons, IH]. Qed.

Lemma append_assoc (s1 s2 s3 : string) : (s1 +:+ s2) +:+ s3 = s1 +:+ (s2 +:+ s3).
Proof. induction s1 as [| a s1 IH]; [done | by rewrite !append_cons, IH]. Qed.

Lemma render_from_app acc view :
  render_from acc view = acc +:+ render_from "" view.
Proof.
  unfold render_from. revert acc.
  induction view as [| m view IH]; intros acc; simpl.
  - by rewrite append_nil_r.
  - rewrite IH. rewrite (IH ("" +:+ _)). by rewrite append_nil_l, append_assoc.
Qed.

Lemma summary_text_blocks debate : forall i acc,
  summary_text i debate acc = acc +:+ joined (roundBlocks i debate).
Proof.
  induction debate as [| r rest IH]; intros i acc; simpl.
  - by rewrite append_nil_r.
  - rewrite IH. unfold joined, roundBlock, roundHeader. simpl.
    by rewrite !append_assoc.
Qed.

Lemma roundBlocks_lookup debate : forall i k block,
  roundBlocks i debate !! k = Some block ->
  exists r, debate !! k = Some r /\ block = roundBlock (i + Z.of_nat k + 1) r.
Proof.
  induction debate as [| r rest IH]; intros i k block Hk; [done |].
  destruct k as [| k]; simpl in Hk.
  - injection Hk as <-. exists r. split; [done |]. f_equal. lia.
  - destruct (IH _ _ _ Hk) as (r' & Hr & ->). exists r'. split; [done |].
    f_equal. lia.
Qed.

Lemma roundBlocks_length debate : forall i,
  length (roundBlocks i debate) = length debate.
Proof. induction debate; intros i; simpl; [done | by rewrite IHdebate]. Qed.

Lemma make1_list {A} (h : heap A) (v : A) :
  slice_list (make1 h v).1 (make1 h v).2 = [v].
Proof. unfold slice_list, make1; simpl. by rewrite backing_app_new. Qed.

(** ** The Ollama wrappers *)

Section OllamaFacts.
Context {A : Type} `{OllamaAPI A}.

Lemma v2_ollama_cases (o : A) model system prompt :
  let fragments := (api_Generate o (V2.generateRequest model system prompt)).1.1 in
  let err := (api_Generate o (V2.generateRequest model system prompt)).1.2 in
  (V2.GenerateWithChannel o model system prompt).1.1 =
  match err with
  | Some e => Err e
  | None => if bool_decide (assemble fragments = "") then Err "empty response"
            else Ok (assemble fragments)
  end.
Proof.
  unfold V2.GenerateWithChannel.
  destruct (api_Generate o _) as [[fragments [e |]] o']; simpl; [done |].
  case_bool_decide; done.
Qed.

Lemma v2_ollama_generate (o : A) model system prompt :
  (V2.OllamaGenerate o model system prompt).1 =
  (V2.GenerateWithChannel o model system prompt).1.1.
Proof.
  unfold V2.OllamaGenerate.
  destruct (V2.GenerateWithChannel o model system prompt) as [[r sent] o']. done.
Qed.

Lemma v1_ollama_cases (o : A) model prompt :
  let fragments := (api_Generate o (V1.generateRequest model prompt)).1.1 in
  let err := (api_Generate o (V1.generateRequest model prompt)).1.2 in
  (V1.OllamaGenerate o model prompt).1 =
  match err with
  | Some e => Err e
  | None => if bool_decide (assemble fragments = "") then Err "empty response"
            else Ok (assemble fragments)
  end.
Proof.
  unfold V1.OllamaGenerate.
  destruct (api_Generate o _) as [[fragments [e |]] o']; simpl; [done |].
  case_bool_decide; done.
Qed.
End OllamaFacts.

(** C7: a response whose assembled text is empty is a failure of
    [Generate]: in both variants the wrapper around the Ollama API returns
    an error whenever the fragments it received concatenate to the empty
    string (["empty response"] when the API itself reported none), and
    whatever it returns without error is a non-empty string. *)
Theorem C7_empty_response_is_failure
        (A : Type) `{OllamaAPI A} (o : A) (model system prompt : string) :
  let got2 := api_Generate o (V2.generateRequest model system prompt) in
  let got1 := api_Generate o (V1.generateRequest model prompt) in
  let r2 := (V2.Generate (LLMClient := V2.OllamaClient) o model system prompt).1 in
  let r1 := (V1.Generate (LLMClient := V1.OllamaClient) o model prompt).1 in
  (V2.GenerateWithChannel o model system prompt).1.1 = r2 /\
  r2 <> Ok "" /\ r1 <> Ok "" /\
  (assemble got2.1.1 = "" ->
   is_ok r2 = false /\ (got2.1.2 = None -> r2 = Err "empty response")) /\
  (assemble got1.1.1 = "" ->
   is_ok r1 = false /\ (got1.1.2 = None -> r1 = Err "empty response")).
Proof.
  intros got2 got1. simpl.
  rewrite v2_ollama_generate, v2_ollama_cases, v1_ollama_cases.
  fold got2 got1.
  destruct (got2.1.2) as [e2 |], (got1.1.2) as [e1 |];
    repeat case_bool_decide; repeat split; try done; congruence.
Qed.

(** ** The tests of [src/main_test.go], run on the model *)

(** [TestTrimHistory]: fifteen messages trimmed to ten. *)
Example test_TrimHistory :
  s_len <$> (match trimHistory {| s_arr := 0; s_off := 0; s_len := 15; s_cap := 16 |} 10
             with Ok s => Some s | _ => None end) = Some 10.
Proof. reflexivity. Qed.

(** [TestRunDebateFlow_Basic]: two rounds, four calls, Challenger first,
    the third prompt holding the first round, every prompt starting with
    the claim. *)
Example test_RunDebateFlow_Basic :
  let run := V2.runDebateFlow "the claim" (config0 2) llm0 start2 in
  run.1.1 = Ok [{| Challenger := "chal"; Defender := "def" |};
                {| Challenger := "chal"; Defender := "def" |}] /\
  map (fun c => (c.1.1, c.1.2)) (w_client run.2) =
    [("mC", "challenger" +:+ nl +:+ "CP"); ("mD", "defender" +:+ nl +:+ "DP");
     ("mC", "challenger" +:+ nl +:+ "CP"); ("mD", "defender" +:+ nl +:+ "DP")] /\
  snd <$> w_client run.2 !! 2 =
    Some ("user: the claim" +:+ nl +:+ "challenger: chal" +:+ nl +:+
          "defender: def" +:+ nl) /\
  forallb (fun c => isPrefix ("user: the claim" +:+ nl) c.2) (w_client run.2) = true.
Proof. vm_compute. repeat split. Qed.

(** [TestSummarizeDebate_ComposesText] *)
Example test_SummarizeDebate_ComposesText :
  w_client (V2.summarizeDebate [{| Challenger := "C"; Defender := "D" |}] "m"
              start2).2 =
  [("m", summaryInstruction,
    "system: ### Round 1" +:+ nl +:+ "Challenger: C" +:+ nl +:+
    "Defender: D" +:+ nl +:+ nl +:+ nl)].
Proof. vm_compute. reflexivity. Qed.

Section SummaryFacts.
Context {P : Type} `{GoRuntime P}.

Lemma v2_summarize_trace {C} `{V2.LLMClient C} debate model (w : world C P) :
  let fullText := summary_text 0 debate "" in
  let context := [{| Role := RoleSystem; Content := fullText |}] in
  let prompt := "system: " +:+ fullText +:+ nl in
  (V2.summarizeDebate debate model w).1.2 =
    [{| V2.c_model := model; V2.c_system := summaryInstruction;
        V2.c_prompt := prompt; V2.c_view := context;
        V2.c_reply := (V2.Generate (w_client w) model summaryInstruction prompt).1 |}]
  /\ (V2.summarizeDebate debate model w).1.1 =
     (V2.Generate (w_client w) model summaryInstruction prompt).1.
Proof.
  unfold V2.summarizeDebate, V2.runSingleRound, V2.generate, slice_lit1,
    slice_read, on_heap, bind. simpl.
  pose proof (make1_list (w_heap w)
                {| Role := RoleSystem; Content := summary_text 0 debate "" |}) as Hl.
  simpl in Hl. unfold with_heap; simpl. rewrite Hl. simpl.
  destruct (V2.Generate _ _ _ _) as [[s | e | p] c]; simpl; done.
Qed.

Lemma v1_summarize_trace {C} `{V1.LLMClient C} debate model (w : world C P) :
  let fullText := summary_text 0 debate "" in
  let context := [{| Role := RoleSystem; Content := fullText |}] in
  let prompt := summaryInstruction +:+ nl +:+ "system: " +:+ fullText +:+ nl in
  (V1.summarizeDebate debate model w).1.2 =
    [{| V1.c_model := model; V1.c_prompt := prompt; V1.c_view := context;
        V1.c_reply := (V1.Generate (w_client w) model prompt).1 |}]
  /\ (V1.summarizeDebate debate model w).1.1 =
     (V1.Generate (w_client w) model prompt).1.
Proof.
  unfold V1.summarizeDebate, V1.runSingleRound, V1.generate, slice_lit1,
    slice_read, on_heap, bind. simpl.
  pose proof (make1_list (w_heap w)
                {| Role := RoleSystem; Content := summary_text 0 debate "" |}) as Hl.
  simpl in Hl. unfold with_heap; simpl. rewrite Hl. simpl.
  rewrite !append_assoc.
  destruct (V1.Generate _ _ _) as [[s | e | p] c]; simpl; done.
Qed.

(** The whole run of [summarizeDebate]: one call of the client, at the
    client the run starts with; what it returns is returned, the client it
    leaves is the client of the end; the process is not touched and the
    heap gains the one-element context. *)
Lemma v2_summarize_run {C} `{V2.LLMClient C} debate model (w : world C P) :
  let fullText := summary_text 0 debate "" in
  let context := [{| Role := RoleSystem; Content := fullText |}] in
  let prompt := "system: " +:+ fullText +:+ nl in
  let reply := V2.Generate (w_client w) model summaryInstruction prompt in
  V2.summarizeDebate debate model w =
    (reply.1,
     [{| V2.c_model := model; V2.c_system := summaryInstruction;
         V2.c_prompt := prompt; V2.c_view := context; V2.c_reply := reply.1 |}],
     with_client (with_heap w (w_heap w ++ [context])) reply.2).
Proof.
  unfold V2.summarizeDebate, V2.runSingleRound, V2.generate, slice_lit1,
    slice_read, on_heap, bind. simpl.
  pose proof (make1_list (w_heap w)
                {| Role := RoleSystem; Content := summary_text 0 debate "" |}) as Hl.
  simpl in Hl. unfold with_heap; simpl. rewrite Hl. simpl.
  destruct (V2.Generate _ _ _ _) as [[s | e | p] c]; simpl; done.
Qed.

Lemma v1_summarize_run {C} `{V1.LLMClient C} debate model (w : world C P) :
  let fullText := summary_text 0 debate "" in
  let context := [{| Role := RoleSystem; Content := fullText |}] in
  let prompt := summaryInstruction +:+ nl +:+ "system: " +:+ fullText +:+ nl in
  let reply := V1.Generate (w_client w) model prompt in
  V1.summarizeDebate debate model w =
    (reply.1,
     [{| V1.c_model := model; V1.c_prompt := prompt; V1.c_view := context;
         V1.c_reply := reply.1 |}],
     with_client (with_heap w (w_heap w ++ [context])) reply.2).
Proof.
  unfold V1.summarizeDebate, V1.runSingleRound, V1.generate, slice_lit1,
    slice_read, on_heap, bind. simpl.
  pose proof (make1_list (w_heap w)
                {| Role := RoleSystem; Content := summary_text 0 debate "" |}) as Hl.
  simpl in Hl. unfold with_heap; simpl. rewrite Hl. simpl.
  rewrite !append_assoc.
  destruct (V1.Generate _ _ _) as [[s | e | p] c]; simpl; done.
Qed.
End SummaryFacts.

(** ** Counting the round headers of the serialized transcript *)

Lemma prefix_before_sep (x : Ascii.ascii) (b : string) : forall pat u,
  ~ In x (String.list_ascii_of_string pat) ->
  String.prefix pat (u +:+ String x b) = String.prefix pat u.
Proof.
  induction pat as [| c pat IH]; intros u Hx; [by destruct u |].
  simpl in Hx. destruct u as [| y u]; simpl.
  - destruct (Ascii.ascii_dec c x) as [-> |]; [| done]. exfalso. apply Hx. by left.
  - destruct (Ascii.ascii_dec c y); [| done]. apply IH. intros Hin. apply Hx. by right.
Qed.

(** A text that does not contain the character [x] does not start across an
    [x]: the count splits there. *)
Lemma occurrences_sep (pat : string) (x : Ascii.ascii) (b : string) : forall a,
  pat <> "" -> ~ In x (String.list_ascii_of_string pat) ->
  occurrences pat (a +:+ String x b) = occurrences pat a + occurrences pat b.
Proof.
  intros a Hne Hx. induction a as [| y a IH].
  - change ("" +:+ String x b) with (String x b).
    cbn [occurrences]. destruct pat as [| c pat]; [done |].
    cbn [String.prefix]. destruct (Ascii.ascii_dec c x) as [-> |]; [| done].
    exfalso. apply Hx. by left.
  - change (String y a +:+ String x b) with (String y (a +:+ String x b)).
    cbn [occurrences]. rewrite IH.
    change (String y (a +:+ String x b)) with (String y a +:+ String x b).
    rewrite (prefix_before_sep x b pat (String y a) Hx). lia.
Qed.

(** No text starts inside a text that does not contain its first
    character. *)
Lemma occurrences_skip (c : Ascii.ascii) (pat : string) (s : string) : forall u,
  ~ In c (String.list_ascii_of_string u) ->
  occurrences (String c pat) (u +:+ s) = occurrences (String c pat) s.
Proof.
  induction u as [| y u IH]; intros Hc; [done |].
  change (String y u +:+ s) with (String y (u +:+ s)).
  cbn [occurrences String.prefix]. simpl in Hc.
  destruct (Ascii.ascii_dec c y) as [-> |].
  - exfalso. apply Hc. by left.
  - rewrite IH; [done |]. intros Hin. apply Hc. by right.
Qed.

Lemma string_of_uint_digits (d : Decimal.uint) :
  ~ In (Ascii.ascii_of_nat 35)
       (String.list_ascii_of_string (NilEmpty.string_of_uint d)).
Proof.
  induction d as [| d IH | d IH | d IH | d IH | d IH | d IH | d IH | d IH | d IH | d IH];
    cbn [NilEmpty.string_of_uint String.list_ascii_of_string In];
    [tauto | ..]; intros [Hd | Hin]; (discriminate Hd || exact (IH Hin)).
Qed.

Lemma string_of_uint0_digits (d : Decimal.uint) :
  ~ In (Ascii.ascii_of_nat 35)
       (String.list_ascii_of_string (NilZero.string_of_uint d)).
Proof.
  destruct d; try apply string_of_uint_digits.
  simpl. intros [Hd | []]. discriminate Hd.
Qed.

Lemma fmt_d_digits (k : Z) : ~ In (Ascii.ascii_of_nat 35) (String.list_ascii_of_string (fmt_d k)).
Proof.
  unfold fmt_d, NilZero.string_of_int.
  destruct (Z.to_int k) as [d | d]; [apply string_of_uint0_digits |].
  cbn [String.list_ascii_of_string In].
  intros [Hd | Hin]; [discriminate Hd |]. by apply string_of_uint0_digits in Hin.
Qed.

Lemma headerText_no_newline :
  ~ In (Ascii.ascii_of_nat 10) (String.list_ascii_of_string "### Round ").
Proof. simpl. intros H. repeat destruct H as [H | H]; try discriminate; done. Qed.

(** The header of a block is one occurrence of the header text. *)
Lemma occurrences_roundHeader (k : Z) :
  occurrences "### Round " (roundHeader k) = 1.
Proof.
  pose proof (occurrences_skip (Ascii.ascii_of_nat 35) "## Round " ""
                (fmt_d k) (fmt_d_digits k)) as Hd.
  rewrite append_nil_r in Hd. change (String _ "## Round ") with "### Round " in Hd.
  unfold roundHeader. generalize dependent (fmt_d k). intros d Hd.
  rewrite !append_cons, append_nil_l. cbn.
  rewrite Hd. by destruct d.
Qed.

Lemma occurrences_nl (a b : string) :
  occurrences "### Round " (a +:+ nl +:+ b) =
    occurrences "### Round " a + occurrences "### Round " b.
Proof.
  unfold nl. rewrite append_cons, append_nil_l.
  apply occurrences_sep; [done | apply headerText_no_newline].
Qed.

Lemma occurrences_label (label s : string) :
  ~ In (Ascii.ascii_of_nat 35) (String.list_ascii_of_string label) ->
  occurrences "### Round " (label +:+ s) = occurrences "### Round " s.
Proof. apply (occurrences_skip (Ascii.ascii_of_nat 35) "## Round "). Qed.

Lemma occurrences_roundBlock (k : Z) (r : DebateRound) (rest : string) :
  occurrences "### Round " (roundBlock k r +:+ rest) =
    1 + occurrences "### Round " (Challenger r)
      + occurrences "### Round " (Defender r)
      + occurrences "### Round " rest.
Proof.
  unfold roundBlock. rewrite !append_assoc.
  rewrite (occurrences_nl (roundHeader k)), occurrences_roundHeader.
  rewrite (occurrences_label "Challenger: ").
  2: { simpl. intros H. repeat destruct H as [H | H]; try discriminate; done. }
  rewrite (occurrences_nl (Challenger r)).
  rewrite (occurrences_label "Defender: ").
  2: { simpl. intros H. repeat destruct H as [H | H]; try discriminate; done. }
  rewrite (occurrences_nl (Defender r)).
  rewrite <- (append_nil_l (nl +:+ rest)), (occurrences_nl "" rest).
  simpl. lia.
Qed.

(** The header text occurs once for each round, and once more for each
    time a round's own text contains it. *)
Lemma occurrences_roundBlocks (debate : list DebateRound) : forall k,
  occurrences "### Round " (joined (roundBlocks k debate)) =
    length debate +
    sum_list ((fun r => occurrences "### Round " (Challenger r)
                        + occurrences "### Round " (Defender r)) <$> debate).
Proof.
  induction debate as [| r rest IH]; intros k; [done |].
  cbn [roundBlocks joined foldr fmap list_fmap sum_list sum_list_with length].
  fold (joined (roundBlocks (k + 1) rest)).
  rewrite occurrences_roundBlock, IH. simpl. lia.
Qed.

(** C9, as the code has it: the Summarizer serializes a transcript of N
    rounds into one text that is the concatenation of exactly N blocks, in
    the order of the transcript, the k-th (counting from 1) being the
    header ["### Round k"], the challenger line, the defender line and a
    blank line, for the k-th round; the header text ["### Round "] occurs in
    that text N times plus the number of times the rounds' own texts
    contain it (so exactly N times only when no round's text contains it);
    and the run is one generation call over that text, made at the client
    the run starts with: its result is the result of the run, the client it
    leaves is the client of the end, and nothing else changes but the heap,
    which gains the one-message context. *)
Theorem C9_summary_serializes_all_rounds
        (P C1 C2 : Type) `{GoRuntime P} `{V1.LLMClient C1} `{V2.LLMClient C2}
        (debate : list DebateRound) (model : string)
        (w1 : world C1 P) (w2 : world C2 P) :
  let fullText := summary_text 0 debate "" in
  let blocks := roundBlocks 0 debate in
  let context := [{| Role := RoleSystem; Content := fullText |}] in
  let prompt2 := "system: " +:+ fullText +:+ nl in
  let prompt1 := summaryInstruction +:+ nl +:+ "system: " +:+ fullText +:+ nl in
  let reply2 := V2.Generate (w_client w2) model summaryInstruction prompt2 in
  let reply1 := V1.Generate (w_client w1) model prompt1 in
  fullText = joined blocks /\
  length blocks = length debate /\
  (forall k block, blocks !! k = Some block ->
     exists r, debate !! k = Some r /\ block = roundBlock (Z.of_nat k + 1) r) /\
  occurrences "### Round " fullText =
    length debate +
    sum_list ((fun r => occurrences "### Round " (Challenger r)
                        + occurrences "### Round " (Defender r)) <$> debate) /\
  V2.summarizeDebate debate model w2 =
    (reply2.1,
     [{| V2.c_model := model; V2.c_system := summaryInstruction;
         V2.c_prompt := prompt2; V2.c_view := context; V2.c_reply := reply2.1 |}],
     with_client (with_heap w2 (w_heap w2 ++ [context])) reply2.2) /\
  V1.summarizeDebate debate model w1 =
    (reply1.1,
     [{| V1.c_model := model; V1.c_prompt := prompt1; V1.c_view := context;
         V1.c_reply := reply1.1 |}],
     with_client (with_heap w1 (w_heap w1 ++ [context])) reply1.2).
Proof.
  intros fullText blocks context prompt2 prompt1 reply2 reply1.
  split; [apply summary_text_blocks |].
  split; [apply roundBlocks_length |].
  split.
  { intros k block Hk.
    destruct (roundBlocks_lookup _ _ _ _ Hk) as (r & Hr & ->). exists r. done. }
  split.
  { subst fullText. rewrite summary_text_blocks, append_nil_l.
    apply occurrences_roundBlocks. }
  split; [apply v2_summarize_run | apply v1_summarize_run].
Qed.

(** C9 as stated fails: the serialized text of a transcript of one round
    whose defender text itself holds a header line contains the header text
    twice, and is, character for character, the serialized text of a
    transcript of two rounds; the generation call gets the same prompt for
    both. *)
Lemma C9_header_text_inside_a_round :
  let one := [{| Challenger := "a";
                 Defender := "b" +:+ nl +:+ nl +:+ "### Round 2" +:+ nl +:+
                             "Challenger: c" +:+ nl +:+ "Defender: d" |}] in
  let two := [{| Challenger := "a"; Defender := "b" |};
              {| Challenger := "c"; Defender := "d" |}] in
  length one = 1 /\
  occurrences "### Round " (summary_text 0 one "") = 2 /\
  summary_text 0 one "" = summary_text 0 two "" /\
  V2.c_prompt <$> (V2.summarizeDebate one "m" start2).1.2 =
    V2.c_prompt <$> (V2.summarizeDebate two "m" start2).1.2 /\
  V1.c_prompt <$> (V1.summarizeDebate one "m" start1).1.2 =
    V1.c_prompt <$> (V1.summarizeDebate two "m" start1).1.2.
Proof. vm_compute. repeat split. Qed.

(** C5 (as amended): in every round the Defender is invoked over the
    Challenger's view of that round extended by the just-appended
    Challenger turn; the view is not trimmed again.  Its context therefore
    ends with the current round's Challenger turn and may hold one turn
    more than the window: at most [MaxHistory + 2] turns in
    [src/unnamed/part_000] (seed, [MaxHistory] turns, the new one) and
    [MaxHistory + 1] in [src/main.go].  This holds of every run, complete or
    aborted, whatever the client answers. *)
Theorem C5_defender_sees_challenger_turn
        (P C1 C2 : Type) `{GoRuntime P} `{V1.LLMClient C1} `{V2.LLMClient C2}
        (claim : string) (config : DebateConfig) (llm : LLMConfig)
        (w1 : world C1 P) (w2 : world C2 P) (k : nat) :
  let t2 := (V2.runDebateFlow claim config llm w2).1.2 in
  let t1 := (V1.runDebateFlow claim config llm w1).1.2 in
  (forall d, t2 !! (2 * k + 1) = Some d ->
     exists c chal,
       t2 !! (2 * k) = Some c /\
       V2.challengerCall llm c /\ V2.defenderCall llm d /\
       V2.c_reply c = Ok chal /\
       V2.c_view d = V2.c_view c ++ [{| Role := RoleChallenger; Content := chal |}] /\
       last (V2.c_view d) = Some {| Role := RoleChallenger; Content := chal |} /\
       (Z.of_nat (length (V2.c_view d)) <= V2.MaxHistory + 2)%Z) /\
  (forall d, t1 !! (2 * k + 1) = Some d ->
     exists c chal,
       t1 !! (2 * k) = Some c /\
       V1.challengerCall llm c /\ V1.defenderCall llm d /\
       V1.c_reply c = Ok chal /\
       V1.c_view d = V1.c_view c ++ [{| Role := RoleChallenger; Content := chal |}] /\
       last (V1.c_view d) = Some {| Role := RoleChallenger; Content := chal |} /\
       (Z.of_nat (length (V1.c_view d)) <= V1.MaxHistory + 1)%Z).
Proof.
  intros t2 t1. split; intros d Hd.
  - destruct (v2_debate_defender _ _ _ (v2_flow_trace claim config llm w2) k d Hd)
      as (c & Hc & Hcc & Hdc & [_ Hlen] & chal & Hr & Hv).
    exists c, chal. repeat split; try done; try apply Hcc; try apply Hdc.
    + rewrite Hv. apply last_snoc.
    + rewrite Hv, length_app. simpl. lia.
  - destruct (v1_debate_defender _ _ (v1_flow_trace claim config llm w1) k d Hd)
      as (c & Hc & Hcc & Hdc & Hlen & chal & Hr & Hv).
    exists c, chal. repeat split; try done; try apply Hcc; try apply Hdc.
    + rewrite Hv. apply last_snoc.
    + rewrite Hv, length_app. simpl. lia.
Qed.

(** The theorem at round 1 of the run of [TestRunDebateFlow_Basic]. *)
Lemma C5_defender_of_round_one :
  let seed := {| Role := RoleUser; Content := "the claim" |} in
  let turn := {| Role := RoleChallenger; Content := "chal" |} in
  let t := (V2.runDebateFlow "the claim" (config0 2) llm0 start2).1.2 in
  exists c chal,
    t !! 0 = Some c /\
    V2.c_reply c = Ok chal /\
    [seed; turn] = V2.c_view c ++ [{| Role := RoleChallenger; Content := chal |}].
Proof.
  intros seed turn t.
  destruct (C5_defender_sees_challenger_turn proc _ _ "the claim" (config0 2)
              llm0 start1 start2 0) as [H2 _].
  destruct (H2 {| V2.c_model := "mD"; V2.c_system := "defender" +:+ nl +:+ "DP";
                  V2.c_prompt := "user: the claim" +:+ nl +:+
                                 "challenger: chal" +:+ nl;
                  V2.c_view := [seed; turn]; V2.c_reply := Ok "def" |})
    as (c & chal & Hc & _ & _ & Hr & Hv & _).
  - vm_compute. reflexivity.
  - exists c, chal. exact (conj Hc (conj Hr Hv)).
Defined.

(** C5 fails as stated: with the client of the tests, the Defender of round
    51 of [src/unnamed/part_000] is called with 102 turns, one more than the
    seed and the [MaxHistory = 100] most recent turns. *)
Lemma C5_defender_context_exceeds_window :
  let t := (V2.runDebateFlow "the claim" (Fake.config0 51) Fake.llm0
              Fake.start2).1.2 in
  (fun d => (V2.c_system d, length (V2.c_view d))) <$> t !! 101 =
    Some ("defender" +:+ nl +:+ "DP", 102) /\
  Z.to_nat (V2.MaxHistory + 1) = 101.
Proof. vm_compute. split; reflexivity. Qed.

(** C6 (as amended): for a configuration with [roundCount = N], when every
    generation call succeeds and, in the variant that logs each turn
    ([src/unnamed/part_000]), every write to standard output made in the
    run succeeds, the Debate Loop issues exactly [2N] generation calls, the
    calls at even positions being Challenger calls and those at odd
    positions Defender calls, and returns exactly [N] rounds.  The writes of
    the run are those noted down by the recording runtime, which changes
    nothing else of the run.  [src/main.go] does not log, and needs no
    assumption on standard output. *)
Theorem C6_two_calls_per_round
        (P C1 C2 : Type) `{GoRuntime P} `{V1.LLMClient C1} `{V2.LLMClient C2}
        (claim : string) (config : DebateConfig) (llm : LLMConfig)
        (w1 : world C1 P) (w2 : world C2 P) (N : nat) :
  Rounds config = Z.of_nat N ->
  let run1 := V1.runDebateFlow claim config llm w1 in
  let run2 := V2.runDebateFlow claim config llm w2 in
  (Forall (fun c => is_ok (V1.c_reply c) = true) run1.1.2 ->
   exists rs, run1.1.1 = Ok rs /\ length rs = N /\
              length run1.1.2 = 2 * N /\
              forall k c, run1.1.2 !! k = Some c ->
                if Nat.even k then V1.challengerCall llm c
                else V1.defenderCall llm c) /\
  (Forall written (v2_writes claim config llm w2) ->
   Forall (fun c => is_ok (V2.c_reply c) = true) run2.1.2 ->
   exists rs, run2.1.1 = Ok rs /\ length rs = N /\
              length run2.1.2 = 2 * N /\
              forall k c, run2.1.2 !! k = Some c ->
                if Nat.even k then V2.challengerCall llm c
                else V2.defenderCall llm c) /\
  v2_recorded_run claim config llm w2 =
    (run2.1, recorded_as run2.2 (v2_writes claim config llm w2)).
Proof.
  intros HN run1 run2. split; [| split].
  - intros Hall.
    destruct (v1_flow_complete claim config llm w1 Hall) as (rs & Hr & Hct & Hn).
    exists rs. rewrite HN, Nat2Z.id in Hn.
    split; [done |]. split; [done |]. split.
    + rewrite <- Hn. eapply v1_complete_length; done.
    + eapply v1_complete_alternates; done.
  - intros Hout Hall.
    destruct (v2_flow_complete_written claim config llm w2 Hout Hall)
      as (rs & Hr & Hct & Hn).
    exists rs. rewrite HN, Nat2Z.id in Hn.
    split; [done |]. split; [done |]. split.
    + rewrite <- Hn. eapply v2_complete_length; done.
    + eapply v2_complete_alternates; done.
  - apply v2_recording_changes_nothing.
Qed.

(** The theorem at the run of [TestRunDebateFlow_Basic]: two rounds, four
    calls. *)
Lemma C6_two_rounds_four_calls :
  (exists rs, (V1.runDebateFlow "the claim" (config0 2) llm0 start1).1.1 = Ok rs /\
              length rs = 2 /\
              length (V1.runDebateFlow "the claim" (config0 2) llm0 start1).1.2 = 4) /\
  (exists rs, (V2.runDebateFlow "the claim" (config0 2) llm0 start2).1.1 = Ok rs /\
              length rs = 2 /\
              length (V2.runDebateFlow "the claim" (config0 2) llm0 start2).1.2 = 4).
Proof.
  destruct (C6_two_calls_per_round proc _ _ "the claim" (config0 2) llm0
              start1 start2 2 eq_refl) as (H1 & H2 & _).
  split.
  - destruct H1 as (rs & Hr & Hn & Hl & _).
    + vm_compute. repeat constructor.
    + exists rs. exact (conj Hr (conj Hn Hl)).
  - destruct H2 as (rs & Hr & Hn & Hl & _).
    + vm_compute. repeat constructor.
    + vm_compute. repeat constructor.
    + exists rs. exact (conj Hr (conj Hn Hl)).
Defined.

(** C6 fails as stated: when standard output is closed, the loop of
    [src/unnamed/part_000] asked for two rounds returns the error of its
    first log write without issuing any generation call, so no call has
    failed and yet there are not four of them. *)
Lemma C6_no_call_when_stdout_is_closed :
  let run := V2.runDebateFlow "the claim" (config0 2) llm0
               {| w_client := ([] : list (string * string * string));
                  w_proc := {| inner := proc0 |}; w_heap := [] |} in
  run.1.1 = Err "write /dev/stdout: bad file descriptor" /\
  run.1.2 = [] /\ Rounds (config0 2) = 2%Z.
Proof. vm_compute. repeat split. Qed.

(** ** The per-round view of [src/unnamed/part_000] *)

Lemma store_through_reslice {A} (h : heap A) s low t i v :
  reslice_from s low = Ok t ->
  store h t i v = store h s (Z.to_nat low + i) v.
Proof.
  unfold reslice_from. case_bool_decide; [| discriminate]. intros [= <-].
  unfold store; simpl. f_equal.
  replace (s_off s + Z.to_nat low + i) with (s_off s + (Z.to_nat low + i)) by lia.
  done.
Qed.

Section ViewFacts.
Context {C P : Type} `{V2.LLMClient C} `{GoRuntime P}.
Implicit Types (w : world C P).

(** What lines 212-213 do to the heap: the element of [history] at which
    the view starts is overwritten with the seed. *)
Lemma v2_trimmedView_spec (max : Z) history seed w :
  valid (w_heap w) history -> (1 <= max)%Z -> 1 <= s_len history ->
  let low := s_len history - Z.to_nat max in
  let h' := store (w_heap w) history low seed in
  exists temp,
    V2.trimmedView max history seed w = (Ok temp, [], with_heap w h') /\
    s_len temp = Nat.min (s_len history) (Z.to_nat max) /\
    slice_list h' history = <[low := seed]> (slice_list (w_heap w) history) /\
    slice_list h' temp = drop low (<[low := seed]> (slice_list (w_heap w) history)).
Proof.
  intros Hv Hmax Hlen low h'.
  assert (low < s_len history) as Hlow by (unfold low; lia).
  assert (slice_list h' history = <[low := seed]> (slice_list (w_heap w) history))
    as Hhist by (apply store_slice_list; done).
  unfold V2.trimmedView, trimHistory, bind, lift, slice_set, ret.
  case_bool_decide as Hle.
  - (* nothing to trim: the view is [history] itself *)
    assert (low = 0) as Hz by (unfold low; lia).
    exists history. unfold index_set.
    rewrite bool_decide_eq_true_2 by lia. simpl.
    change (Z.to_nat 0) with 0. fold low in h'. rewrite <- Hz. fold h'.
    split; [done |]. split; [lia |]. split; [done |].
    rewrite Hhist, Hz. done.
  - destruct (reslice_from history (Z.of_nat (s_len history) - max))
      as [temp | e | p] eqn:Hre.
    2,3: unfold reslice_from in Hre; case_bool_decide; [discriminate | lia].
    assert (Z.to_nat (Z.of_nat (s_len history) - max) = low) as Hto
        by (unfold low; lia).
    assert (s_len temp = Nat.min (s_len history) (Z.to_nat max)) as Hl.
    { unfold reslice_from in Hre. case_bool_decide; [| discriminate].
      injection Hre as <-. simpl. lia. }
    exists temp. unfold index_set.
    rewrite bool_decide_eq_true_2 by lia. simpl.
    change (Z.to_nat 0) with 0.
    rewrite (store_through_reslice _ _ _ _ _ _ Hre), Hto, Nat.add_0_r. fold h'.
    split; [done |]. split; [done |]. split; [done |].
    rewrite (reslice_list h' _ _ _ Hre), Hto, Hhist. done.
Qed.
End ViewFacts.

(** C2 on [src/unnamed/part_000]: for a stored history that starts with the
    seed and is longer than [maxLen >= 1], the view built for the generation
    calls of a round holds exactly [maxLen] turns, the seed at index 0 and
    after it the [maxLen - 1] most recent turns in their order. *)
Theorem v2_trimmed_view_keeps_seed
        (C P : Type) `{V2.LLMClient C} `{GoRuntime P}
        (maxLen : Z) (history : slice) (seed : Message) (w : world C P) :
  valid (w_heap w) history ->
  slice_list (w_heap w) history !! 0 = Some seed ->
  (1 <= maxLen < Z.of_nat (s_len history))%Z ->
  exists temp w',
    V2.trimmedView maxLen history seed w = (Ok temp, [], w') /\
    length (slice_list (w_heap w') temp) = Z.to_nat maxLen /\
    slice_list (w_heap w') temp !! 0 = Some seed /\
    drop 1 (slice_list (w_heap w') temp) =
      drop (s_len history - Z.to_nat maxLen + 1) (slice_list (w_heap w) history).
Proof.
  intros Hv Hseed [Hmax Hlong].
  destruct (v2_trimmedView_spec maxLen history seed w Hv Hmax ltac:(lia))
    as (temp & Hrun & Hl & Hhist & Hview).
  pose proof (slice_list_length _ _ Hv) as Hlen.
  set (low := s_len history - Z.to_nat maxLen) in *.
  exists temp, (with_heap w (store (w_heap w) history low seed)).
  split; [done |]. simpl. rewrite Hview.
  split; [| split].
  - rewrite length_drop, length_insert, Hlen. unfold low. lia.
  - rewrite lookup_drop, Nat.add_0_r. apply list_lookup_insert_eq. unfold low. lia.
  - rewrite drop_drop. apply list_eq. intros j.
    rewrite !lookup_drop, list_lookup_insert_ne by lia. done.
Qed.

Lemma v2_trimmed_view_keeps_seed_example :
  let seed := {| Role := RoleUser; Content := "the claim" |} in
  let turn r s := {| Role := r; Content := s |} in
  let w := {| w_client := ([] : list (string * string * string)); w_proc := proc0;
              w_heap := [[seed; turn "challenger" "c1"; turn "defender" "d1";
                          turn "challenger" "c2"]] |} in
  let history := {| s_arr := 0; s_off := 0; s_len := 4; s_cap := 4 |} in
  exists temp w',
    V2.trimmedView 2 history seed w = (Ok temp, [], w') /\
    length (slice_list (w_heap w') temp) = 2 /\
    slice_list (w_heap w') temp !! 0 = Some seed /\
    drop 1 (slice_list (w_heap w') temp) = [turn "challenger" "c2"].
Proof.
  intros seed turn w history.
  apply (v2_trimmed_view_keeps_seed _ _ 2%Z history seed w).
  - unfold valid; simpl. lia.
  - reflexivity.
  - simpl. lia.
Defined.

(** In every run of the loop of [src/unnamed/part_000], complete or aborted,
    each Challenger call is made over a view that has the seed at index 0
    and holds at most [MaxHistory + 1] turns. *)
Theorem v2_every_challenger_view_starts_with_seed
        (C P : Type) `{V2.LLMClient C} `{GoRuntime P}
        (claim : string) (config : DebateConfig) (llm : LLMConfig)
        (w : world C P) (k : nat) :
  let seed := {| Role := RoleUser; Content := claim |} in
  let t := (V2.runDebateFlow claim config llm w).1.2 in
  (forall c, t !! (2 * k) = Some c ->
     V2.challengerCall llm c /\
     V2.c_view c !! 0 = Some seed /\
     (Z.of_nat (length (V2.c_view c)) <= V2.MaxHistory + 1)%Z) /\
  (forall d, t !! (2 * k + 1) = Some d ->
     V2.defenderCall llm d /\ V2.c_view d !! 0 = Some seed).
Proof.
  intros seed t.
  pose proof (v2_flow_trace claim config llm w) as Htrace. fold seed t in Htrace.
  split.
  - intros c Hc.
    destruct (v2_debate_challenger _ _ _ Htrace k c Hc) as (Hcc & Hseed & Hlen).
    done.
  - intros d Hd.
    destruct (v2_debate_defender _ _ _ Htrace k d Hd)
      as (c & _ & _ & Hdc & [Hseed _] & chal & _ & Hv).
    split; [done |]. rewrite Hv. apply lookup_app_l_Some. done.
Qed.

(** As long as the history fits the window, building the view leaves it as
    it is. *)
Lemma v2_view_leaves_short_history
      (C P : Type) `{V2.LLMClient C} `{GoRuntime P}
      (maxLen : Z) (history : slice) (seed : Message) (w : world C P) :
  valid (w_heap w) history ->
  slice_list (w_heap w) history !! 0 = Some seed ->
  (1 <= maxLen)%Z -> (Z.of_nat (s_len history) <= maxLen)%Z ->
  slice_list (w_heap (V2.trimmedView maxLen history seed w).2) history =
  slice_list (w_heap w) history.
Proof.
  intros Hv Hseed Hmax Hshort.
  assert (1 <= s_len history) as Hlen.
  { rewrite <- (slice_list_length _ _ Hv).
    apply lookup_lt_Some in Hseed. lia. }
  destruct (v2_trimmedView_spec maxLen history seed w Hv Hmax Hlen)
    as (temp & Hrun & _ & Hhist & _).
  rewrite Hrun. simpl. rewrite Hhist.
  replace (s_len history - Z.to_nat maxLen) with 0 by lia.
  apply list_insert_id. done.
Qed.

(** C3 fails on [src/unnamed/part_000] once the history is longer than the
    window: after 51 rounds with the client of the tests the stored history
    holds 103 turns, the Defender turn of round 1 at index 2; building the
    view of round 52 puts the seed there. *)
Theorem C3_view_overwrites_stored_history :
  let claimEntry := {| Role := RoleUser; Content := "the claim" |} in
  let after51 :=
    (st <- V2.debateStart "the claim" ;; V2.debateLoop llm0 claimEntry 51 st)
      start2 in
  match after51 with
  | (Ok st, _, w) =>
      let stored := slice_list (w_heap w) (V2.history st) in
      length stored = 103 /\
      stored !! 2 = Some {| Role := RoleDefender; Content := "def" |} /\
      match V2.roundView (V2.history st) claimEntry w with
      | (Ok _, _, w') =>
          slice_list (w_heap w') (V2.history st) = <[2 := claimEntry]> stored /\
          slice_list (w_heap w') (V2.history st) !! 2 = Some claimEntry
      | _ => False
      end
  | _ => False
  end.
Proof. vm_compute. repeat split. Qed.

(** C2 fails on [src/main.go]: there the history itself is cut to its last
    [MaxHistory = 10] turns, seed included.  With the client of the tests
    the Challenger of round 6 is called with ten turns of which the first is
    the Challenger turn of round 1, and the seed is in none of them. *)
Theorem C2_seed_evicted_in_main_go :
  let seed := {| Role := RoleUser; Content := "the claim" |} in
  let t := (V1.runDebateFlow "the claim" (config0 6) llm0 start1).1.2 in
  (fun c => (length (V1.c_view c), V1.c_view c !! 0,
             bool_decide (seed ∈ V1.c_view c))) <$> t !! 10 =
  Some (10, Some {| Role := RoleChallenger; Content := "ok" |}, false).
Proof. vm_compute. reflexivity. Qed.

(** ** The Turn Executor *)

(** C8 on [src/unnamed/part_000]: [runSingleRound] makes exactly one call
    of [Generate], handing it the role instruction as [system] and the
    rendered context as [prompt]; the prompt is the transcript alone,
    whatever the instruction. *)
Theorem v2_instruction_and_transcript_are_separate
        (C P : Type) `{V2.LLMClient C} `{GoRuntime P}
        (model instruction : string) (history : slice) (w : world C P) :
  let transcript := render_from "" (slice_list (w_heap w) history) in
  let run := V2.runSingleRound model instruction history w in
  let reply := V2.Generate (w_client w) model instruction transcript in
  run.1.1 = reply.1 /\ run.2 = with_client w reply.2 /\
  exists c, run.1.2 = [c] /\ V2.c_model c = model /\
            V2.c_system c = instruction /\ V2.c_prompt c = transcript.
Proof.
  intros transcript run reply. subst run reply.
  unfold V2.runSingleRound, V2.generate, slice_read, bind. simpl.
  fold transcript.
  destruct (V2.Generate (w_client w) model instruction transcript)
    as [[s | e | p] c]; simpl; (split; [done |]); (split; [done |]);
    eexists; (split; [reflexivity |]); done.
Qed.

(** In [src/main.go] the one string handed to [Generate] is the instruction,
    a newline and the transcript. *)
Lemma v1_single_prompt_string
      (C P : Type) `{V1.LLMClient C} `{GoRuntime P}
      (model instruction role : string) (history : slice) (w : world C P) :
  let transcript := render_from "" (slice_list (w_heap w) history) in
  let run := V1.runSingleRound model instruction history role w in
  let reply := V1.Generate (w_client w) model (instruction +:+ nl +:+ transcript) in
  run.1.1 = reply.1 /\ run.2 = with_client w reply.2.
Proof.
  intros transcript run reply. subst run reply transcript.
  unfold V1.runSingleRound, V1.generate, slice_read, bind. simpl.
  rewrite render_from_app, append_assoc.
  destruct (V1.Generate _ _ _) as [[s | e | p] c]; simpl; done.
Qed.

(** C8 fails on [src/main.go]: on the input of
    [TestRunSingleRound_AssemblesPromptAndUsesParams] the client receives
    the model and one string in which the instruction ["sys-y"] is followed
    by the transcript. *)
Theorem C8_main_go_concatenates_instruction_and_transcript :
  let history := {| s_arr := 0; s_off := 0; s_len := 2; s_cap := 2 |} in
  let w := {| w_client := ([] : list (string * string)); w_proc := proc0;
              w_heap := [[{| Role := RoleUser; Content := "claim" |};
                          {| Role := RoleChallenger; Content := "c1" |}]] |} in
  w_client (V1.runSingleRound "model-x" "sys-y" history RoleChallenger w).2 =
    [("model-x",
      "sys-y" +:+ nl +:+ "user: claim" +:+ nl +:+ "challenger: c1" +:+ nl)].
Proof. vm_compute. reflexivity. Qed.

(** The same input on [src/unnamed/part_000], as the test expects it. *)
Example v2_test_run_single_round :
  let history := {| s_arr := 0; s_off := 0; s_len := 2; s_cap := 2 |} in
  let w := {| w_client := ([] : list (string * string * string)); w_proc := proc0;
              w_heap := [[{| Role := RoleUser; Content := "claim" |};
                          {| Role := RoleChallenger; Content := "c1" |}]] |} in
  w_client (V2.runSingleRound "model-x" "sys-y" history w).2 =
    [("model-x", "sys-y", "user: claim" +:+ nl +:+ "challenger: c1" +:+ nl)].
Proof. vm_compute. reflexivity. Qed.

(** ** The Round Estimator *)

Section EstimateFacts.
Context {P : Type} `{GoRuntime P}.

Lemma roundsFor_min total elapsed : (1 <= roundsFor (P := P) total elapsed)%Z.
Proof. unfold roundsFor. destruct (_ <? 1)%Z eqn:E; lia. Qed.

Lemma roundsFor_two_minutes : roundsFor (P := P) 120000000000 20000000000 = 6%Z.
Proof. vm_compute. reflexivity. Qed.

(** Ordinary budgets: an hour over 90 seconds, three minutes over 7
    seconds; a budget shorter than the trial round, and a negative one, give
    1. *)
Example roundsFor_examples :
  roundsFor (P := P) (3600 * Second) (90 * Second) = 40%Z /\
  roundsFor (P := P) (180 * Second) (7 * Second) = 25%Z /\
  roundsFor (P := P) (10 * Second) (20 * Second) = 1%Z /\
  roundsFor (P := P) (- 5 * Second) (20 * Second) = 1%Z.
Proof. vm_compute. repeat split. Qed.

Lemma v2_estimateRounds_unfold {C} `{V2.LLMClient C}
      claim llm duration (w : world C P) :
  let trial := V2.trialRun claim llm w in
  let run := V2.estimateRounds claim llm duration w in
  run.1.2 = trial.1.2 /\
  run.1.1 = match trial.1.1 with
            | Ok _ => match ParseDuration duration with
                      | Ok total => Ok (roundsFor total (V2.trialElapsed claim llm w))
                      | Err e => Err ("invalid duration: " +:+ e)
                      | Panic p => Panic p
                      end
            | Err e => Err e
            | Panic p => Panic p
            end.
Proof.
  intros trial run. subst run trial.
  unfold V2.estimateRounds, V2.trialElapsed, V2.trialRun, now, on_proc, bind.
  destruct (Now (w_proc w)) as [t0 p0]. simpl.
  destruct (V2.runDebateFlow claim trialConfig llm (with_proc w p0))
    as [[[rs | e | p] t] w1]; simpl; try done.
  destruct (Now (w_proc w1)) as [t1 p1]. simpl.
  destruct (ParseDuration duration) as [total | e | p]; simpl;
    unfold printf_, on_proc, bind, fail, lift, ret; simpl;
    try destruct (Stdout _ _); simpl; rewrite ?app_nil_r; done.
Qed.

Lemma v1_estimateRounds_unfold {C} `{V1.LLMClient C}
      claim llm duration (w : world C P) :
  let trial := V1.trialRun claim llm w in
  let run := V1.estimateRounds claim llm duration w in
  run.1.2 = trial.1.2 /\
  run.1.1 = match trial.1.1 with
            | Ok _ => match ParseDuration duration with
                      | Ok total => Ok (roundsFor total (V1.trialElapsed claim llm w))
                      | Err e => Err ("invalid duration: " +:+ e)
                      | Panic p => Panic p
                      end
            | Err e => Err e
            | Panic p => Panic p
            end.
Proof.
  intros trial run. subst run trial.
  unfold V1.estimateRounds, V1.trialElapsed, V1.trialRun, now, on_proc, bind.
  destruct (Now (w_proc w)) as [t0 p0]. simpl.
  destruct (V1.runDebateFlow claim trialConfig llm (with_proc w p0))
    as [[[rs | e | p] t] w1]; simpl; try done.
  destruct (Now (w_proc w1)) as [t1 p1]. simpl.
  destruct (ParseDuration duration) as [total | e | p]; simpl;
    unfold printf_, on_proc, bind, fail, lift, ret; simpl;
    try destruct (Stdout _ _); simpl; rewrite ?app_nil_r; done.
Qed.

Lemma v2_trialElapsed_pos {C} `{V2.LLMClient C} claim llm (w : world C P) :
  (0 < V2.trialElapsed claim llm w)%Z.
Proof.
  unfold V2.trialElapsed. simpl. destruct (_ <=? 0)%Z eqn:E; [done | lia].
Qed.

(** The trial round: two calls when it completes, never more. *)
Lemma v2_trial_calls {C} `{V2.LLMClient C} claim llm (w : world C P) :
  let trial := V2.runDebateFlow claim trialConfig llm w in
  length trial.1.2 <= 2 /\ (is_ok trial.1.1 = true -> length trial.1.2 = 2).
Proof.
  intros trial. subst trial.
  pose proof (V2Facts.v2_runDebateFlow_spec claim trialConfig llm w) as Hs.
  unfold wp, V2.flow_post in Hs.
  destruct ((V2.runDebateFlow claim trialConfig llm w).1.1) as [rs | e | p].
  - destruct Hs as [Hct Hn]. apply v2_complete_length in Hct.
    change (Z.to_nat (Rounds trialConfig)) with 1 in Hn. split; [lia |]. intros _. lia.
  - destruct Hs as (_ & _ & Hl). split; [exact Hl | done].
  - destruct Hs as (_ & _ & Hl). split; [exact Hl | done].
Qed.

Lemma v1_trial_calls {C} `{V1.LLMClient C} claim llm (w : world C P) :
  let trial := V1.runDebateFlow claim trialConfig llm w in
  length trial.1.2 <= 2 /\ (is_ok trial.1.1 = true -> length trial.1.2 = 2).
Proof.
  intros trial. subst trial.
  pose proof (V1Facts.v1_runDebateFlow_spec claim trialConfig llm w) as Hs.
  unfold wp, V1.flow_post in Hs.
  destruct ((V1.runDebateFlow claim trialConfig llm w).1.1) as [rs | e | p].
  - destruct Hs as [Hct Hn]. apply v1_complete_length in Hct.
    change (Z.to_nat (Rounds trialConfig)) with 1 in Hn. split; [lia |]. intros _. lia.
  - destruct Hs as (_ & _ & Hl). split; [exact Hl | done].
  - destruct Hs as (_ & _ & Hl). split; [exact Hl | done].
Qed.
End EstimateFacts.

(** C10 (as amended): the Round Estimator runs exactly one trial round (two
    generation calls), whose rounds it does not return, and measures the
    time [t1] it took; for a budget that parses it returns
    [int(budget.Seconds() / t1.Seconds())], the quotient of the two
    durations as [float64] numbers of seconds with its fraction discarded,
    and 1 when that is below 1.  The result is at least 1, and a budget of 2
    minutes over a trial of 20 seconds gives 6.  In [src/unnamed/part_000] a
    measured time that is not positive counts as one millisecond. *)
Theorem C10_estimate_from_one_trial_round
        (P C1 C2 : Type) `{GoRuntime P} `{V1.LLMClient C1} `{V2.LLMClient C2}
        (claim : string) (llm : LLMConfig) (duration : string) (total : Z)
        (w1 : world C1 P) (w2 : world C2 P) :
  ParseDuration duration = Ok total ->
  (is_ok (V2.trialRun claim llm w2).1.1 = true ->
   (V2.estimateRounds claim llm duration w2).1.1 =
     Ok (roundsFor total (V2.trialElapsed claim llm w2)) /\
   (0 < V2.trialElapsed claim llm w2)%Z /\
   (V2.estimateRounds claim llm duration w2).1.2 = (V2.trialRun claim llm w2).1.2 /\
   length (V2.estimateRounds claim llm duration w2).1.2 = 2) /\
  (is_ok (V1.trialRun claim llm w1).1.1 = true ->
   (V1.estimateRounds claim llm duration w1).1.1 =
     Ok (roundsFor total (V1.trialElapsed claim llm w1)) /\
   (V1.estimateRounds claim llm duration w1).1.2 = (V1.trialRun claim llm w1).1.2 /\
   length (V1.estimateRounds claim llm duration w1).1.2 = 2) /\
  (forall elapsed, 1 <= roundsFor (P := P) total elapsed)%Z /\
  roundsFor (P := P) (120 * Second) (20 * Second) = 6%Z.
Proof.
  intros Hparse. split; [| split; [| split]].
  - intros Hok.
    destruct (v2_estimateRounds_unfold claim llm duration w2) as [Ht Hr].
    simpl in Ht, Hr. rewrite Hparse in Hr.
    pose proof (v2_trial_calls claim llm (with_proc w2 (Now (w_proc w2)).2)) as [_ Hl].
    fold (V2.trialRun claim llm w2) in Hl. specialize (Hl Hok).
    destruct ((V2.trialRun claim llm w2).1.1); try discriminate.
    split; [done |]. split; [apply v2_trialElapsed_pos |]. split; [done |].
    rewrite Ht. done.
  - intros Hok.
    destruct (v1_estimateRounds_unfold claim llm duration w1) as [Ht Hr].
    simpl in Ht, Hr. rewrite Hparse in Hr.
    pose proof (v1_trial_calls claim llm (with_proc w1 (Now (w_proc w1)).2)) as [_ Hl].
    fold (V1.trialRun claim llm w1) in Hl. specialize (Hl Hok).
    destruct ((V1.trialRun claim llm w1).1.1); try discriminate.
    split; [done |]. split; [done |]. rewrite Ht. done.
  - intros elapsed. apply roundsFor_min.
  - apply roundsFor_two_minutes.
Qed.

(** The theorem at a budget of ["2m"] and a trial round of 20 seconds: a
    clock that advances 5 seconds at each of the four readings the trial
    spans in [src/unnamed/part_000], and 20 seconds at the one reading in
    [src/main.go]. *)
Lemma C10_two_minutes_over_twenty_seconds :
  (V2.estimateRounds "the claim" llm0 "2m"
     (ticking ([] : list (string * string * string)) (5 * Second))).1.1 = Ok 6%Z /\
  (V1.estimateRounds "the claim" llm0 "2m"
     (ticking ([] : list (string * string)) (20 * Second))).1.1 = Ok 6%Z.
Proof.
  assert (ParseDuration (P := proc) "2m" = Ok (120 * Second)%Z) as Hparse
      by (vm_compute; reflexivity).
  destruct (C10_estimate_from_one_trial_round proc _ _ "the claim" llm0 "2m"
              (120 * Second)
              (ticking ([] : list (string * string)) (20 * Second))
              (ticking ([] : list (string * string * string)) (5 * Second))
              Hparse) as (H2 & H1 & _).
  split.
  - destruct H2 as (Hr & _); [vm_compute; reflexivity |].
    rewrite Hr. vm_compute. reflexivity.
  - destruct H1 as (Hr & _); [vm_compute; reflexivity |].
    rewrite Hr. vm_compute. reflexivity.
Defined.

(** C10 fails as stated: for a budget of 6.6 seconds and a trial round
    measured at 2.2 seconds the estimate is 2, although [6.6 / 2.2] is
    exactly 3: the two [float64] numbers of seconds divide to
    2.9999999999999996. *)
Lemma C10_quotient_is_not_the_floor :
  let w := ticking ([] : list (string * string * string)) 550000000 in
  ParseDuration (P := proc) "6.6s" = Ok 6600000000%Z /\
  V2.trialElapsed "the claim" llm0 w = 2200000000%Z /\
  (V2.estimateRounds "the claim" llm0 "6.6s" w).1.1 = Ok 2%Z /\
  (6600000000 / 2200000000 = 3)%Z /\
  (6600000000 mod 2200000000 = 0)%Z.
Proof. vm_compute. repeat split. Qed.

(** ** The command line *)

Section CLIFacts.
Context {C P E : Type} `{GoRuntime P}.
Implicit Types (w : world C P).

Lemma wp_mustLoadPrompt path fallback
      (Q : outcome string -> list E -> world C P -> Prop) w :
  (forall r w', Q r [] w') -> wp (mustLoadPrompt path fallback) Q w.
Proof.
  intros HQ. unfold mustLoadPrompt. case_bool_decide; [apply wp_ret, HQ |].
  apply wp_bind, wp_on_proc.
  destruct (ReadFile (w_proc w) path).1 as [data | e | p]; simpl.
  - apply wp_ret, HQ.
  - unfold eprintf_. apply wp_bind, wp_bind, wp_on_proc, wp_ret, wp_ret, HQ.
  - apply wp_lift, HQ.
Qed.

Lemma wp_parseFlags cmd
      (Q : outcome (DebateConfig * LLMConfig) -> list E -> world C P -> Prop) w :
  (forall e w', Q (Err e) [] w') ->
  (forall p w', Q (Panic p) [] w') ->
  (forall chal def w',
      Q (Ok ({| Rounds := flag_rounds cmd; Duration := flag_duration cmd;
                InputFile := flag_input cmd; OutputFile := flag_output cmd |},
             {| ChallengerModel := flag_challenger cmd;
                DefenderModel := flag_defender cmd;
                ChalPrompt := chal; DefPrompt := def |})) [] w') ->
  wp (parseFlags cmd) Q w.
Proof.
  intros He Hp Hok. unfold parseFlags. case_bool_decide; [apply wp_fail, He |].
  apply wp_bind, wp_mustLoadPrompt. intros [chal | e | p] w1; [| apply He | apply Hp].
  apply wp_bind, wp_mustLoadPrompt. intros [def | e | p] w2; [| apply He | apply Hp].
  apply wp_ret, Hok.
Qed.

Lemma wp_loadInput path (Q : outcome string -> list E -> world C P -> Prop) w :
  (forall r w', Q r [] w') -> wp (loadInput path) Q w.
Proof.
  intros HQ. unfold loadInput. apply wp_bind, wp_on_proc.
  destruct (ReadFile (w_proc w) path).1 as [data | e | p]; simpl.
  - apply wp_ret, HQ.
  - apply wp_fail, HQ.
  - apply wp_lift, HQ.
Qed.

Lemma wp_clientFromEnvironment (Q : outcome unit -> list E -> world C P -> Prop) w :
  (forall r, Q r [] w) -> wp clientFromEnvironment Q w.
Proof.
  intros HQ. unfold wp, clientFromEnvironment.
  destruct (ClientFromEnvironment (w_proc w)); apply HQ.
Qed.

Lemma wp_writeOutput path report (Q : outcome unit -> list E -> world C P -> Prop) w :
  (forall r w', Q r [] w') -> wp (writeOutput path report) Q w.
Proof.
  intros HQ. unfold writeOutput. apply wp_bind, wp_on_proc.
  destruct (WriteFile (w_proc w) path report).1; [apply wp_fail | apply wp_ret];
    apply HQ.
Qed.

Lemma wp_of_run {A} (m : M (world C P) E A) (Q : outcome A -> list E -> world C P -> Prop) w :
  Q (m w).1.1 (m w).1.2 (m w).2 -> wp m Q w.
Proof. done. Qed.
End CLIFacts.

Section CLIRuns.
Context {P : Type} `{GoRuntime P}.


End CLIRuns.




(** ** No round count and no duration *)

Section DefaultRounds.
Context {P : Type} `{GoRuntime P}.

(** [src/main.go]: the run stops by itself within three rounds and a
    summary, seven calls at most. *)
Lemma v1_runCLI_default_is_three_rounds {C} `{V1.LLMClient C} cmd (w : world C P) :
  (flag_rounds cmd <= 0)%Z -> flag_duration cmd = "" ->
  wp (V1.runCLI cmd)
     (fun r t _ => length t <= 7 /\ (is_ok r = true -> length t = 7)) w.
Proof.
  intros Hrounds Hdur. unfold V1.runCLI.
  apply wp_bind, wp_parseFlags; [by split; simpl; [lia |] | by split; simpl; [lia |] |].
  intros chal def w1. simpl.
  rewrite Hdur. simpl. rewrite !andb_false_r. simpl.
  apply wp_bind, wp_loadInput.
  intros [input | e1 | p1] w2; [| by split; simpl; [lia |] | by split; simpl; [lia |]].
  apply wp_bind, wp_clientFromEnvironment.
  intros [[] | e2 | p2]; [| by split; simpl; [lia |] | by split; simpl; [lia |]].
  apply wp_bind, wp_ret.
  rewrite bool_decide_eq_true_2 by done.
  apply wp_bind. eapply wp_mono; [apply V1Facts.v1_runDebateFlow_spec |].
  intros r t w3 Hr. destruct r as [rs | e3 | p3]; simpl in Hr.
  2,3: destruct Hr as (_ & _ & Hl); simpl in *; split; [lia | done].
  destruct Hr as [Hct Hn]. apply v1_complete_length in Hct. simpl in Hn.
  change (Z.to_nat 3) with 3 in Hn.
  apply wp_bind, wp_of_run.
  destruct (v1_summarize_trace rs (flag_challenger cmd) w3) as [Hts Hrs].
  simpl in Hts. rewrite Hts.
  destruct ((V1.summarizeDebate rs (flag_challenger cmd) w3).1.1) as [report | e4 | p4].
  2,3: simpl; rewrite length_app; simpl; split; [lia | done].
  apply wp_writeOutput. intros r w4. rewrite !length_app. simpl. split; [lia |].
  intros _. lia.
Qed.

(** [src/unnamed/part_000]: the bound of the loop is [math.MaxInt], and a
    run that ends without error has gone through all of them. *)
Lemma v2_runCLI_default_is_MaxInt_rounds {C} `{V2.LLMClient C} cmd (w : world C P) :
  (flag_rounds cmd <= 0)%Z -> flag_duration cmd = "" ->
  wp (V2.runCLI cmd)
     (fun r t _ => is_ok r = true -> length t = 2 * Z.to_nat MaxInt + 1) w.
Proof.
  intros Hrounds Hdur. unfold V2.runCLI. generalize MaxInt. intros big.
  apply wp_bind, wp_parseFlags; [done | done |].
  intros chal def w1. simpl.
  rewrite Hdur. simpl. rewrite !andb_false_r. simpl.
  apply wp_bind, wp_loadInput. intros [input | e1 | p1] w2; [| done | done].
  apply wp_bind, wp_clientFromEnvironment. intros [[] | e2 | p2]; [| done | done].
  apply wp_bind, wp_ret.
  rewrite bool_decide_eq_true_2 by done.
  apply wp_bind. eapply wp_mono; [apply V2Facts.v2_runDebateFlow_spec |].
  intros r t w3 Hr. destruct r as [rs | e3 | p3]; [| done | done].
  destruct Hr as [Hct Hn]. apply v2_complete_length in Hct. simpl in Hn.
  apply wp_bind, wp_of_run.
  destruct (v2_summarize_trace rs (flag_challenger cmd) w3) as [Hts Hrs].
  simpl in Hts. rewrite Hts.
  destruct ((V2.summarizeDebate rs (flag_challenger cmd) w3).1.1) as [report | e4 | p4];
    [| done | done].
  apply wp_writeOutput. intros r w4 _. rewrite !length_app. simpl. lia.
Qed.
End DefaultRounds.

(** C1 fails on [src/main.go]: started with neither [--rounds] nor
    [--duration] and the client of the tests, the program runs three rounds,
    summarizes them, writes the report and returns: seven calls in all. *)
Theorem C1_main_go_stops_after_three_rounds :
  let run := V1.runCLI (flags0 0 "") start1 in
  run.1.1 = Ok tt /\ length run.1.2 = 7 /\
  files (w_proc run.2) =
    [("report.md", "ok")].
Proof. vm_compute. repeat split. Qed.

(** ** What an [append] leaves alone *)

Section FrameFacts.
Context {A : Type} (zero : A) `{GoRuntime P}.
Implicit Types (h : heap A) (s t : slice) (vs : list A).

(** Appending to [s] does not change what is seen through [t], unless [t]
    reaches beyond the end of [s] in the same array. *)
Lemma append_frame h s vs t :
  valid h s -> valid h t ->
  s_arr s <> s_arr t \/ s_off t + s_len t <= s_off s + s_len s ->
  slice_list (append zero h s vs).1 t = slice_list h t.
Proof.
  intros (Ha & Hcap & Hlen) (Hta & Htcap & Htlen) Hsep. unfold append.
  case_bool_decide as Hfit; simpl; unfold slice_list.
  - destruct (decide (s_arr s = s_arr t)) as [E | E].
    + destruct Hsep as [Hne | Hend]; [done |].
      rewrite <- E, backing_alter_eq, decide_True by done.
      unfold write_at. apply list_eq. intros j.
      rewrite !lookup_take, !lookup_drop.
      case_decide; [| done].
      rewrite lookup_app_l by (rewrite length_take; lia).
      rewrite lookup_take. rewrite decide_True by lia. done.
    + rewrite backing_alter_ne by done. done.
  - rewrite backing_app_old by done. done.
Qed.

(** Where the result of an [append] lies with respect to a slice [t] that
    ended no later than its argument. *)
Lemma append_beyond h s vs t :
  valid h s -> valid h t ->
  s_arr s <> s_arr t \/ s_off t + s_len t <= s_off s + s_len s ->
  let s' := (append zero h s vs).2 in
  s_arr s' <> s_arr t \/ s_off t + s_len t <= s_off s' + s_len s'.
Proof.
  intros (Ha & Hcap & Hlen) (Hta & Htcap & Htlen) Hsep. unfold append.
  case_bool_decide as Hfit; simpl.
  - destruct Hsep as [Hne | Hend]; [left; done | right; lia].
  - left. lia.
Qed.

Lemma trimHistory_alias (s t : slice) (max : Z) :
  trimHistory s max = Ok t ->
  s_arr t = s_arr s /\ s_off t + s_len t = s_off s + s_len s.
Proof.
  unfold trimHistory, reslice_from. case_bool_decide; [intros [= <-]; done |].
  case_bool_decide; [| discriminate]. intros [= <-]. simpl. lia.
Qed.
End FrameFacts.

(** ** The loop of [src/unnamed/part_000], with what each call sees *)

Section V2Contents.
Context {C P : Type} `{V2.LLMClient C} `{GoRuntime P}.
Implicit Types (w : world C P) (st : V2.loop_state).

Lemma v2_stopped_retype {A B} calling logging reply (r : outcome A) :
  is_ok r = false ->
  v2_stopped (P := P) calling logging reply r ->
  v2_stopped (P := P) (A := B) calling logging reply
    (match r with Ok _ => Err "" | Err e => Err e | Panic p => Panic p end).
Proof.
  unfold v2_stopped. intros Hr. destruct reply, r; try done.
  - intros [Hf [e' He]]. split; [done |]. exists e'. congruence.
  - intros [Hf [e' He]]. done.
  - intros [= ->]. done.
  - intros [= ->]. done.
Qed.

(** Lines 212-213 under the invariant of the loop. *)
Lemma v2_roundView_stored seed turns st w :
  v2_stored seed turns (w_heap w) st ->
  let low := length turns - Z.to_nat V2.MaxHistory in
  exists temp h',
    V2.roundView (V2.history st) seed w = (Ok temp, [], with_heap w h') /\
    valid h' temp /\ valid h' (V2.history st) /\
    s_arr temp = s_arr (V2.history st) /\
    s_off temp + s_len temp = s_off (V2.history st) + s_len (V2.history st) /\
    slice_list h' temp = seed :: drop low turns /\
    slice_list h' (V2.history st) =
      <[low := seed]> (slice_list (w_heap w) (V2.history st)).
Proof.
  intros (Hv & Hlen & Hseed & Hwin) low.
  change (Z.to_nat V2.MaxHistory) with 100 in *.
  destruct (v2_trimmedView_spec (V2.MaxHistory + 1) (V2.history st) seed w Hv
              ltac:(done) ltac:(lia)) as (temp & Hrun & Hl & Hhist & Hview).
  change (Z.to_nat (V2.MaxHistory + 1)) with 101 in *.
  replace (s_len (V2.history st) - 101) with low in * by (unfold low; lia).
  destruct (trimHistory_ok (V2.history st) (V2.MaxHistory + 1) ltac:(done))
    as (t0 & Htrim & _ & Hview0).
  assert (temp = t0) as ->.
  { revert Hrun. unfold V2.trimmedView, bind, lift. rewrite Htrim. simpl.
    unfold slice_set. destruct (index_set _ _ _ _); simpl; congruence. }
  destruct (trimHistory_alias _ _ _ Htrim) as [Harr Hend].
  set (h' := store (w_heap w) (V2.history st) low seed) in *.
  exists t0, h'. split; [exact Hrun |].
  split; [apply store_valid, Hview0; done |].
  split; [apply store_valid; done |].
  split; [done |]. split; [done |]. split; [| done].
  rewrite Hview. pose proof (slice_list_length _ _ Hv) as Hll.
  apply list_eq. intros [| j].
  - rewrite lookup_drop, Nat.add_0_r. simpl.
    apply list_lookup_insert_eq. unfold low. lia.
  - rewrite lookup_drop, list_lookup_insert_ne by lia. simpl.
    rewrite lookup_drop. rewrite Hwin by (unfold low; lia).
    replace (low + S j) with (S (low + j)) by lia. done.
Qed.

Lemma v2_roundBody_run llm seed turns st w :
  v2_stored seed turns (w_heap w) st ->
  wp (V2.roundBody llm seed st) (v2_round_run llm seed turns st) w.
Proof.
  intros Hst.
  destruct (v2_roundView_stored seed turns st w Hst)
    as (t0 & h1 & Hrun & Hv1 & Hvh1 & Harr & Hend & Hview1 & Hhist1).
  destruct Hst as (Hv & Hlen & Hseed & Hwin).
  set (low := length turns - Z.to_nat V2.MaxHistory) in *.
  unfold V2.roundBody.
  apply wp_bind, wp_of_run. rewrite Hrun. simpl.
  apply wp_bind, wp_wrapErr, V2Facts.v2_wp_runSingleRound. intros r1 c1. simpl.
  set (c := V2.Build_call (ChallengerModel llm) _ _ _ _).
  assert (forall r', V2.c_reply c = r' -> r' = r1) as Hr1 by (intros r' <-; done).
  assert (v2_opening llm seed turns c) as Hopen.
  { split; [done |]. subst c. simpl. exact Hview1. }
  destruct r1 as [chal | e | p]; simpl.
  2,3: left; exists c; split; [done |]; split; [done |]; done.
  apply wp_bind, wp_slice_append. simpl.
  set (chalEntry := {| Role := RoleChallenger; Content := chal |}).
  assert (s_arr t0 <> s_arr (V2.history st) \/
          s_off (V2.history st) + s_len (V2.history st) <= s_off t0 + s_len t0)
    as Hsep1 by (right; lia).
  pose proof (append_valid zeroMessage h1 t0 [chalEntry] Hv1) as Hv2.
  pose proof (append_list zeroMessage h1 t0 [chalEntry] Hv1) as Hview2.
  pose proof (append_keeps_valid zeroMessage h1 t0 [chalEntry] _ Hvh1) as Hvh2.
  pose proof (append_frame zeroMessage h1 t0 [chalEntry] _ Hv1 Hvh1 Hsep1) as Hfr2.
  pose proof (append_beyond zeroMessage h1 t0 [chalEntry] _ Hv1 Hvh1 Hsep1) as Hsep2.
  destruct (append zeroMessage h1 t0 [chalEntry]) as [h2 t1]. simpl in *.
  assert (forall r, v2_answer llm c chal
            {| V2.c_model := DefenderModel llm;
               V2.c_system := RoleDefender +:+ nl +:+ DefPrompt llm;
               V2.c_prompt := render_from "" (slice_list h2 t1);
               V2.c_view := slice_list h2 t1; V2.c_reply := r |}) as Hans.
  { intros r. split; [done |]. split; [done |]. simpl. rewrite Hview2. done. }
  apply wp_bind, wp_wrapErr, V2Facts.v2_wp_logDebate.
  2: { intros Hf e p. simpl. left. exists c. split; [done |]. split; [done |].
       split; [done |]. exists e. done. }
  intros p1. simpl.
  apply wp_bind, wp_wrapErr, V2Facts.v2_wp_runSingleRound. intros r2 c2. simpl.
  specialize (Hans r2).
  destruct r2 as [def | e | p]; simpl.
  2,3: right; eexists c, chal, _; split; [reflexivity |]; split; [done |];
       split; [exact Hans | done].
  set (d := V2.Build_call (DefenderModel llm) _ _ _ _) in *.
  apply wp_bind, wp_slice_append. simpl.
  set (defEntry := {| Role := RoleDefender; Content := def |}).
  pose proof (append_keeps_valid zeroMessage h2 t1 [defEntry] _ Hvh2) as Hvh3.
  pose proof (append_frame zeroMessage h2 t1 [defEntry] _ Hv2 Hvh2 Hsep2) as Hfr3.
  destruct (append zeroMessage h2 t1 [defEntry]) as [h3 t2]. simpl in *.
  apply wp_bind, wp_wrapErr, V2Facts.v2_wp_logDebate.
  2: { intros Hf e p. simpl. right. exists c, chal, d.
       split; [done |]. split; [done |]. split; [exact Hans |].
       split; [done |]. exists e. done. }
  intros p2. simpl.
  apply wp_bind, wp_slice_append, wp_ret. simpl.
  pose proof (append_valid zeroMessage h3 (V2.history st) [chalEntry; defEntry] Hvh3)
    as Hv4.
  pose proof (append_len zeroMessage h3 (V2.history st) [chalEntry; defEntry]) as Hl4.
  pose proof (append_list zeroMessage h3 (V2.history st) [chalEntry; defEntry] Hvh3)
    as Hlist4.
  destruct (append zeroMessage h3 (V2.history st) [chalEntry; defEntry])
    as [h4 hist']. simpl in *.
  exists c, chal, d, def.
  split; [done |]. split; [done |]. split; [exact Hans |]. split; [done |].
  split; [done |].
  pose proof (slice_list_length _ _ Hv) as Hll.
  rewrite Hfr3, Hfr2, Hhist1 in Hlist4.
  change (Z.to_nat V2.MaxHistory) with 100 in *.
  split; [exact Hv4 |]. simpl. rewrite Hlist4, length_app. simpl.
  split; [lia |]. split.
  - rewrite lookup_app_l by (rewrite length_insert; lia).
    destruct (decide (low = 0)) as [-> | Hne].
    + apply list_lookup_insert_eq. lia.
    + rewrite list_lookup_insert_ne by lia. done.
  - intros j Hj. change (Z.to_nat V2.MaxHistory) with 100 in Hj.
    destruct (decide (j < S (length turns))) as [Hlt | Hge].
    + rewrite lookup_app_l by (rewrite length_insert; lia).
      rewrite list_lookup_insert_ne by (unfold low; lia).
      rewrite Hwin by lia.
      destruct j as [| j]; [done |]. simpl.
      rewrite lookup_app_l by lia. done.
    + rewrite lookup_app_r by (rewrite length_insert; lia).
      rewrite length_insert, Hll, Hlen.
      destruct j as [| j]; [lia |]. simpl.
      rewrite lookup_app_r by lia. f_equal.
Qed.

Lemma v2_debateLoop_run llm seed n : forall turns st w,
  v2_stored seed turns (w_heap w) st ->
  wp (V2.debateLoop llm seed n st) (v2_loop_run llm seed turns n st) w.
Proof.
  induction n as [| n IH]; intros turns st w Hst; simpl.
  - apply wp_ret. exists []. rewrite app_nil_r.
    split; [constructor |]. done.
  - apply wp_bind. eapply wp_mono; [apply v2_roundBody_run; done |].
    intros r t w1 Hr. destruct r as [st1 | e | p]; simpl in Hr.
    + destruct Hr as (c & chal & d & def & -> & Hopen & Hans & Hd & Hrs & Hst1).
      eapply wp_mono; [apply IH; exact Hst1 |].
      intros r2 t2 w2 Hr2. destruct r2 as [st2 | e | p]; simpl in *.
      * destruct Hr2 as (rs & Hrun & Hn & Hrs2).
        exists ({| Challenger := chal; Defender := def |} :: rs).
        split; [| split; [simpl; lia | rewrite Hrs2, Hrs, <- app_assoc; done]].
        apply (v2_run_round llm seed turns c chal d def t2 (Ok rs)); done.
      * apply (v2_run_round llm seed turns c chal d def t2 (Err e)); done.
      * apply (v2_run_round llm seed turns c chal d def t2 (Panic p)); done.
    + destruct Hr as [(c & -> & Hopen & Hstop) | (c & chal & d & -> & Hopen & Hans & Hstop)].
      * apply v2_run_challenger; [done |].
        apply (v2_stopped_retype (B := list DebateRound) _ _ _ (Err e) eq_refl Hstop).
      * eapply v2_run_defender; [done | done |].
        apply (v2_stopped_retype (B := list DebateRound) _ _ _ (Err e) eq_refl Hstop).
    + destruct Hr as [(c & -> & Hopen & Hstop) | (c & chal & d & -> & Hopen & Hans & Hstop)].
      * apply v2_run_challenger; [done |].
        apply (v2_stopped_retype (B := list DebateRound) _ _ _ (Panic p) eq_refl Hstop).
      * eapply v2_run_defender; [done | done |].
        apply (v2_stopped_retype (B := list DebateRound) _ _ _ (Panic p) eq_refl Hstop).
Qed.

(** The run of [runDebateFlow]: either the opening log write fails, before
    any call, or the loop runs from the seed alone. *)
Lemma v2_flow_run claim config llm w :
  let seed := {| Role := RoleUser; Content := claim |} in
  let run := V2.runDebateFlow claim config llm w in
  (run.1.2 = [] /\ stdout_fails (P := P) /\ exists e, run.1.1 = Err e) \/
  v2_run llm seed [] run.1.2 run.1.1.
Proof.
  intros seed run. subst run.
  enough (wp (V2.runDebateFlow claim config llm)
            (fun r t _ =>
               (t = [] /\ stdout_fails (P := P) /\ exists e, r = Err e) \/
               v2_run llm seed [] t r) w) as Hwp by exact Hwp.
  unfold V2.runDebateFlow, V2.debateStart.
  apply wp_bind, wp_bind, wp_slice_lit1.
  pose proof (make1_valid (w_heap w) seed) as Hv.
  pose proof (make1_list (w_heap w) seed) as Hlist.
  fold seed.
  destruct (make1 _ _) as [h0 s0] eqn:Hmk. simpl in *.
  assert (s_len s0 = 1) as Hl by (injection Hmk as _ <-; done).
  apply wp_bind, V2Facts.v2_wp_logDebate.
  2: { intros Hf e p. simpl. left. split; [done |]. split; [done |]. exists e. done. }
  intros p. apply wp_ret. simpl.
  apply wp_bind. eapply wp_mono.
  { apply (v2_debateLoop_run llm seed _ []). unfold v2_stored. simpl.
    split; [done |]. split; [done |]. rewrite Hlist. split; done. }
  intros r t w1 Hr. destruct r as [st1 | e | q]; simpl in *.
  - destruct Hr as (rs & Hrun & Hn & Hrs). apply wp_ret. simpl.
    right. rewrite Hrs, app_nil_r. done.
  - right. done.
  - right. done.
Qed.
End V2Contents.

(** ** The loop of [src/main.go], with what each call sees *)

Section V1Contents.
Context {C P : Type} `{V1.LLMClient C} `{GoRuntime P}.
Implicit Types (w : world C P) (st : V1.loop_state).

Lemma v1_stopped_retype {A B} reply (r : outcome A) :
  is_ok r = false ->
  v1_stopped reply r ->
  v1_stopped (A := B) reply
    (match r with Ok _ => Err "" | Err e => Err e | Panic p => Panic p end).
Proof.
  unfold v1_stopped. intros Hr. destruct reply, r; try done.
  - intros [= ->]. done.
  - intros [= ->]. done.
Qed.

Lemma v1_roundBody_run llm seed turns st w :
  v1_stored seed turns (w_heap w) st ->
  wp (V1.roundBody llm st) (v1_round_run llm seed turns st) w.
Proof.
  intros [Hv Hlist]. unfold V1.roundBody.
  destruct (trimHistory_ok (V1.history st) V1.MaxHistory ltac:(done))
    as (t0 & Htrim & Hl0 & Hview0).
  change (Z.to_nat V1.MaxHistory) with 10 in *.
  apply wp_bind. rewrite Htrim. apply wp_lift.
  assert (valid (w_heap w) t0) as Hv0 by (apply Hview0; done).
  assert (slice_list (w_heap w) t0 = drop (S (length turns) - 10) (seed :: turns))
    as Hview.
  { destruct (Hview0 (w_heap w)) as [-> _].
    pose proof (slice_list_length _ _ Hv) as Hll. rewrite Hlist in Hll |- *.
    rewrite length_drop in Hll. rewrite drop_drop. f_equal. simpl in *. lia. }
  apply wp_bind, V1Facts.v1_wp_runSingleRound. intros r1 c1. simpl.
  set (c := V1.Build_call (ChallengerModel llm) _ _ _).
  assert (v1_opening llm seed turns c) as Hopen.
  { split; [done |]. subst c. simpl. exact Hview. }
  destruct r1 as [chal | e | p]; simpl.
  2,3: left; exists c; split; [done |]; split; [done |]; done.
  apply wp_bind, wp_slice_append. simpl.
  set (chalEntry := {| Role := RoleChallenger; Content := chal |}).
  pose proof (append_valid zeroMessage (w_heap w) t0 [chalEntry] Hv0) as Hv1.
  pose proof (append_list zeroMessage (w_heap w) t0 [chalEntry] Hv0) as Hview1.
  destruct (append zeroMessage (w_heap w) t0 [chalEntry]) as [h1 t1]. simpl in *.
  assert (forall r, v1_answer llm c chal
            {| V1.c_model := DefenderModel llm;
               V1.c_prompt := render_from (DefPrompt llm +:+ nl) (slice_list h1 t1);
               V1.c_view := slice_list h1 t1; V1.c_reply := r |}) as Hans.
  { intros r. split; [done |]. split; [done |]. simpl. rewrite Hview1. done. }
  apply wp_bind, V1Facts.v1_wp_runSingleRound. intros r2 c2. simpl.
  specialize (Hans r2).
  destruct r2 as [def | e | p]; simpl.
  2,3: right; eexists c, chal, _; split; [reflexivity |]; split; [done |];
       split; [exact Hans | done].
  set (d := V1.Build_call (DefenderModel llm) _ _ _) in *.
  apply wp_bind, wp_slice_append, wp_ret. simpl.
  set (defEntry := {| Role := RoleDefender; Content := def |}).
  pose proof (append_valid zeroMessage h1 t1 [defEntry] Hv1) as Hv2.
  pose proof (append_list zeroMessage h1 t1 [defEntry] Hv1) as Hview2.
  destruct (append zeroMessage h1 t1 [defEntry]) as [h2 t2]. simpl in *.
  exists c, chal, d, def.
  split; [done |]. split; [done |]. split; [exact Hans |]. split; [done |].
  split; [done |]. split; [exact Hv2 |]. cbn [V1.history].
  rewrite Hview2, Hview1, Hview, <- app_assoc.
  change ([chalEntry] ++ [defEntry]) with [chalEntry; defEntry].
  change (Z.to_nat V1.MaxHistory + 2) with 12.
  rewrite (app_comm_cons turns _ seed).
  rewrite drop_app_le by (rewrite length_app; simpl; lia).
  f_equal. f_equal. rewrite length_app. simpl. lia.
Qed.

Lemma v1_debateLoop_run llm seed n : forall turns st w,
  v1_stored seed turns (w_heap w) st ->
  wp (V1.debateLoop llm n st) (v1_loop_run llm seed turns n st) w.
Proof.
  induction n as [| n IH]; intros turns st w Hst; simpl.
  - apply wp_ret. exists []. rewrite app_nil_r.
    split; [constructor |]. done.
  - apply wp_bind. eapply wp_mono; [apply v1_roundBody_run; done |].
    intros r t w1 Hr. destruct r as [st1 | e | p]; simpl in Hr.
    + destruct Hr as (c & chal & d & def & -> & Hopen & Hans & Hd & Hrs & Hst1).
      eapply wp_mono; [apply IH; exact Hst1 |].
      intros r2 t2 w2 Hr2. destruct r2 as [st2 | e | p]; simpl in *.
      * destruct Hr2 as (rs & Hrun & Hn & Hrs2).
        exists ({| Challenger := chal; Defender := def |} :: rs).
        split; [| split; [simpl; lia | rewrite Hrs2, Hrs, <- app_assoc; done]].
        apply (v1_run_round llm seed turns c chal d def t2 (Ok rs)); done.
      * apply (v1_run_round llm seed turns c chal d def t2 (Err e)); done.
      * apply (v1_run_round llm seed turns c chal d def t2 (Panic p)); done.
    + destruct Hr as [(c & -> & Hopen & Hstop) | (c & chal & d & -> & Hopen & Hans & Hstop)].
      * apply v1_run_challenger; [done |].
        apply (v1_stopped_retype (B := list DebateRound) _ (Err e) eq_refl Hstop).
      * eapply v1_run_defender; [done | done |].
        apply (v1_stopped_retype (B := list DebateRound) _ (Err e) eq_refl Hstop).
    + destruct Hr as [(c & -> & Hopen & Hstop) | (c & chal & d & -> & Hopen & Hans & Hstop)].
      * apply v1_run_challenger; [done |].
        apply (v1_stopped_retype (B := list DebateRound) _ (Panic p) eq_refl Hstop).
      * eapply v1_run_defender; [done | done |].
        apply (v1_stopped_retype (B := list DebateRound) _ (Panic p) eq_refl Hstop).
Qed.

Lemma v1_flow_run claim config llm w :
  let seed := {| Role := RoleUser; Content := claim |} in
  let run := V1.runDebateFlow claim config llm w in
  v1_run llm seed [] run.1.2 run.1.1.
Proof.
  intros seed run. subst run.
  enough (wp (V1.runDebateFlow claim config llm)
            (fun r t _ => v1_run llm seed [] t r) w) as Hwp by exact Hwp.
  unfold V1.runDebateFlow, V1.debateStart.
  apply wp_bind, wp_bind, wp_slice_lit1.
  pose proof (make1_valid (w_heap w) seed) as Hv.
  pose proof (make1_list (w_heap w) seed) as Hlist.
  fold seed.
  destruct (make1 _ _) as [h0 s0] eqn:Hmk. simpl in *.
  apply wp_ret. simpl.
  apply wp_bind. eapply wp_mono.
  { apply (v1_debateLoop_run llm seed _ []). unfold v1_stored. simpl.
    split; [done |]. rewrite Hlist. done. }
  intros r t w1 Hr. destruct r as [st1 | e | q]; simpl in *.
  - destruct Hr as (rs & Hrun & Hn & Hrs). apply wp_ret. simpl.
    rewrite Hrs, app_nil_r. done.
  - done.
  - done.
Qed.
End V1Contents.

(** ** Reading the turns off a trace *)

Lemma v2_turns_round c d chal def rest :
  V2.c_reply c = Ok chal -> V2.c_reply d = Ok def ->
  v2_turns (c :: d :: rest) =
    {| Role := RoleChallenger; Content := chal |} ::
    {| Role := RoleDefender; Content := def |} :: v2_turns rest.
Proof. intros Hc Hd. simpl. rewrite Hc, Hd. done. Qed.

Lemma v1_turns_round c d chal def rest :
  V1.c_reply c = Ok chal -> V1.c_reply d = Ok def ->
  v1_turns (c :: d :: rest) =
    {| Role := RoleChallenger; Content := chal |} ::
    {| Role := RoleDefender; Content := def |} :: v1_turns rest.
Proof. intros Hc Hd. simpl. rewrite Hc, Hd. done. Qed.

(** Each turn is the reply of the call at its position, under the role
    whose call it was. *)
Lemma v2_turns_lookup t : forall i m,
  v2_turns t !! i = Some m ->
  exists c s, t !! i = Some c /\ V2.c_reply c = Ok s /\
    m = {| Role := if Nat.even i then RoleChallenger else RoleDefender;
           Content := s |}.
Proof.
  induction t as [t IH] using (induction_ltof1 _ length). unfold ltof in IH.
  intros i m Hm. destruct t as [| c [| d rest]]; [done | done |].
  simpl in Hm.
  destruct (V2.c_reply c) as [chal | |] eqn:Hc; [| done | done].
  destruct (V2.c_reply d) as [def | |] eqn:Hd; [| done | done].
  destruct i as [| [| i]]; simpl in Hm.
  - injection Hm as <-. exists c, chal. done.
  - injection Hm as <-. exists d, def. done.
  - destruct (IH rest ltac:(simpl; lia) i m Hm) as (x & s & Hx & Hs & ->).
    exists x, s. done.
Qed.

Lemma v1_turns_lookup t : forall i m,
  v1_turns t !! i = Some m ->
  exists c s, t !! i = Some c /\ V1.c_reply c = Ok s /\
    m = {| Role := if Nat.even i then RoleChallenger else RoleDefender;
           Content := s |}.
Proof.
  induction t as [t IH] using (induction_ltof1 _ length). unfold ltof in IH.
  intros i m Hm. destruct t as [| c [| d rest]]; [done | done |].
  simpl in Hm.
  destruct (V1.c_reply c) as [chal | |] eqn:Hc; [| done | done].
  destruct (V1.c_reply d) as [def | |] eqn:Hd; [| done | done].
  destruct i as [| [| i]]; simpl in Hm.
  - injection Hm as <-. exists c, chal. done.
  - injection Hm as <-. exists d, def. done.
  - destruct (IH rest ltac:(simpl; lia) i m Hm) as (x & s & Hx & Hs & ->).
    exists x, s. done.
Qed.

Lemma take_two_more {A} (n : nat) (c d : A) rest :
  take (2 * S n) (c :: d :: rest) = c :: d :: take (2 * n) rest.
Proof. replace (2 * S n) with (S (S (2 * n))) by lia. done. Qed.

Lemma lookup_two_more {A} (n : nat) (c d : A) rest :
  (c :: d :: rest) !! (2 * S n) = rest !! (2 * n).
Proof. replace (2 * S n) with (S (S (2 * n))) by lia. done. Qed.

(** ** What the calls of a run see, and how a run ends *)

Section RunFacts.
Context {P : Type} `{GoRuntime P}.

Lemma v2_run_views llm seed turns t res :
  v2_run llm seed turns t res ->
  forall k c, t !! (2 * k) = Some c ->
    length (v2_turns (take (2 * k) t)) = 2 * k /\
    V2.c_view c =
      seed :: drop (length turns + 2 * k - Z.to_nat V2.MaxHistory)
                (turns ++ v2_turns (take (2 * k) t)).
Proof.
  induction 1 as [turns | turns c res Hopen Hstop
                 | turns c chal d res Hopen Hans Hstop
                 | turns c chal d def rest res Hopen Hans Hd Hrest IH];
    intros k x Hk.
  - done.
  - destruct k as [| k]; [| apply lookup_lt_Some in Hk; simpl in Hk; lia].
    injection Hk as <-. simpl. rewrite app_nil_r, Nat.add_0_r.
    split; [done | apply Hopen].
  - destruct k as [| k]; [| apply lookup_lt_Some in Hk; simpl in Hk; lia].
    injection Hk as <-. simpl. rewrite app_nil_r, Nat.add_0_r.
    split; [done | apply Hopen].
  - destruct k as [| k].
    + injection Hk as <-. simpl. rewrite app_nil_r, Nat.add_0_r.
      split; [done | apply Hopen].
    + rewrite lookup_two_more in Hk. rewrite take_two_more.
      destruct Hans as (Hc & _).
      rewrite (v2_turns_round _ _ _ _ _ Hc Hd).
      destruct (IH k x Hk) as [Hl Hv]. split; [rewrite !length_cons, Hl; lia |].
      rewrite Hv, length_app, <- app_assoc. cbn [length app]. do 2 f_equal. lia.
Qed.

Lemma v1_run_views llm seed turns t res :
  v1_run llm seed turns t res ->
  forall k c, t !! (2 * k) = Some c ->
    length (v1_turns (take (2 * k) t)) = 2 * k /\
    V1.c_view c =
      drop (S (length turns + 2 * k) - Z.to_nat V1.MaxHistory)
           (seed :: turns ++ v1_turns (take (2 * k) t)).
Proof.
  induction 1 as [turns | turns c res Hopen Hstop
                 | turns c chal d res Hopen Hans Hstop
                 | turns c chal d def rest res Hopen Hans Hd Hrest IH];
    intros k x Hk.
  - done.
  - destruct k as [| k]; [| apply lookup_lt_Some in Hk; simpl in Hk; lia].
    injection Hk as <-. simpl take. simpl v1_turns.
    rewrite app_nil_r, Nat.add_0_r. split; [done | apply Hopen].
  - destruct k as [| k]; [| apply lookup_lt_Some in Hk; simpl in Hk; lia].
    injection Hk as <-. simpl take. simpl v1_turns.
    rewrite app_nil_r, Nat.add_0_r. split; [done | apply Hopen].
  - destruct k as [| k].
    + injection Hk as <-. simpl take. simpl v1_turns.
      rewrite app_nil_r, Nat.add_0_r. split; [done | apply Hopen].
    + rewrite lookup_two_more in Hk. rewrite take_two_more.
      destruct Hans as (Hc & _).
      rewrite (v1_turns_round _ _ _ _ _ Hc Hd).
      destruct (IH k x Hk) as [Hl Hv]. split; [rewrite !length_cons, Hl; lia |].
      rewrite Hv, length_app, <- app_assoc. cbn [length app].
      do 2 f_equal. lia.
Qed.

(** A call that returns an error is the last one, and its error is what the
    run returns: under the step's prefix in [part_000], as it is in
    [main.go]. *)
Lemma v2_run_failure llm seed turns t res :
  v2_run llm seed turns t res ->
  forall i c e, t !! i = Some c -> V2.c_reply c = Err e ->
    length t = S i /\
    res = Err ((if Nat.even i then "running challenger: "
                else "running defender: ") +:+ e).
Proof.
  induction 1 as [turns | turns c res Hopen Hstop
                 | turns c chal d res Hopen Hans Hstop
                 | turns c chal d def rest res Hopen Hans Hd Hrest IH];
    intros i x e Hi He.
  - done.
  - destruct i as [| i]; [| done]. injection Hi as <-.
    unfold v2_stopped in Hstop. rewrite He in Hstop. done.
  - destruct Hans as (Hc & _).
    destruct i as [| [| i]]; [| | done]; injection Hi as <-; [congruence |].
    unfold v2_stopped in Hstop. rewrite He in Hstop. done.
  - destruct Hans as (Hc & _).
    destruct i as [| [| i]]; simpl in Hi.
    + injection Hi as <-. congruence.
    + injection Hi as <-. congruence.
    + destruct (IH i x e Hi He) as [Hl ->]. simpl. split; [lia | done].
Qed.

Lemma v1_run_failure llm seed turns t res :
  v1_run llm seed turns t res ->
  forall i c e, t !! i = Some c -> V1.c_reply c = Err e ->
    length t = S i /\ res = Err e.
Proof.
  induction 1 as [turns | turns c res Hopen Hstop
                 | turns c chal d res Hopen Hans Hstop
                 | turns c chal d def rest res Hopen Hans Hd Hrest IH];
    intros i x e Hi He.
  - done.
  - destruct i as [| i]; [| done]. injection Hi as <-.
    unfold v1_stopped in Hstop. rewrite He in Hstop. done.
  - destruct Hans as (Hc & _).
    destruct i as [| [| i]]; [| | done]; injection Hi as <-; [congruence |].
    unfold v1_stopped in Hstop. rewrite He in Hstop. done.
  - destruct Hans as (Hc & _).
    destruct i as [| [| i]]; simpl in Hi.
    + injection Hi as <-. congruence.
    + injection Hi as <-. congruence.
    + destruct (IH i x e Hi He) as [Hl ->]. simpl. split; [lia | done].
Qed.

(** A run that returns its rounds has made two calls for each, all
    answered, and the rounds are the replies two by two. *)
Lemma v2_run_ok llm seed turns t res :
  v2_run llm seed turns t res ->
  forall rs, res = Ok rs ->
    rs = v2_rounds_of t /\ length t = 2 * length rs /\
    Forall (fun c => is_ok (V2.c_reply c) = true) t.
Proof.
  induction 1 as [turns | turns c res Hopen Hstop
                 | turns c chal d res Hopen Hans Hstop
                 | turns c chal d def rest res Hopen Hans Hd Hrest IH];
    intros rs Hrs.
  - injection Hrs as <-. done.
  - subst res. unfold v2_stopped in Hstop.
    destruct (V2.c_reply c); [destruct Hstop as [_ [e He]] | |]; done.
  - subst res. unfold v2_stopped in Hstop.
    destruct (V2.c_reply d); [destruct Hstop as [_ [e He]] | |]; done.
  - destruct res as [rs' | |]; [| done | done]. injection Hrs as <-.
    destruct Hans as (Hc & _).
    destruct (IH rs' eq_refl) as (-> & Hl & Hall).
    simpl. rewrite Hc, Hd. split; [done |]. split; [simpl; lia |].
    repeat constructor; [rewrite Hc | rewrite Hd |]; done.
Qed.

Lemma v1_run_ok llm seed turns t res :
  v1_run llm seed turns t res ->
  forall rs, res = Ok rs ->
    rs = v1_rounds_of t /\ length t = 2 * length rs /\
    Forall (fun c => is_ok (V1.c_reply c) = true) t.
Proof.
  induction 1 as [turns | turns c res Hopen Hstop
                 | turns c chal d res Hopen Hans Hstop
                 | turns c chal d def rest res Hopen Hans Hd Hrest IH];
    intros rs Hrs.
  - injection Hrs as <-. done.
  - subst res. unfold v1_stopped in Hstop. destruct (V1.c_reply c); done.
  - subst res. unfold v1_stopped in Hstop. destruct (V1.c_reply d); done.
  - destruct res as [rs' | |]; [| done | done]. injection Hrs as <-.
    destruct Hans as (Hc & _).
    destruct (IH rs' eq_refl) as (-> & Hl & Hall).
    simpl. rewrite Hc, Hd. split; [done |]. split; [simpl; lia |].
    repeat constructor; [rewrite Hc | rewrite Hd |]; done.
Qed.
End RunFacts.

Lemma v2_rounds_of_lookup t : forall k r,
  v2_rounds_of t !! k = Some r ->
  exists c d, t !! (2 * k) = Some c /\ t !! (2 * k + 1) = Some d /\
    V2.c_reply c = Ok (Challenger r) /\ V2.c_reply d = Ok (Defender r).
Proof.
  induction t as [t IH] using (induction_ltof1 _ length). unfold ltof in IH.
  intros k r Hr. destruct t as [| c [| d rest]]; [done | done |].
  simpl in Hr.
  destruct (V2.c_reply c) as [chal | |] eqn:Hc; [| done | done].
  destruct (V2.c_reply d) as [def | |] eqn:Hd; [| done | done].
  destruct k as [| k]; simpl in Hr.
  - injection Hr as <-. exists c, d. done.
  - destruct (IH rest ltac:(simpl; lia) k r Hr) as (x & y & Hx & Hy & Hxr & Hyr).
    exists x, y. rewrite lookup_two_more.
    replace (2 * S k + 1) with (S (S (2 * k + 1))) by lia. done.
Qed.

Lemma v1_rounds_of_lookup t : forall k r,
  v1_rounds_of t !! k = Some r ->
  exists c d, t !! (2 * k) = Some c /\ t !! (2 * k + 1) = Some d /\
    V1.c_reply c = Ok (Challenger r) /\ V1.c_reply d = Ok (Defender r).
Proof.
  induction t as [t IH] using (induction_ltof1 _ length). unfold ltof in IH.
  intros k r Hr. destruct t as [| c [| d rest]]; [done | done |].
  simpl in Hr.
  destruct (V1.c_reply c) as [chal | |] eqn:Hc; [| done | done].
  destruct (V1.c_reply d) as [def | |] eqn:Hd; [| done | done].
  destruct k as [| k]; simpl in Hr.
  - injection Hr as <-. exists c, d. done.
  - destruct (IH rest ltac:(simpl; lia) k r Hr) as (x & y & Hx & Hy & Hxr & Hyr).
    exists x, y. rewrite lookup_two_more.
    replace (2 * S k + 1) with (S (S (2 * k + 1))) by lia. done.
Qed.

(** ** The context of every Challenger call *)

(** In [src/unnamed/part_000] the Challenger call of round [k + 1] is made
    over the seed followed by the [MaxHistory] most recent turns of the [k]
    rounds before it (all of them while there are no more than that), in
    the order in which they were made; these turns are the replies of the
    [2k] calls before it, each under the role of its call. *)
Theorem v2_challenger_sees_seed_and_recent_turns
        (C P : Type) `{V2.LLMClient C} `{GoRuntime P}
        (claim : string) (config : DebateConfig) (llm : LLMConfig)
        (w : world C P) (k : nat) (c : V2.call) :
  let seed := {| Role := RoleUser; Content := claim |} in
  let t := (V2.runDebateFlow claim config llm w).1.2 in
  let turns := v2_turns (take (2 * k) t) in
  t !! (2 * k) = Some c ->
  V2.c_view c = seed :: drop (2 * k - Z.to_nat V2.MaxHistory) turns /\
  length turns = 2 * k /\
  (forall i m, turns !! i = Some m ->
     exists x s, t !! i = Some x /\ V2.c_reply x = Ok s /\
       m = {| Role := if Nat.even i then RoleChallenger else RoleDefender;
              Content := s |}).
Proof.
  intros seed t turns Hc.
  destruct (v2_flow_run claim config llm w) as [(Hnil & _) | Hrun].
  { fold t in Hnil. rewrite Hnil in Hc. done. }
  destruct (v2_run_views _ _ _ _ _ Hrun k c Hc) as [Hl Hv].
  split; [exact Hv |]. split; [exact Hl |].
  intros i m Hm.
  destruct (v2_turns_lookup _ _ _ Hm) as (x & s & Hx & Hs & ->).
  exists x, s. apply lookup_take_Some in Hx as [Hx _]. done.
Qed.

(** The theorem at the third call of the run of [TestRunDebateFlow_Basic]:
    the Challenger of round 2 sees the claim and the two turns of round 1. *)
Lemma v2_challenger_sees_seed_and_recent_turns_example :
  let seed := {| Role := RoleUser; Content := "the claim" |} in
  let t := (V2.runDebateFlow "the claim" (config0 2) llm0 start2).1.2 in
  let c := {| V2.c_model := "mC"; V2.c_system := "challenger" +:+ nl +:+ "CP";
              V2.c_prompt := "user: the claim" +:+ nl +:+ "challenger: chal" +:+ nl
                             +:+ "defender: def" +:+ nl;
              V2.c_view := [seed; {| Role := RoleChallenger; Content := "chal" |};
                            {| Role := RoleDefender; Content := "def" |}];
              V2.c_reply := Ok "chal" |} in
  t !! 2 = Some c /\
  V2.c_view c = seed :: drop (2 - Z.to_nat V2.MaxHistory) (v2_turns (take 2 t)).
Proof.
  intros seed t c.
  assert (t !! (2 * 1) = Some c) as Hc by (vm_compute; reflexivity).
  split; [exact Hc |].
  exact (proj1 (v2_challenger_sees_seed_and_recent_turns _ _ "the claim"
                  (config0 2) llm0 start2 1 c Hc)).
Defined.

(** In [src/main.go] the Challenger call of round [k + 1] is made over the
    last [MaxHistory = 10] elements of the seed followed by the turns of the
    [k] rounds before it.  The seed is at index 0 in rounds 1 to 5; from
    round 6 on the context holds ten turns of the two debaters and the seed
    is not among them. *)
Theorem v1_challenger_sees_last_ten_turns
        (C P : Type) `{V1.LLMClient C} `{GoRuntime P}
        (claim : string) (config : DebateConfig) (llm : LLMConfig)
        (w : world C P) (k : nat) (c : V1.call) :
  let seed := {| Role := RoleUser; Content := claim |} in
  let t := (V1.runDebateFlow claim config llm w).1.2 in
  let turns := v1_turns (take (2 * k) t) in
  t !! (2 * k) = Some c ->
  V1.c_view c = drop (2 * k + 1 - Z.to_nat V1.MaxHistory) (seed :: turns) /\
  length turns = 2 * k /\
  (forall i m, turns !! i = Some m ->
     exists x s, t !! i = Some x /\ V1.c_reply x = Ok s /\
       m = {| Role := if Nat.even i then RoleChallenger else RoleDefender;
              Content := s |}) /\
  (k <= 4 -> V1.c_view c !! 0 = Some seed) /\
  (5 <= k ->
   length (V1.c_view c) = 10 /\
   Forall (fun m => Role m = RoleChallenger \/ Role m = RoleDefender)
          (V1.c_view c) /\
   seed ∉ V1.c_view c).
Proof.
  intros seed t turns Hc.
  pose proof (v1_flow_run claim config llm w) as Hrun.
  destruct (v1_run_views _ _ _ _ _ Hrun k c Hc) as [Hl Hv0].
  assert (V1.c_view c = drop (S (2 * k) - 10) (seed :: turns)) as Hv by exact Hv0.
  clear Hv0. fold t turns in Hl.
  change (Z.to_nat V1.MaxHistory) with 10 in *.
  replace (2 * k + 1 - 10) with (S (2 * k) - 10) by lia.
  assert (forall i m, turns !! i = Some m ->
            exists x s, t !! i = Some x /\ V1.c_reply x = Ok s /\
              m = {| Role := if Nat.even i then RoleChallenger else RoleDefender;
                     Content := s |}) as Hturns.
  { intros i m Hm.
    destruct (v1_turns_lookup _ _ _ Hm) as (x & s & Hx & Hs & ->).
    exists x, s. apply lookup_take_Some in Hx as [Hx _]. done. }
  split; [exact Hv |]. split; [exact Hl |]. split; [exact Hturns |]. split.
  - intros Hk. rewrite Hv.
    replace (S (2 * k) - 10) with 0 by lia. done.
  - intros Hk. rewrite Hv.
    assert (Forall (fun m => Role m = RoleChallenger \/ Role m = RoleDefender)
                   (drop (S (2 * k) - 10) (seed :: turns))) as Hroles.
    { apply Forall_lookup. intros i m Hm.
      rewrite lookup_drop in Hm.
      destruct (S (2 * k) - 10 + i) as [| j] eqn:Hj; [lia |]. simpl in Hm.
      destruct (Hturns j m Hm) as (x & s & _ & _ & ->). simpl.
      destruct (Nat.even j); [left | right]; done. }
    split; [rewrite length_drop, length_cons, Hl; lia |].
    split; [exact Hroles |].
    intros Hin. rewrite Forall_forall in Hroles.
    destruct (Hroles seed Hin) as [Hr | Hr]; discriminate Hr.
Qed.

(** The theorem at the third call of two rounds with the client of the
    tests. *)
Lemma v1_challenger_sees_last_ten_turns_example :
  let seed := {| Role := RoleUser; Content := "the claim" |} in
  let t := (V1.runDebateFlow "the claim" (config0 2) llm0 start1).1.2 in
  let c := {| V1.c_model := "mC";
              V1.c_prompt := "CP" +:+ nl +:+ "user: the claim" +:+ nl +:+
                             "challenger: ok" +:+ nl +:+ "defender: ok" +:+ nl;
              V1.c_view := [seed; {| Role := RoleChallenger; Content := "ok" |};
                            {| Role := RoleDefender; Content := "ok" |}];
              V1.c_reply := Ok "ok" |} in
  t !! 2 = Some c /\
  V1.c_view c = drop (3 - Z.to_nat V1.MaxHistory) (seed :: v1_turns (take 2 t)).
Proof.
  intros seed t c.
  assert (t !! (2 * 1) = Some c) as Hc by (vm_compute; reflexivity).
  split; [exact Hc |].
  exact (proj1 (v1_challenger_sees_last_ten_turns _ _ "the claim"
                  (config0 2) llm0 start1 1 c Hc)).
Defined.

(** ** How a failed call ends the debate *)

(** In [src/unnamed/part_000], a generation call that returns an error is
    the last call of the debate: no later step runs, and [runDebateFlow]
    returns that error behind ["running challenger: "] or
    ["running defender: "], according to the step that failed. *)
Theorem v2_failed_call_is_last_and_is_reported
        (C P : Type) `{V2.LLMClient C} `{GoRuntime P}
        (claim : string) (config : DebateConfig) (llm : LLMConfig)
        (w : world C P) (i : nat) (c : V2.call) (e : error) :
  let run := V2.runDebateFlow claim config llm w in
  run.1.2 !! i = Some c -> V2.c_reply c = Err e ->
  length run.1.2 = S i /\
  run.1.1 = Err ((if Nat.even i then "running challenger: "
                  else "running defender: ") +:+ e).
Proof.
  intros run Hi He.
  destruct (v2_flow_run claim config llm w) as [(Hnil & _) | Hrun].
  { fold run in Hnil. rewrite Hnil in Hi. done. }
  exact (v2_run_failure _ _ _ _ _ Hrun i c e Hi He).
Qed.

(** The theorem with a client that answers three times: the Defender call
    of round 2 fails, and it is the fourth and last call of five rounds. *)
Lemma v2_failed_call_is_last_and_is_reported_example :
  let run := V2.runDebateFlow "the claim" (config0 5) llm0 (Flaky.answers 3) in
  length run.1.2 = 4 /\
  run.1.1 = Err "running defender: connection refused".
Proof.
  intros run.
  assert (exists c, run.1.2 !! 3 = Some c /\ V2.c_reply c = Err "connection refused")
    as (c & Hi & He) by (vm_compute; eexists; split; reflexivity).
  exact (v2_failed_call_is_last_and_is_reported _ _ "the claim" (config0 5) llm0
           (Flaky.answers 3) 3 c "connection refused" Hi He).
Defined.

(** In [src/main.go], a generation call that returns an error is the last
    call of the debate, and [runDebateFlow] returns that error as it is. *)
Theorem v1_failed_call_is_last_and_is_returned
        (C P : Type) `{V1.LLMClient C} `{GoRuntime P}
        (claim : string) (config : DebateConfig) (llm : LLMConfig)
        (w : world C P) (i : nat) (c : V1.call) (e : error) :
  let run := V1.runDebateFlow claim config llm w in
  run.1.2 !! i = Some c -> V1.c_reply c = Err e ->
  length run.1.2 = S i /\ run.1.1 = Err e.
Proof.
  intros run Hi He.
  exact (v1_run_failure _ _ _ _ _ (v1_flow_run claim config llm w) i c e Hi He).
Qed.

Lemma v1_failed_call_is_last_and_is_returned_example :
  let run := V1.runDebateFlow "the claim" (config0 5) llm0 (Flaky.answers 3) in
  length run.1.2 = 4 /\ run.1.1 = Err "connection refused".
Proof.
  intros run.
  assert (exists c, run.1.2 !! 3 = Some c /\ V1.c_reply c = Err "connection refused")
    as (c & Hi & He) by (vm_compute; eexists; split; reflexivity).
  exact (v1_failed_call_is_last_and_is_returned _ _ "the claim" (config0 5) llm0
           (Flaky.answers 3) 3 c "connection refused" Hi He).
Defined.

(** ** The rounds a debate returns *)

Section Returned.
Context {P : Type} `{GoRuntime P}.

Lemma v2_flow_ok {C} `{V2.LLMClient C} claim config llm (w : world C P) rs :
  (V2.runDebateFlow claim config llm w).1.1 = Ok rs ->
  rs = v2_rounds_of (V2.runDebateFlow claim config llm w).1.2 /\
  length (V2.runDebateFlow claim config llm w).1.2 = 2 * length rs /\
  length rs = Z.to_nat (Rounds config) /\
  Forall (fun c => is_ok (V2.c_reply c) = true)
         (V2.runDebateFlow claim config llm w).1.2.
Proof.
  intros Hok.
  pose proof (V2Facts.v2_runDebateFlow_spec claim config llm w) as Hs.
  unfold wp, V2.flow_post in Hs. rewrite Hok in Hs. destruct Hs as [_ Hn].
  destruct (v2_flow_run claim config llm w) as [(_ & _ & e & He) | Hrun];
    [congruence |].
  destruct (v2_run_ok _ _ _ _ _ Hrun rs Hok) as (Hrs & Hl & Hall). done.
Qed.

Lemma v1_flow_ok {C} `{V1.LLMClient C} claim config llm (w : world C P) rs :
  (V1.runDebateFlow claim config llm w).1.1 = Ok rs ->
  rs = v1_rounds_of (V1.runDebateFlow claim config llm w).1.2 /\
  length (V1.runDebateFlow claim config llm w).1.2 = 2 * length rs /\
  length rs = Z.to_nat (Rounds config) /\
  Forall (fun c => is_ok (V1.c_reply c) = true)
         (V1.runDebateFlow claim config llm w).1.2.
Proof.
  intros Hok.
  pose proof (V1Facts.v1_runDebateFlow_spec claim config llm w) as Hs.
  unfold wp, V1.flow_post in Hs. rewrite Hok in Hs. destruct Hs as [_ Hn].
  destruct (v1_run_ok _ _ _ _ _ (v1_flow_run claim config llm w) rs Hok)
    as (Hrs & Hl & Hall). done.
Qed.
End Returned.

(** When [runDebateFlow] of [src/unnamed/part_000] returns without error,
    it returns one round for each unit of [config.Rounds] (none when that
    is negative), it has made exactly two calls for each, all answered, and
    the [k]-th round pairs the reply of call [2k] (the Challenger's) with
    the reply of call [2k + 1] (the Defender's). *)
Theorem v2_returned_rounds_pair_the_replies
        (C P : Type) `{V2.LLMClient C} `{GoRuntime P}
        (claim : string) (config : DebateConfig) (llm : LLMConfig)
        (w : world C P) (rs : list DebateRound) :
  let run := V2.runDebateFlow claim config llm w in
  run.1.1 = Ok rs ->
  length rs = Z.to_nat (Rounds config) /\
  length run.1.2 = 2 * length rs /\
  (forall k r, rs !! k = Some r ->
     exists c d, run.1.2 !! (2 * k) = Some c /\ run.1.2 !! (2 * k + 1) = Some d /\
       V2.c_reply c = Ok (Challenger r) /\ V2.c_reply d = Ok (Defender r)).
Proof.
  intros run Hok.
  destruct (v2_flow_ok claim config llm w rs Hok) as (Hrs & Hl & Hn & _).
  split; [done |]. split; [done |].
  intros k r Hr. rewrite Hrs in Hr. exact (v2_rounds_of_lookup _ _ _ Hr).
Qed.

Lemma v2_returned_rounds_pair_the_replies_example :
  let run := V2.runDebateFlow "the claim" (config0 2) llm0 start2 in
  length run.1.2 = 4 /\
  (forall k r, [{| Challenger := "chal"; Defender := "def" |};
                {| Challenger := "chal"; Defender := "def" |}] !! k = Some r ->
     exists c d, run.1.2 !! (2 * k) = Some c /\ run.1.2 !! (2 * k + 1) = Some d /\
       V2.c_reply c = Ok (Challenger r) /\ V2.c_reply d = Ok (Defender r)).
Proof.
  intros run.
  assert (run.1.1 = Ok [{| Challenger := "chal"; Defender := "def" |};
                        {| Challenger := "chal"; Defender := "def" |}]) as Hok
      by (vm_compute; reflexivity).
  exact (proj2 (v2_returned_rounds_pair_the_replies _ _ "the claim" (config0 2)
                  llm0 start2 _ Hok)).
Defined.

(** The same of [src/main.go]. *)
Theorem v1_returned_rounds_pair_the_replies
        (C P : Type) `{V1.LLMClient C} `{GoRuntime P}
        (claim : string) (config : DebateConfig) (llm : LLMConfig)
        (w : world C P) (rs : list DebateRound) :
  let run := V1.runDebateFlow claim config llm w in
  run.1.1 = Ok rs ->
  length rs = Z.to_nat (Rounds config) /\
  length run.1.2 = 2 * length rs /\
  (forall k r, rs !! k = Some r ->
     exists c d, run.1.2 !! (2 * k) = Some c /\ run.1.2 !! (2 * k + 1) = Some d /\
       V1.c_reply c = Ok (Challenger r) /\ V1.c_reply d = Ok (Defender r)).
Proof.
  intros run Hok.
  destruct (v1_flow_ok claim config llm w rs Hok) as (Hrs & Hl & Hn & _).
  split; [done |]. split; [done |].
  intros k r Hr. rewrite Hrs in Hr. exact (v1_rounds_of_lookup _ _ _ Hr).
Qed.

Lemma v1_returned_rounds_pair_the_replies_example :
  let run := V1.runDebateFlow "the claim" (config0 2) llm0 start1 in
  length run.1.2 = 4 /\
  (forall k r, [{| Challenger := "ok"; Defender := "ok" |};
                {| Challenger := "ok"; Defender := "ok" |}] !! k = Some r ->
     exists c d, run.1.2 !! (2 * k) = Some c /\ run.1.2 !! (2 * k + 1) = Some d /\
       V1.c_reply c = Ok (Challenger r) /\ V1.c_reply d = Ok (Defender r)).
Proof.
  intros run.
  assert (run.1.1 = Ok [{| Challenger := "ok"; Defender := "ok" |};
                        {| Challenger := "ok"; Defender := "ok" |}]) as Hok
      by (vm_compute; reflexivity).
  exact (proj2 (v1_returned_rounds_pair_the_replies _ _ "the claim" (config0 2)
                  llm0 start1 _ Hok)).
Defined.

(** ** The prompts as strings *)

Lemma render_from_snoc acc view m :
  render_from acc (view ++ [m]) =
  render_from acc view +:+ (Role m +:+ ": " +:+ Content m +:+ nl).
Proof. unfold render_from. rewrite foldl_app. done. Qed.

Lemma render_from_cons view m :
  render_from "" (m :: view) =
  Role m +:+ ": " +:+ Content m +:+ nl +:+ render_from "" view.
Proof.
  unfold render_from at 1. simpl. fold (render_from ("" +:+ (Role m +:+ ": " +:+ Content m +:+ nl)) view).
  rewrite render_from_app, append_nil_l, !append_assoc. done.
Qed.

(** In [src/unnamed/part_000] the prompt of every call of the debate starts
    with the line of the claim, ["user: <claim>"], and the prompt of a
    Defender call is the prompt of the Challenger call before it followed
    by one line, ["challenger: <reply>"], holding the reply to that call. *)
Theorem v2_prompts_start_with_claim_and_grow_by_one_line
        (C P : Type) `{V2.LLMClient C} `{GoRuntime P}
        (claim : string) (config : DebateConfig) (llm : LLMConfig)
        (w : world C P) (k : nat) (c : V2.call) :
  let t := (V2.runDebateFlow claim config llm w).1.2 in
  t !! (2 * k) = Some c ->
  V2.c_system c = "challenger" +:+ nl +:+ ChalPrompt llm /\
  (exists rest, V2.c_prompt c = "user: " +:+ claim +:+ nl +:+ rest) /\
  (forall d, t !! (2 * k + 1) = Some d ->
     V2.c_system d = "defender" +:+ nl +:+ DefPrompt llm /\
     exists chal, V2.c_reply c = Ok chal /\
       V2.c_prompt d = V2.c_prompt c +:+ "challenger: " +:+ chal +:+ nl).
Proof.
  intros t Hc.
  pose proof (v2_flow_trace claim config llm w) as Htrace. fold t in Htrace.
  destruct (v2_debate_challenger _ _ _ Htrace k c Hc)
    as ((_ & Hsys & Hprompt) & Hseed & _).
  split; [exact Hsys |]. split.
  - destruct (V2.c_view c) as [| m view] eqn:Hview; [done |].
    injection Hseed as ->. exists (render_from "" view).
    rewrite Hprompt, render_from_cons. done.
  - intros d Hd.
    destruct (v2_debate_defender _ _ _ Htrace k d Hd)
      as (c' & Hc' & _ & (_ & Hdsys & Hdprompt) & _ & chal & Hr & Hv).
    rewrite Hc in Hc'. injection Hc' as <-.
    split; [exact Hdsys |]. exists chal. split; [exact Hr |].
    rewrite Hdprompt, Hv, render_from_snoc, <- Hprompt. done.
Qed.

Lemma v2_prompts_start_with_claim_and_grow_by_one_line_example :
  let t := (V2.runDebateFlow "the claim" (config0 2) llm0 start2).1.2 in
  let c := {| V2.c_model := "mC"; V2.c_system := "challenger" +:+ nl +:+ "CP";
              V2.c_prompt := "user: the claim" +:+ nl;
              V2.c_view := [{| Role := RoleUser; Content := "the claim" |}];
              V2.c_reply := Ok "chal" |} in
  t !! 0 = Some c /\
  forall d, t !! 1 = Some d ->
    exists chal, V2.c_reply c = Ok chal /\
      V2.c_prompt d = V2.c_prompt c +:+ "challenger: " +:+ chal +:+ nl.
Proof.
  intros t c.
  assert (t !! (2 * 0) = Some c) as Hc by (vm_compute; reflexivity).
  split; [exact Hc |]. intros d Hd.
  exact (proj2 (proj2 (proj2 (v2_prompts_start_with_claim_and_grow_by_one_line
                                _ _ "the claim" (config0 2) llm0 start2 0 c Hc))
                  d Hd)).
Defined.

(** In [src/main.go] the one prompt string of a Challenger call is the
    Challenger instruction, a newline and the transcript of its context;
    the prompt of the Defender call after it is the Defender instruction, a
    newline, the same transcript and one more line, ["challenger: <reply>"]. *)
Theorem v1_defender_prompt_extends_the_transcript
        (C P : Type) `{V1.LLMClient C} `{GoRuntime P}
        (claim : string) (config : DebateConfig) (llm : LLMConfig)
        (w : world C P) (k : nat) (d : V1.call) :
  let t := (V1.runDebateFlow claim config llm w).1.2 in
  t !! (2 * k + 1) = Some d ->
  exists c chal,
    t !! (2 * k) = Some c /\ V1.c_reply c = Ok chal /\
    let transcript := render_from "" (V1.c_view c) in
    V1.c_prompt c = ChalPrompt llm +:+ nl +:+ transcript /\
    V1.c_prompt d = DefPrompt llm +:+ nl +:+ transcript +:+
                    "challenger: " +:+ chal +:+ nl.
Proof.
  intros t Hd.
  pose proof (v1_flow_trace claim config llm w) as Htrace. fold t in Htrace.
  destruct (v1_debate_defender _ _ Htrace k d Hd)
    as (c & Hc & (_ & Hprompt) & (_ & Hdprompt) & _ & chal & Hr & Hv).
  exists c, chal. split; [exact Hc |]. split; [exact Hr |]. simpl. split.
  - rewrite Hprompt, render_from_app, append_assoc. done.
  - rewrite Hdprompt, Hv, render_from_snoc, render_from_app, !append_assoc. done.
Qed.

Lemma v1_defender_prompt_extends_the_transcript_example :
  let t := (V1.runDebateFlow "the claim" (config0 2) llm0 start1).1.2 in
  exists c chal,
    t !! 0 = Some c /\ V1.c_reply c = Ok chal /\
    V1.c_prompt c = "CP" +:+ nl +:+ render_from "" (V1.c_view c).
Proof.
  intros t.
  assert (exists d, t !! (2 * 0 + 1) = Some d) as [d Hd]
      by (vm_compute; eexists; reflexivity).
  destruct (v1_defender_prompt_extends_the_transcript _ _ "the claim" (config0 2)
              llm0 start1 0 d Hd) as (c & chal & Hc & Hr & Hp & _).
  exists c, chal. exact (conj Hc (conj Hr Hp)).
Defined.

(** ** The command line: what is checked before the debate *)

Section FlagFacts.
Context {C P E : Type} `{GoRuntime P}.
Implicit Types (w : world C P).

(** [mustLoadPrompt] never returns an error: the prompt is the fallback
    when no path is given, in which case nothing is read, or when the file
    cannot be read; it is the content of the file otherwise. *)
Lemma mustLoadPrompt_spec path fallback w :
  let r := mustLoadPrompt (E := E) path fallback w in
  r.1.2 = [] /\
  (forall e, r.1.1 <> Err e) /\
  (path = "" -> r = (Ok fallback, [], w)) /\
  (forall s, r.1.1 = Ok s ->
     s = fallback \/ path <> "" /\ (ReadFile (w_proc w) path).1 = Ok s) /\
  (forall e, path <> "" -> (ReadFile (w_proc w) path).1 = Err e ->
     r.1.1 = Ok fallback) /\
  (forall data, path <> "" -> (ReadFile (w_proc w) path).1 = Ok data ->
     r.1.1 = Ok data).
Proof.
  unfold mustLoadPrompt. case_bool_decide as Hpath.
  - simpl. repeat split; try done. intros s [= <-]. left. done.
  - unfold eprintf_. unfold bind, on_proc, ret, lift. simpl.
    destruct (ReadFile (w_proc w) path) as [[data | e | p] q]; simpl.
    + repeat split; try done. intros s [= <-]. right. done.
    + destruct (Stderr _ _) as [o q']. simpl.
      repeat split; try done. intros s [= <-]. left. done.
    + repeat split; done.
Qed.

Lemma parseFlags_shape cmd w :
  (parseFlags (E := E) cmd w).1.2 = [] /\
  forall config llm, (parseFlags (E := E) cmd w).1.1 = Ok (config, llm) ->
    config = {| Rounds := flag_rounds cmd; Duration := flag_duration cmd;
                InputFile := flag_input cmd; OutputFile := flag_output cmd |} /\
    ChallengerModel llm = flag_challenger cmd /\
    DefenderModel llm = flag_defender cmd.
Proof.
  apply (wp_parseFlags cmd
           (fun r t _ => t = [] /\ forall config llm, r = Ok (config, llm) ->
              config = {| Rounds := flag_rounds cmd; Duration := flag_duration cmd;
                          InputFile := flag_input cmd;
                          OutputFile := flag_output cmd |} /\
              ChallengerModel llm = flag_challenger cmd /\
              DefenderModel llm = flag_defender cmd) w).
  - done.
  - done.
  - intros chal def w'. split; [done |]. intros config llm [= <- <-]. done.
Qed.

(** What [mustLoadPrompt] returns, from what [os.ReadFile] returns in the
    state it is called in. *)
Lemma mustLoadPrompt_loads path fallback w s :
  (path = "" /\ s = fallback \/
   path <> "" /\ ((ReadFile (w_proc w) path).1 = Ok s \/
                  exists e, (ReadFile (w_proc w) path).1 = Err e /\ s = fallback)) ->
  (mustLoadPrompt (E := E) path fallback w).1 = (Ok s, []).
Proof.
  destruct (mustLoadPrompt_spec path fallback w) as (Ht & _ & Hempty & _ & Herr & Hdata).
  intros [[Hp ->] | [Hp [Hr | (e & Hr & ->)]]].
  - by rewrite (Hempty Hp).
  - specialize (Hdata s Hp Hr).
    destruct (mustLoadPrompt path fallback w) as [[o t] w']; simpl in *. by subst.
  - specialize (Herr e Hp Hr).
    destruct (mustLoadPrompt path fallback w) as [[o t] w']; simpl in *. by subst.
Qed.

(** The state [mustLoadPrompt] leaves: that of the read, and of the warning
    written to standard error when the read fails. *)
Lemma mustLoadPrompt_state path fallback w :
  path <> "" ->
  (forall data, (ReadFile (w_proc w) path).1 = Ok data ->
     (mustLoadPrompt (E := E) path fallback w).2 =
       with_proc w (ReadFile (w_proc w) path).2) /\
  (forall e, (ReadFile (w_proc w) path).1 = Err e ->
     (mustLoadPrompt (E := E) path fallback w).2 =
       with_proc w (Stderr (ReadFile (w_proc w) path).2
                      ("⚠️ Warning: failed to load prompt " +:+ path +:+
                       ", using default" +:+ nl)).2).
Proof.
  intros Hpath. unfold mustLoadPrompt. rewrite bool_decide_eq_false_2 by done.
  unfold eprintf_. unfold bind, on_proc, ret, lift. simpl.
  destruct (ReadFile (w_proc w) path) as [[data | e | p] q]; simpl.
  - split; [done |]. intros e [=].
  - destruct (Stderr _ _) as [o q']. simpl. split; [intros data [=] | done].
  - split; [intros data [=] | intros e [=]].
Qed.

Lemma parseFlags_loads cmd w chal def :
  let chalDefault := "You are the Challenger. Attack ruthlessly:" in
  let defDefault := "You are the Defender. Represent the user:" in
  let chalRead := ReadFile (w_proc w) (flag_challenger_prompt cmd) in
  let afterChal :=
    w_proc (mustLoadPrompt (E := E) (flag_challenger_prompt cmd) chalDefault w).2 in
  let defRead := ReadFile afterChal (flag_defender_prompt cmd) in
  flag_input cmd <> "" -> flag_output cmd <> "" ->
  (flag_challenger_prompt cmd = "" /\ chal = chalDefault \/
   flag_challenger_prompt cmd <> "" /\
     (chalRead.1 = Ok chal \/ exists e, chalRead.1 = Err e /\ chal = chalDefault)) ->
  (flag_defender_prompt cmd = "" /\ def = defDefault \/
   flag_defender_prompt cmd <> "" /\
     (defRead.1 = Ok def \/ exists e, defRead.1 = Err e /\ def = defDefault)) ->
  (parseFlags (E := E) cmd w).1 =
    (Ok ({| Rounds := flag_rounds cmd; Duration := flag_duration cmd;
            InputFile := flag_input cmd; OutputFile := flag_output cmd |},
         {| ChallengerModel := flag_challenger cmd;
            DefenderModel := flag_defender cmd;
            ChalPrompt := chal; DefPrompt := def |}), []).
Proof.
  intros chalDefault defDefault chalRead afterChal defRead Hin Hout Hc Hd.
  subst chalRead defRead afterChal.
  unfold parseFlags. rewrite bool_decide_eq_false_2 by (intros [? | ?]; done).
  fold chalDefault defDefault. unfold bind.
  pose proof (mustLoadPrompt_loads _ chalDefault w chal Hc) as H1.
  destruct (mustLoadPrompt (flag_challenger_prompt cmd) chalDefault w)
    as [[o1 t1] w1]; simpl in *. injection H1 as -> ->.
  pose proof (mustLoadPrompt_loads _ defDefault w1 def Hd) as H2.
  destruct (mustLoadPrompt (flag_defender_prompt cmd) defDefault w1)
    as [[o2 t2] w2]; simpl in *. injection H2 as -> ->.
  done.
Qed.
End FlagFacts.

(** [parseFlags] fails exactly when [--input] or [--output] is empty, and
    then before it reads anything.  Otherwise it never returns an error: it
    hands on the flags as they are, and each role instruction is the
    built-in default when its flag is empty; otherwise it is the content of
    the named file when [os.ReadFile], called in the state the process is
    in at that point, returns it, and the default when that call returns an
    error (after a warning on standard error); and whenever each read
    returns one or the other, [parseFlags] returns the configuration with
    exactly these instructions. *)
Theorem parseFlags_fails_only_without_input_or_output
        (C P E : Type) `{GoRuntime P} (cmd : Flags) (w : world C P) :
  let r := parseFlags (E := E) cmd w in
  let chalDefault := "You are the Challenger. Attack ruthlessly:" in
  let defDefault := "You are the Defender. Represent the user:" in
  let chalRead := ReadFile (w_proc w) (flag_challenger_prompt cmd) in
  let afterChal :=
    w_proc (mustLoadPrompt (E := E) (flag_challenger_prompt cmd) chalDefault w).2 in
  let defRead := ReadFile afterChal (flag_defender_prompt cmd) in
  r.1.2 = [] /\
  (flag_input cmd = "" \/ flag_output cmd = "" ->
   r = (Err "input and output required", [], w)) /\
  (flag_input cmd <> "" -> flag_output cmd <> "" ->
   (forall e, r.1.1 <> Err e) /\
   (flag_challenger_prompt cmd = "" -> flag_defender_prompt cmd = "" ->
    r = (Ok ({| Rounds := flag_rounds cmd; Duration := flag_duration cmd;
                InputFile := flag_input cmd; OutputFile := flag_output cmd |},
             {| ChallengerModel := flag_challenger cmd;
                DefenderModel := flag_defender cmd;
                ChalPrompt := chalDefault; DefPrompt := defDefault |}), [], w)) /\
   forall config llm, r.1.1 = Ok (config, llm) ->
     config = {| Rounds := flag_rounds cmd; Duration := flag_duration cmd;
                 InputFile := flag_input cmd; OutputFile := flag_output cmd |} /\
     ChallengerModel llm = flag_challenger cmd /\
     DefenderModel llm = flag_defender cmd /\
     (flag_challenger_prompt cmd = "" -> ChalPrompt llm = chalDefault) /\
     (flag_defender_prompt cmd = "" -> DefPrompt llm = defDefault) /\
     (ChalPrompt llm = chalDefault \/
      exists p, (ReadFile p (flag_challenger_prompt cmd)).1 = Ok (ChalPrompt llm)) /\
     (DefPrompt llm = defDefault \/
      exists p, (ReadFile p (flag_defender_prompt cmd)).1 = Ok (DefPrompt llm)) /\
     ((forall p, is_ok (ReadFile p (flag_challenger_prompt cmd)).1 = false) ->
      ChalPrompt llm = chalDefault) /\
     ((forall p, is_ok (ReadFile p (flag_defender_prompt cmd)).1 = false) ->
      DefPrompt llm = defDefault) /\
     (flag_challenger_prompt cmd <> "" ->
      (forall data, chalRead.1 = Ok data -> ChalPrompt llm = data) /\
      (forall e, chalRead.1 = Err e -> ChalPrompt llm = chalDefault)) /\
     (flag_defender_prompt cmd <> "" ->
      (forall data, defRead.1 = Ok data -> DefPrompt llm = data) /\
      (forall e, defRead.1 = Err e -> DefPrompt llm = defDefault)) /\
     (flag_challenger_prompt cmd = "" -> afterChal = w_proc w)) /\
  (flag_input cmd <> "" -> flag_output cmd <> "" ->
   forall chal def,
     (flag_challenger_prompt cmd = "" /\ chal = chalDefault \/
      flag_challenger_prompt cmd <> "" /\
        (chalRead.1 = Ok chal \/
         exists e, chalRead.1 = Err e /\ chal = chalDefault)) ->
     (flag_defender_prompt cmd = "" /\ def = defDefault \/
      flag_defender_prompt cmd <> "" /\
        (defRead.1 = Ok def \/
         exists e, defRead.1 = Err e /\ def = defDefault)) ->
     r.1 = (Ok ({| Rounds := flag_rounds cmd; Duration := flag_duration cmd;
                   InputFile := flag_input cmd; OutputFile := flag_output cmd |},
                {| ChallengerModel := flag_challenger cmd;
                   DefenderModel := flag_defender cmd;
                   ChalPrompt := chal; DefPrompt := def |}), [])) /\
  (flag_challenger_prompt cmd <> "" ->
   (forall data, chalRead.1 = Ok data -> afterChal = chalRead.2) /\
   (forall e, chalRead.1 = Err e ->
      afterChal = (Stderr chalRead.2
                     ("⚠️ Warning: failed to load prompt " +:+
                      flag_challenger_prompt cmd +:+ ", using default" +:+ nl)).2)).
Proof.
  intros r chalDefault defDefault chalRead afterChal defRead.
  subst r chalRead defRead afterChal.
  split; [apply parseFlags_shape |]. split.
  { intros Hmissing. unfold parseFlags.
    rewrite bool_decide_eq_true_2 by done. done. }
  split; [| split].
  2: { intros Hin Hout chal def Hc Hd.
       exact (parseFlags_loads cmd w chal def Hin Hout Hc Hd). }
  2: { intros Hpath.
       destruct (mustLoadPrompt_state (E := E) (flag_challenger_prompt cmd)
                   chalDefault w Hpath) as [Hdata Herr].
       split.
       - intros data Hread. by rewrite (Hdata data Hread).
       - intros e Hread. by rewrite (Herr e Hread). }
  intros Hin Hout. unfold parseFlags.
  rewrite bool_decide_eq_false_2 by (intros [? | ?]; done).
  fold chalDefault defDefault. unfold bind.
  destruct (mustLoadPrompt_spec (E := E) (flag_challenger_prompt cmd) chalDefault w)
    as (Ht1 & Hne1 & Hempty1 & Hok1 & Herr1 & Hdata1).
  destruct (mustLoadPrompt (flag_challenger_prompt cmd) chalDefault w)
    as [[[chal | e1 | p1] t1] w1]; simpl in *; subst t1.
  2: { destruct (Hne1 e1 eq_refl). }
  2: { split; [done |]. split; [| done]. intros Hc _. specialize (Hempty1 Hc). done. }
  destruct (mustLoadPrompt_spec (E := E) (flag_defender_prompt cmd) defDefault w1)
    as (Ht2 & Hne2 & Hempty2 & Hok2 & Herr2 & Hdata2).
  destruct (mustLoadPrompt (flag_defender_prompt cmd) defDefault w1)
    as [[[def | e2 | p2] t2] w2]; simpl in *; subst t2.
  2: { destruct (Hne2 e2 eq_refl). }
  2: { split; [done |]. split; [| done]. intros _ Hd. specialize (Hempty2 Hd). done. }
  split; [done |]. split.
  { intros Hc Hd. specialize (Hempty1 Hc). specialize (Hempty2 Hd).
    injection Hempty1 as -> ->. injection Hempty2 as -> ->. done. }
  intros config llm [= <- <-]. simpl.
  split; [done |]. split; [done |]. split; [done |].
  split. { intros Hc. specialize (Hempty1 Hc). congruence. }
  split. { intros Hd. specialize (Hempty2 Hd). congruence. }
  assert (chal = chalDefault \/
          exists p, (ReadFile p (flag_challenger_prompt cmd)).1 = Ok chal) as Hchal.
  { destruct (Hok1 chal eq_refl) as [-> | [_ Hread]]; [left; done |].
    right. eexists. exact Hread. }
  assert (def = defDefault \/
          exists p, (ReadFile p (flag_defender_prompt cmd)).1 = Ok def) as Hdef.
  { destruct (Hok2 def eq_refl) as [-> | [_ Hread]]; [left; done |].
    right. eexists. exact Hread. }
  split; [exact Hchal |]. split; [exact Hdef |].
  split.
  { intros Hfail. destruct Hchal as [-> | [p Hp]]; [done |].
    specialize (Hfail p). rewrite Hp in Hfail. done. }
  split.
  { intros Hfail. destruct Hdef as [-> | [p Hp]]; [done |].
    specialize (Hfail p). rewrite Hp in Hfail. done. }
  split.
  { intros Hpath. split.
    - intros data Hread. specialize (Hdata1 data Hpath Hread). congruence.
    - intros e Hread. specialize (Herr1 e Hpath Hread). congruence. }
  split.
  { intros Hpath. split.
    - intros data Hread. specialize (Hdata2 data Hpath Hread). congruence.
    - intros e Hread. specialize (Herr2 e Hpath Hread). congruence. }
  intros Hpath. specialize (Hempty1 Hpath). congruence.
Qed.

(** With the process of the examples, in which only ["notes.md"] can be
    read: the Challenger instruction is the content of that file, the
    Defender instruction the default. *)
Example parseFlags_reads_the_prompt_files :
  (parseFlags (E := V2.call)
     {| flag_input := "notes.md"; flag_output := "report.md"; flag_rounds := 2;
        flag_duration := ""; flag_challenger := "mC"; flag_defender := "mD";
        flag_challenger_prompt := "notes.md";
        flag_defender_prompt := "missing.txt" |} start2).1 =
    (Ok (config0 2,
         {| ChallengerModel := "mC"; DefenderModel := "mD";
            ChalPrompt := "the claim";
            DefPrompt := "You are the Defender. Represent the user:" |}), []).
Proof. vm_compute. reflexivity. Qed.

(** ** The command line: errors before the first call *)

(** A round count above zero together with a duration is rejected right
    after the flags are parsed, in both variants: no generation call is
    made, the input file is not read, and the process is left as
    [parseFlags] left it. *)
Theorem rounds_and_duration_exclude_each_other
        (P C1 C2 : Type) `{GoRuntime P} `{V1.LLMClient C1} `{V2.LLMClient C2}
        (cmd : Flags) (w1 : world C1 P) (w2 : world C2 P) :
  (0 < flag_rounds cmd)%Z -> flag_duration cmd <> "" ->
  V2.runCLI cmd w2 =
    (match (parseFlags (E := V2.call) cmd w2).1.1 with
     | Ok _ => Err "--rounds and --duration cannot be used together"
     | Err e => Err e
     | Panic p => Panic p
     end, [], (parseFlags (E := V2.call) cmd w2).2) /\
  V1.runCLI cmd w1 =
    (match (parseFlags (E := V1.call) cmd w1).1.1 with
     | Ok _ => Err "--rounds and --duration cannot be used together"
     | Err e => Err e
     | Panic p => Panic p
     end, [], (parseFlags (E := V1.call) cmd w1).2).
Proof.
  intros Hrounds Hdur. split.
  - unfold V2.runCLI. generalize MaxInt. intros big. unfold bind at 1.
    destruct (parseFlags_shape (E := V2.call) cmd w2) as [Ht Hshape].
    destruct (parseFlags cmd w2) as [[[[config llm] | e | p] t] w']; simpl in *;
      subst t; [| done | done].
    destruct (Hshape config llm eq_refl) as (-> & _). cbn [Rounds Duration].
    rewrite bool_decide_eq_true_2 by done.
    rewrite bool_decide_eq_false_2 by done. done.
  - unfold V1.runCLI. unfold bind at 1.
    destruct (parseFlags_shape (E := V1.call) cmd w1) as [Ht Hshape].
    destruct (parseFlags cmd w1) as [[[[config llm] | e | p] t] w']; simpl in *;
      subst t; [| done | done].
    destruct (Hshape config llm eq_refl) as (-> & _). cbn [Rounds Duration].
    rewrite bool_decide_eq_true_2 by done.
    rewrite bool_decide_eq_false_2 by done. done.
Qed.

(** The theorem on [--rounds 3 --duration 1m]. *)
Lemma rounds_and_duration_exclude_each_other_example :
  V2.runCLI (flags0 3 "1m") start2 =
    (Err "--rounds and --duration cannot be used together", [], start2) /\
  V1.runCLI (flags0 3 "1m") start1 =
    (Err "--rounds and --duration cannot be used together", [], start1).
Proof.
  exact (rounds_and_duration_exclude_each_other proc _ _ (flags0 3 "1m")
           start1 start2 eq_refl ltac:(discriminate)).
Defined.

(** When the flags are accepted, an input file that cannot be read ends the
    run with ["reading input file: ..."], and a client that cannot be
    created ends it with ["creating client: ..."]; in either case no
    generation call has been made, in both variants. *)
Theorem unreadable_input_or_missing_client_stops_before_any_call
        (P C1 C2 : Type) `{GoRuntime P} `{V1.LLMClient C1} `{V2.LLMClient C2}
        (cmd : Flags) (w1 : world C1 P) (w2 : world C2 P) :
  ((flag_rounds cmd <= 0)%Z \/ flag_duration cmd = "") ->
  is_ok (parseFlags (E := V2.call) cmd w2).1.1 = true ->
  is_ok (parseFlags (E := V1.call) cmd w1).1.1 = true ->
  let p2 := w_proc (parseFlags (E := V2.call) cmd w2).2 in
  let p1 := w_proc (parseFlags (E := V1.call) cmd w1).2 in
  let read2 := ReadFile p2 (flag_input cmd) in
  let read1 := ReadFile p1 (flag_input cmd) in
  (forall e, read2.1 = Err e ->
     (V2.runCLI cmd w2).1 = (Err ("reading input file: " +:+ e), [])) /\
  (forall input e, read2.1 = Ok input -> ClientFromEnvironment read2.2 = Some e ->
     (V2.runCLI cmd w2).1 = (Err ("creating client: " +:+ e), [])) /\
  (forall e, read1.1 = Err e ->
     (V1.runCLI cmd w1).1 = (Err ("reading input file: " +:+ e), [])) /\
  (forall input e, read1.1 = Ok input -> ClientFromEnvironment read1.2 = Some e ->
     (V1.runCLI cmd w1).1 = (Err ("creating client: " +:+ e), [])).
Proof.
  intros Hexcl Hok2 Hok1 p2 p1 read2 read1.
  assert (forall config, config = {| Rounds := flag_rounds cmd;
                                     Duration := flag_duration cmd;
                                     InputFile := flag_input cmd;
                                     OutputFile := flag_output cmd |} ->
          bool_decide (0 < Rounds config)%Z &&
          negb (bool_decide (Duration config = "")) = false) as Hcheck.
  { intros config ->. simpl. destruct Hexcl as [Hr | Hd].
    - rewrite bool_decide_eq_false_2 by lia. done.
    - rewrite (bool_decide_eq_true_2 _ Hd). apply andb_false_r. }
  assert (forall input e, read2.1 = Ok input -> ClientFromEnvironment read2.2 = Some e ->
            (V2.runCLI cmd w2).1 = (Err ("creating client: " +:+ e), []) ) as Hclient2.
  { intros input e Hread Hclient. subst read2 p2.
    unfold V2.runCLI. generalize MaxInt. intros big. unfold bind at 1.
    destruct (parseFlags_shape (E := V2.call) cmd w2) as [Ht Hshape].
    destruct (parseFlags cmd w2) as [[[[config llm] | e' | p'] t] w']; simpl in *;
      subst t; [| done | done].
    destruct (Hshape config llm eq_refl) as (Hcfg & _).
    rewrite (Hcheck _ Hcfg). subst config. cbn [InputFile].
    unfold bind at 1. unfold loadInput, bind at 1, on_proc.
    destruct (ReadFile (w_proc w') (flag_input cmd)) as [r q]. simpl in *.
    subst r. simpl. unfold bind at 1, clientFromEnvironment. simpl.
    rewrite Hclient. done. }
  assert (forall input e, read1.1 = Ok input -> ClientFromEnvironment read1.2 = Some e ->
            (V1.runCLI cmd w1).1 = (Err ("creating client: " +:+ e), []) ) as Hclient1.
  { intros input e Hread Hclient. subst read1 p1.
    unfold V1.runCLI. unfold bind at 1.
    destruct (parseFlags_shape (E := V1.call) cmd w1) as [Ht Hshape].
    destruct (parseFlags cmd w1) as [[[[config llm] | e' | p'] t] w']; simpl in *;
      subst t; [| done | done].
    destruct (Hshape config llm eq_refl) as (Hcfg & _).
    rewrite (Hcheck _ Hcfg). subst config. cbn [InputFile].
    unfold bind at 1. unfold loadInput, bind at 1, on_proc.
    destruct (ReadFile (w_proc w') (flag_input cmd)) as [r q]. simpl in *.
    subst r. simpl. unfold bind at 1, clientFromEnvironment. simpl.
    rewrite Hclient. done. }
  split; [| split; [exact Hclient2 | split; [| exact Hclient1]]].
  - intros e Hread. subst read2 p2.
    unfold V2.runCLI. generalize MaxInt. intros big. unfold bind at 1.
    destruct (parseFlags_shape (E := V2.call) cmd w2) as [Ht Hshape].
    destruct (parseFlags cmd w2) as [[[[config llm] | e' | p'] t] w']; simpl in *;
      subst t; [| done | done].
    destruct (Hshape config llm eq_refl) as (Hcfg & _).
    rewrite (Hcheck _ Hcfg). subst config. cbn [InputFile].
    unfold bind at 1. unfold loadInput, bind at 1, on_proc.
    destruct (ReadFile (w_proc w') (flag_input cmd)) as [r q]. simpl in *.
    subst r. done.
  - intros e Hread. subst read1 p1.
    unfold V1.runCLI. unfold bind at 1.
    destruct (parseFlags_shape (E := V1.call) cmd w1) as [Ht Hshape].
    destruct (parseFlags cmd w1) as [[[[config llm] | e' | p'] t] w']; simpl in *;
      subst t; [| done | done].
    destruct (Hshape config llm eq_refl) as (Hcfg & _).
    rewrite (Hcheck _ Hcfg). subst config. cbn [InputFile].
    unfold bind at 1. unfold loadInput, bind at 1, on_proc.
    destruct (ReadFile (w_proc w') (flag_input cmd)) as [r q]. simpl in *.
    subst r. done.
Qed.

(** The theorem on [--input missing.md --output report.md]. *)
Lemma unreadable_input_or_missing_client_stops_before_any_call_example :
  let cmd := {| flag_input := "missing.md"; flag_output := "report.md";
                flag_rounds := 2; flag_duration := "";
                flag_challenger := "mC"; flag_defender := "mD";
                flag_challenger_prompt := ""; flag_defender_prompt := "" |} in
  (V2.runCLI cmd start2).1 =
    (Err "reading input file: open missing.md: no such file or directory", []) /\
  (V1.runCLI cmd start1).1 =
    (Err "reading input file: open missing.md: no such file or directory", []).
Proof.
  intros cmd.
  destruct (unreadable_input_or_missing_client_stops_before_any_call proc _ _
              cmd start1 start2 (or_intror eq_refl) eq_refl eq_refl)
    as (H2 & _ & H1 & _).
  exact (conj (H2 _ eq_refl) (H1 _ eq_refl)).
Defined.

(** ** The command line: a run that writes its report *)

Section ReportFacts.
Context {P : Type} `{GoRuntime P}.

Lemma wp_writeOutput_result {C E} path report
      (Q : outcome unit -> list E -> world C P -> Prop) (w : world C P) :
  Q (match (WriteFile (w_proc w) path report).1 with
     | Some e => Err e
     | None => Ok tt
     end) [] (with_proc w (WriteFile (w_proc w) path report).2) ->
  wp (writeOutput path report) Q w.
Proof.
  intros HQ. unfold writeOutput. apply wp_bind, wp_on_proc.
  destruct (WriteFile (w_proc w) path report) as [[e |] p]; simpl in *; done.
Qed.

(** The debate, the summary and the write, once the round count is known. *)
Lemma v2_debate_then_report {C} `{V2.LLMClient C} input config llm path
      (w : world C P) :
  wp (debate <- V2.runDebateFlow input config llm ;;
      report <- V2.summarizeDebate debate (ChallengerModel llm) ;;
      writeOutput path report)
     (fun r t w' =>
        r = Ok tt ->
        exists debate c report,
          t = debate ++ [c] /\
          length debate = 2 * Z.to_nat (Rounds config) /\
          Forall (fun x => is_ok (V2.c_reply x) = true) debate /\
          V2.c_model c = ChallengerModel llm /\
          V2.c_system c = summaryInstruction /\
          V2.c_view c =
            [{| Role := RoleSystem;
                Content := summary_text 0 (v2_rounds_of debate) "" |}] /\
          V2.c_prompt c = render_from "" (V2.c_view c) /\
          V2.c_reply c = Ok report /\
          exists p, WriteFile p path report = (None, w_proc w')) w.
Proof.
  apply wp_bind, wp_of_run.
  destruct ((V2.runDebateFlow input config llm w).1.1) as [rs | e | p] eqn:Hflow;
    [| done | done].
  destruct (v2_flow_ok input config llm w rs Hflow) as (Hrs & Hl & Hn & Hall).
  set (debate := (V2.runDebateFlow input config llm w).1.2) in *.
  set (w1 := (V2.runDebateFlow input config llm w).2).
  apply wp_bind, wp_of_run.
  destruct (v2_summarize_trace rs (ChallengerModel llm) w1) as [Hts Hres].
  simpl in Hts, Hres. rewrite Hts.
  set (w2 := (V2.summarizeDebate rs (ChallengerModel llm) w1).2).
  destruct ((V2.summarizeDebate rs (ChallengerModel llm) w1).1.1)
    as [report | e | p] eqn:Hsum; [| done | done].
  apply wp_writeOutput_result.
  destruct (WriteFile (w_proc w2) path report) as [[e |] p] eqn:Hwrite; simpl;
    [done |].
  intros _. eexists debate, _, report.
  split; [reflexivity |].
  split; [lia |]. split; [done |]. simpl.
  split; [done |]. split; [done |]. split; [rewrite Hrs; done |].
  split; [done |]. split; [symmetry; exact Hres |].
  exists (w_proc w2). done.
Qed.

Lemma v1_debate_then_report {C} `{V1.LLMClient C} input config llm path
      (w : world C P) :
  wp (debate <- V1.runDebateFlow input config llm ;;
      report <- V1.summarizeDebate debate (ChallengerModel llm) ;;
      writeOutput path report)
     (fun r t w' =>
        r = Ok tt ->
        exists debate c report,
          t = debate ++ [c] /\
          length debate = 2 * Z.to_nat (Rounds config) /\
          Forall (fun x => is_ok (V1.c_reply x) = true) debate /\
          V1.c_model c = ChallengerModel llm /\
          V1.c_view c =
            [{| Role := RoleSystem;
                Content := summary_text 0 (v1_rounds_of debate) "" |}] /\
          V1.c_prompt c = render_from (summaryInstruction +:+ nl) (V1.c_view c) /\
          V1.c_reply c = Ok report /\
          exists p, WriteFile p path report = (None, w_proc w')) w.
Proof.
  apply wp_bind, wp_of_run.
  destruct ((V1.runDebateFlow input config llm w).1.1) as [rs | e | p] eqn:Hflow;
    [| done | done].
  destruct (v1_flow_ok input config llm w rs Hflow) as (Hrs & Hl & Hn & Hall).
  set (debate := (V1.runDebateFlow input config llm w).1.2) in *.
  set (w1 := (V1.runDebateFlow input config llm w).2).
  apply wp_bind, wp_of_run.
  destruct (v1_summarize_trace rs (ChallengerModel llm) w1) as [Hts Hres].
  simpl in Hts, Hres. rewrite Hts.
  set (w2 := (V1.summarizeDebate rs (ChallengerModel llm) w1).2).
  destruct ((V1.summarizeDebate rs (ChallengerModel llm) w1).1.1)
    as [report | e | p] eqn:Hsum; [| done | done].
  apply wp_writeOutput_result.
  destruct (WriteFile (w_proc w2) path report) as [[e |] p] eqn:Hwrite; simpl;
    [done |].
  intros _. eexists debate, _, report.
  split; [reflexivity |].
  split; [lia |]. split; [done |]. simpl.
  split; [done |]. split; [rewrite Hrs; done |].
  split; [rewrite !append_assoc; done |]. split; [symmetry; exact Hres |].
  exists (w_proc w2). done.
Qed.

Lemma v2_runCLI_reported {C} `{V2.LLMClient C} cmd (w : world C P) :
  wp (V2.runCLI cmd) (fun r t w' => r = Ok tt -> v2_reported cmd t w') w.
Proof.
  unfold V2.runCLI, v2_reported.
  assert (0 < MaxInt)%Z as Hbig by done. revert Hbig.
  generalize MaxInt. intros big Hbig.
  apply wp_bind, wp_parseFlags; [done | done |]. intros chal def w1.
  set (llm := {| ChallengerModel := flag_challenger cmd;
                 DefenderModel := flag_defender cmd;
                 ChalPrompt := chal; DefPrompt := def |}).
  cbn [Rounds Duration InputFile OutputFile].
  destruct (bool_decide (0 < flag_rounds cmd)%Z &&
            negb (bool_decide (flag_duration cmd = ""))) eqn:Hexcl;
    [apply wp_fail; done |].
  apply wp_bind, wp_loadInput. intros [input | e1 | p1] w2; [| done | done].
  apply wp_bind, wp_clientFromEnvironment. intros [[] | e2 | p2]; [| done | done].
  apply wp_bind.
  destruct (bool_decide (flag_rounds cmd = 0%Z) &&
            negb (bool_decide (flag_duration cmd = ""))) eqn:Hest.
  - (* the round count is estimated *)
    apply andb_prop in Hest as [Hzero Hdur].
    apply bool_decide_eq_true_1 in Hzero.
    apply negb_true_iff, bool_decide_eq_false_1 in Hdur.
    apply wp_of_run.
    destruct (v2_estimateRounds_unfold input llm (flag_duration cmd) w2) as [Ht Hr].
    simpl in Ht, Hr.
    pose proof (v2_trial_calls input llm (with_proc w2 (Now (w_proc w2)).2))
      as [_ Hl].
    fold (V2.trialRun input llm w2) in Hl.
    set (est := V2.estimateRounds input llm (flag_duration cmd) w2) in *.
    destruct (est.1.1) as [n0 | e3 | p3] eqn:Hres; [| done | done].
    assert (is_ok (V2.trialRun input llm w2).1.1 = true /\ (1 <= n0)%Z /\
            exists total,
              ParseDuration (flag_duration cmd) = Ok total /\
              n0 = roundsFor total (V2.trialElapsed input llm w2))
      as (Hok & Hn0 & total & Hparse & Hest).
    { destruct ((V2.trialRun input llm w2).1.1); [| done | done].
      destruct (ParseDuration (flag_duration cmd)) as [total | |]; [| done | done].
      injection Hr as ->. split; [done |]. split; [apply roundsFor_min |].
      exists total. done. }
    specialize (Hl Hok). rewrite <- Ht in Hl.
    rewrite (bool_decide_eq_false_2 (n0 <= 0)%Z) by lia.
    eapply wp_mono;
      [apply (v2_debate_then_report input
                {| Rounds := n0; Duration := flag_duration cmd;
                   InputFile := flag_input cmd; OutputFile := flag_output cmd |}
                llm (flag_output cmd)) |].
    intros r t w3 Hpost Hr3.
    destruct (Hpost Hr3)
      as (debate & c & report & -> & Hd & Hall & Hm & Hs & Hv & Hp & Hrep & Hw).
    exists est.1.2, debate, c, report, n0. simpl.
    split; [done |]. split.
    { right. split; [done |]. split; [done |]. split; [done |].
      exists total, (V2.trialElapsed input llm w2).
      split; [done |]. split; [apply v2_trialElapsed_pos | done]. }
    split; [lia |]. split; [lia |]. split; [done |]. done.
  - (* the round count is the flag, or the default *)
    apply wp_ret.
    set (n := if bool_decide (flag_rounds cmd <= 0)%Z then big else flag_rounds cmd).
    eapply wp_mono;
      [apply (v2_debate_then_report input
                {| Rounds := n; Duration := flag_duration cmd;
                   InputFile := flag_input cmd; OutputFile := flag_output cmd |}
                llm (flag_output cmd)) |].
    intros r t w3 Hpost Hr3.
    destruct (Hpost Hr3)
      as (debate & c & report & -> & Hd & Hall & Hm & Hs & Hv & Hp & Hrep & Hw).
    exists [], debate, c, report, n. simpl.
    split; [done |]. split; [left; done |].
    split; [subst n; case_bool_decide; lia |].
    split; [intros Hpos; subst n; rewrite bool_decide_eq_false_2 by lia; done |].
    split; [intros _ Hneg; subst n; rewrite bool_decide_eq_true_2 by lia; done |].
    done.
Qed.

Lemma v1_runCLI_reported {C} `{V1.LLMClient C} cmd (w : world C P) :
  wp (V1.runCLI cmd) (fun r t w' => r = Ok tt -> v1_reported cmd t w') w.
Proof.
  unfold V1.runCLI, v1_reported.
  apply wp_bind, wp_parseFlags; [done | done |]. intros chal def w1.
  set (llm := {| ChallengerModel := flag_challenger cmd;
                 DefenderModel := flag_defender cmd;
                 ChalPrompt := chal; DefPrompt := def |}).
  cbn [Rounds Duration InputFile OutputFile].
  destruct (bool_decide (0 < flag_rounds cmd)%Z &&
            negb (bool_decide (flag_duration cmd = ""))) eqn:Hexcl;
    [apply wp_fail; done |].
  apply wp_bind, wp_loadInput. intros [input | e1 | p1] w2; [| done | done].
  apply wp_bind, wp_clientFromEnvironment. intros [[] | e2 | p2]; [| done | done].
  apply wp_bind.
  destruct (bool_decide (flag_rounds cmd = 0%Z) &&
            negb (bool_decide (flag_duration cmd = ""))) eqn:Hest.
  - apply andb_prop in Hest as [Hzero Hdur].
    apply bool_decide_eq_true_1 in Hzero.
    apply negb_true_iff, bool_decide_eq_false_1 in Hdur.
    apply wp_of_run.
    destruct (v1_estimateRounds_unfold input llm (flag_duration cmd) w2) as [Ht Hr].
    simpl in Ht, Hr.
    pose proof (v1_trial_calls input llm (with_proc w2 (Now (w_proc w2)).2))
      as [_ Hl].
    fold (V1.trialRun input llm w2) in Hl.
    set (est := V1.estimateRounds input llm (flag_duration cmd) w2) in *.
    destruct (est.1.1) as [n0 | e3 | p3] eqn:Hres; [| done | done].
    assert (is_ok (V1.trialRun input llm w2).1.1 = true /\ (1 <= n0)%Z /\
            exists total,
              ParseDuration (flag_duration cmd) = Ok total /\
              n0 = roundsFor total (V1.trialElapsed input llm w2))
      as (Hok & Hn0 & total & Hparse & Hest).
    { destruct ((V1.trialRun input llm w2).1.1); [| done | done].
      destruct (ParseDuration (flag_duration cmd)) as [total | |]; [| done | done].
      injection Hr as ->. split; [done |]. split; [apply roundsFor_min |].
      exists total. done. }
    specialize (Hl Hok). rewrite <- Ht in Hl.
    rewrite (bool_decide_eq_false_2 (n0 <= 0)%Z) by lia.
    eapply wp_mono;
      [apply (v1_debate_then_report input
                {| Rounds := n0; Duration := flag_duration cmd;
                   InputFile := flag_input cmd; OutputFile := flag_output cmd |}
                llm (flag_output cmd)) |].
    intros r t w3 Hpost Hr3.
    destruct (Hpost Hr3)
      as (debate & c & report & -> & Hd & Hall & Hm & Hv & Hp & Hrep & Hw).
    exists est.1.2, debate, c, report, n0. simpl.
    split; [done |]. split.
    { right. split; [done |]. split; [done |]. split; [done |].
      exists total, (V1.trialElapsed input llm w2). done. }
    split; [lia |]. split; [lia |]. split; [done |]. done.
  - apply wp_ret.
    set (n := if bool_decide (flag_rounds cmd <= 0)%Z then 3%Z else flag_rounds cmd).
    eapply wp_mono;
      [apply (v1_debate_then_report input
                {| Rounds := n; Duration := flag_duration cmd;
                   InputFile := flag_input cmd; OutputFile := flag_output cmd |}
                llm (flag_output cmd)) |].
    intros r t w3 Hpost Hr3.
    destruct (Hpost Hr3)
      as (debate & c & report & -> & Hd & Hall & Hm & Hv & Hp & Hrep & Hw).
    exists [], debate, c, report, n. simpl.
    split; [done |]. split; [left; done |].
    split; [subst n; case_bool_decide; lia |].
    split; [intros Hpos; subst n; rewrite bool_decide_eq_false_2 by lia; done |].
    split; [intros _ Hneg; subst n; rewrite bool_decide_eq_true_2 by lia; done |].
    done.
Qed.
End ReportFacts.

(** When [runCLI] of [src/unnamed/part_000] returns without error, its
    calls are, in this order: the two calls of the trial round, only when
    the round count was estimated from a duration; two answered calls for
    each of the [n >= 1] rounds of the debate, [n] being [--rounds] when it
    is positive, the estimate when a trial round was run and [math.MaxInt]
    when neither flag is given; and one last call, to the Challenger's model under the summary instruction, over the
    serialization of the rounds of that debate alone.  The reply to that
    call is what was written to the output path. *)
Theorem v2_report_is_the_summary_of_the_debate
        (C P : Type) `{V2.LLMClient C} `{GoRuntime P}
        (cmd : Flags) (w : world C P) :
  (V2.runCLI cmd w).1.1 = Ok tt ->
  v2_reported cmd (V2.runCLI cmd w).1.2 (V2.runCLI cmd w).2.
Proof. apply (v2_runCLI_reported cmd w). Qed.

(** The theorem on [--rounds 1] with the client of the tests: three calls,
    and the report is the reply to the third. *)
Lemma v2_report_is_the_summary_of_the_debate_example :
  v2_reported (flags0 1 "") (V2.runCLI (flags0 1 "") start2).1.2
    (V2.runCLI (flags0 1 "") start2).2.
Proof.
  apply (v2_report_is_the_summary_of_the_debate _ _ (flags0 1 "") start2).
  vm_compute. reflexivity.
Defined.

(** The same of [src/main.go], where the default is three rounds and the
    summary instruction is the head of the one prompt string. *)
Theorem v1_report_is_the_summary_of_the_debate
        (C P : Type) `{V1.LLMClient C} `{GoRuntime P}
        (cmd : Flags) (w : world C P) :
  (V1.runCLI cmd w).1.1 = Ok tt ->
  v1_reported cmd (V1.runCLI cmd w).1.2 (V1.runCLI cmd w).2.
Proof. apply (v1_runCLI_reported cmd w). Qed.

Lemma v1_report_is_the_summary_of_the_debate_example :
  v1_reported (flags0 1 "") (V1.runCLI (flags0 1 "") start1).1.2
    (V1.runCLI (flags0 1 "") start1).2.
Proof.
  apply (v1_report_is_the_summary_of_the_debate _ _ (flags0 1 "") start1).
  vm_compute. reflexivity.
Defined.

(** ** A negative round count *)

Section NegativeRounds.
Context {P : Type} `{GoRuntime P}.

Lemma bind_assoc {S E A B D} (m : M S E A) (f : A -> M S E B) (k : B -> M S E D) s :
  bind (bind m f) k s = bind m (fun a => bind (f a) k) s.
Proof.
  unfold bind. destruct (m s) as [[[a | e | p] t] s']; [| done | done].
  destruct (f a s') as [[[b | e | p] t'] s'']; [| done | done].
  destruct (k b s'') as [[r t''] s''']. by rewrite app_assoc.
Qed.

Lemma bind_ret_l {S E A B} (a : A) (k : A -> M S E B) s : bind (ret a) k s = k a s.
Proof. unfold bind, ret. destruct (k a s) as [[r t] s']. done. Qed.

Lemma bind_ext {S E A B} (m : M S E A) (k1 k2 : A -> M S E B) s :
  (forall a s', k1 a s' = k2 a s') -> bind m k1 s = bind m k2 s.
Proof.
  intros Hk. unfold bind. destruct (m s) as [[[a | e | p] t] s']; [| done | done].
  rewrite Hk. done.
Qed.

Lemma v2_runCLI_negative {C} `{V2.LLMClient C} cmd (w : world C P) :
  (flag_rounds cmd < 0)%Z ->
  V2.runCLI cmd w = V2.runCLI (withoutBudget cmd) w.
Proof.
  intros Hneg. unfold V2.runCLI, parseFlags. generalize MaxInt. intros big.
  cbn [withoutBudget flag_input flag_output flag_rounds flag_duration
       flag_challenger flag_defender flag_challenger_prompt flag_defender_prompt].
  case_bool_decide; [done |].
  rewrite !bind_assoc. apply bind_ext. intros chal w1.
  rewrite !bind_assoc. apply bind_ext. intros def w2.
  rewrite !bind_ret_l. cbn [Rounds Duration InputFile OutputFile].
  rewrite (bool_decide_eq_false_2 (0 < flag_rounds cmd)%Z) by lia.
  rewrite (bool_decide_eq_false_2 (0 < 0)%Z) by lia.
  rewrite (bool_decide_eq_false_2 (flag_rounds cmd = 0%Z)) by lia.
  rewrite (bool_decide_eq_true_2 ("" = "")) by done.
  rewrite !andb_false_l, andb_false_r.
  apply bind_ext. intros input w3. apply bind_ext. intros [] w4.
  rewrite !bind_ret_l.
  rewrite (bool_decide_eq_true_2 (flag_rounds cmd <= 0)%Z) by lia.
  rewrite (bool_decide_eq_true_2 (0 <= 0)%Z) by lia.
  reflexivity.
Qed.

Lemma v1_runCLI_negative {C} `{V1.LLMClient C} cmd (w : world C P) :
  (flag_rounds cmd < 0)%Z ->
  V1.runCLI cmd w = V1.runCLI (withoutBudget cmd) w.
Proof.
  intros Hneg. unfold V1.runCLI, parseFlags.
  cbn [withoutBudget flag_input flag_output flag_rounds flag_duration
       flag_challenger flag_defender flag_challenger_prompt flag_defender_prompt].
  case_bool_decide; [done |].
  rewrite !bind_assoc. apply bind_ext. intros chal w1.
  rewrite !bind_assoc. apply bind_ext. intros def w2.
  rewrite !bind_ret_l. cbn [Rounds Duration InputFile OutputFile].
  rewrite (bool_decide_eq_false_2 (0 < flag_rounds cmd)%Z) by lia.
  rewrite (bool_decide_eq_false_2 (0 < 0)%Z) by lia.
  rewrite (bool_decide_eq_false_2 (flag_rounds cmd = 0%Z)) by lia.
  rewrite (bool_decide_eq_true_2 ("" = "")) by done.
  rewrite !andb_false_l, andb_false_r.
  apply bind_ext. intros input w3. apply bind_ext. intros [] w4.
  rewrite !bind_ret_l.
  rewrite (bool_decide_eq_true_2 (flag_rounds cmd <= 0)%Z) by lia.
  rewrite (bool_decide_eq_true_2 (0 <= 0)%Z) by lia.
  reflexivity.
Qed.
End NegativeRounds.

(** A negative [--rounds] is not rejected: in both variants the program
    runs exactly as if neither [--rounds] nor [--duration] had been given,
    whatever the duration flag holds; that flag is not even parsed. *)
Theorem negative_rounds_run_as_if_no_budget_were_given
        (P C1 C2 : Type) `{GoRuntime P} `{V1.LLMClient C1} `{V2.LLMClient C2}
        (cmd : Flags) (w1 : world C1 P) (w2 : world C2 P) :
  (flag_rounds cmd < 0)%Z ->
  V2.runCLI cmd w2 = V2.runCLI (withoutBudget cmd) w2 /\
  V1.runCLI cmd w1 = V1.runCLI (withoutBudget cmd) w1.
Proof.
  intros Hneg. split; [apply v2_runCLI_negative | apply v1_runCLI_negative]; done.
Qed.

(** The theorem on [--rounds -1 --duration not-a-duration]: [src/main.go]
    runs its three rounds and the summary. *)
Lemma negative_rounds_run_as_if_no_budget_were_given_example :
  V1.runCLI (flags0 (-1) "not-a-duration") start1 = V1.runCLI (flags0 0 "") start1 /\
  length (V1.runCLI (flags0 0 "") start1).1.2 = 7.
Proof.
  split; [| vm_compute; reflexivity].
  exact (proj2 (negative_rounds_run_as_if_no_budget_were_given proc _ _
                  (flags0 (-1) "not-a-duration") start1 start2 eq_refl)).
Defined.

(** ** The Ollama wrappers *)

Lemma assemble_joined (fragments : list string) :
  assemble fragments = joined fragments.
Proof.
  unfold assemble, joined.
  enough (forall acc, foldl (fun result resp => result +:+ resp) acc fragments =
                      acc +:+ foldr String.append "" fragments) as Hacc
      by (rewrite Hacc; apply append_nil_l).
  induction fragments as [| f rest IH]; intros acc; simpl.
  - by rewrite append_nil_r.
  - by rewrite IH, append_assoc.
Qed.

Lemma append_empty (s t : string) : s +:+ t = "" -> s = "" /\ t = "".
Proof. destruct s; [done | discriminate]. Qed.

Lemma joined_empty (fragments : list string) :
  joined fragments = "" <-> Forall (fun f => f = "") fragments.
Proof.
  unfold joined. induction fragments as [| f rest IH]; simpl.
  - split; [constructor | done].
  - split.
    + intros [-> Hrest]%append_empty. constructor; [done | by apply IH].
    + intros Hall. inversion Hall as [| ? ? -> Hrest]; subst.
      rewrite append_nil_l. by apply IH.
Qed.

(** In both variants [Generate] of the Ollama client asks the API once and
    leaves the client as the API left it.  An error of the API is returned
    as it is, whatever text had arrived; without one, the result is the
    fragments concatenated in the order of their arrival, and
    ["empty response"] exactly when every fragment is empty (or there is
    none).  [GenerateWithChannel] sends one number per fragment on its
    channel, counting from 0. *)
Theorem ollama_generate_concatenates_the_fragments
        (A : Type) `{OllamaAPI A} (o : A) (model system prompt : string) :
  let got2 := api_Generate o (V2.generateRequest model system prompt) in
  let got1 := api_Generate o (V1.generateRequest model prompt) in
  let r2 := V2.Generate (LLMClient := V2.OllamaClient) o model system prompt in
  let r1 := V1.Generate (LLMClient := V1.OllamaClient) o model prompt in
  (r2.2 = got2.2 /\
   (forall e, got2.1.2 = Some e -> r2.1 = Err e) /\
   (got2.1.2 = None -> Forall (fun f => f = "") got2.1.1 ->
    r2.1 = Err "empty response") /\
   (got2.1.2 = None -> Exists (fun f => f <> "") got2.1.1 ->
    r2.1 = Ok (joined got2.1.1)) /\
   (V2.GenerateWithChannel o model system prompt).1.2 =
     Z.of_nat <$> seq 0 (length got2.1.1)) /\
  (r1.2 = got1.2 /\
   (forall e, got1.1.2 = Some e -> r1.1 = Err e) /\
   (got1.1.2 = None -> Forall (fun f => f = "") got1.1.1 ->
    r1.1 = Err "empty response") /\
   (got1.1.2 = None -> Exists (fun f => f <> "") got1.1.1 ->
    r1.1 = Ok (joined got1.1.1))).
Proof.
  intros got2 got1 r2 r1. subst r2 r1 got2 got1. simpl.
  unfold V2.OllamaGenerate, V2.GenerateWithChannel, V1.OllamaGenerate.
  split.
  - destruct (api_Generate o (V2.generateRequest model system prompt))
      as [[fragments [e |]] o']; simpl.
    + repeat split; try done. intros e' [= <-]. done.
    + rewrite assemble_joined. case_bool_decide as Hempty; simpl.
      * repeat split; try done. intros _ Hex.
        apply joined_empty in Hempty. apply Exists_exists in Hex as (f & Hf & Hne).
        rewrite Forall_forall in Hempty. destruct (Hne (Hempty f Hf)).
      * repeat split; try done. intros _ Hall.
        apply joined_empty in Hall. done.
  - destruct (api_Generate o (V1.generateRequest model prompt))
      as [[fragments [e |]] o']; simpl.
    + repeat split; try done. intros e' [= <-]. done.
    + rewrite assemble_joined. case_bool_decide as Hempty; simpl.
      * repeat split; try done. intros _ Hex.
        apply joined_empty in Hempty. apply Exists_exists in Hex as (f & Hf & Hne).
        rewrite Forall_forall in Hempty. destruct (Hne (Hempty f Hf)).
      * repeat split; try done. intros _ Hall.
        apply joined_empty in Hall. done.
Qed.

(** ** [trimHistory] *)

(** For a bound that is not negative, [trimHistory] returns the most
    recent elements of the history, as many as the bound allows and in
    their order, as a slice over the same backing array: nothing is copied,
    and trimming again changes nothing.  For a negative bound it panics, as
    the slice expression [history[len(history)-max:]] is out of range. *)
Theorem trimHistory_keeps_the_most_recent
        (h : heap Message) (history : slice) (max : Z) :
  valid h history ->
  ((0 <= max)%Z ->
   exists t,
     trimHistory history max = Ok t /\ valid h t /\
     slice_list h t =
       drop (length (slice_list h history) - Z.to_nat max) (slice_list h history) /\
     length (slice_list h t) = Nat.min (length (slice_list h history)) (Z.to_nat max) /\
     s_arr t = s_arr history /\
     trimHistory t max = Ok t) /\
  ((max < 0)%Z -> trimHistory history max = Panic "slice bounds out of range").
Proof.
  intros Hv. pose proof (slice_list_length _ _ Hv) as Hlen. split.
  - intros Hmax.
    destruct (trimHistory_ok history max Hmax) as (t & Htrim & Hl & Hview).
    destruct (Hview h) as [Hlist Hvalid]. specialize (Hvalid Hv).
    destruct (trimHistory_alias _ _ _ Htrim) as [Harr _].
    exists t. split; [done |]. split; [done |].
    split; [rewrite Hlen; done |].
    split; [rewrite (slice_list_length _ _ Hvalid), Hlen; done |].
    split; [done |].
    unfold trimHistory. rewrite bool_decide_eq_true_2 by lia. done.
  - intros Hneg. unfold trimHistory, reslice_from.
    rewrite bool_decide_eq_false_2 by lia.
    rewrite bool_decide_eq_false_2 by lia. done.
Qed.

(** The theorem on a history of four turns and a bound of two. *)
Lemma trimHistory_keeps_the_most_recent_example :
  let turn r s := {| Role := r; Content := s |} in
  let h := [[turn "user" "the claim"; turn "challenger" "c1";
             turn "defender" "d1"; turn "challenger" "c2"]] in
  let history := {| s_arr := 0; s_off := 0; s_len := 4; s_cap := 4 |} in
  exists t,
    trimHistory history 2 = Ok t /\
    slice_list h t = [turn "defender" "d1"; turn "challenger" "c2"].
Proof.
  intros turn h history.
  assert (valid h history) as Hv by (unfold valid; simpl; lia).
  destruct (proj1 (trimHistory_keeps_the_most_recent h history 2 Hv) ltac:(done))
    as (t & Htrim & _ & Hlist & _).
  exists t. exact (conj Htrim Hlist).
Defined.

(** ** Where an error of the debate comes from *)

Section ErrorFacts.
Context {P : Type} `{GoRuntime P}.

Lemma last_two_more {A} (c d : A) rest x :
  last rest = Some x -> last (c :: d :: rest) = Some x.
Proof. destruct rest as [| y rest]; [done |]. done. Qed.

Lemma v2_run_error llm seed turns t res :
  v2_run llm seed turns t res ->
  (forall (p : P) text, (Stdout p text).1 = None) ->
  forall e, res = Err e ->
    exists c e', last t = Some c /\ V2.c_reply c = Err e' /\
      e = (if Nat.even (length t) then "running defender: "
           else "running challenger: ") +:+ e'.
Proof.
  intros Hrun Hout.
  assert (stdout_fails (P := P) -> False) as Hnofail.
  { intros (p & text & e & He). rewrite Hout in He. done. }
  induction Hrun as [turns | turns c res Hopen Hstop
                    | turns c chal d res Hopen Hans Hstop
                    | turns c chal d def rest res Hopen Hans Hd Hrest IH];
    intros e He.
  - done.
  - subst res. unfold v2_stopped in Hstop.
    destruct (V2.c_reply c) as [s | e' | p] eqn:Hc.
    + destruct Hstop as [Hf _]. destruct (Hnofail Hf).
    + injection Hstop as ->. exists c, e'. done.
    + done.
  - subst res. unfold v2_stopped in Hstop.
    destruct (V2.c_reply d) as [s | e' | p] eqn:Hdr.
    + destruct Hstop as [Hf _]. destruct (Hnofail Hf).
    + injection Hstop as ->. exists d, e'. done.
    + done.
  - destruct res as [rs | e0 | p]; [done | | done]. injection He as ->.
    destruct (IH e eq_refl) as (x & e' & Hlast & Hx & ->).
    exists x, e'. split; [apply last_two_more; done |]. done.
Qed.

Lemma v1_run_error llm seed turns t res :
  v1_run llm seed turns t res ->
  forall e, res = Err e ->
    exists c, last t = Some c /\ V1.c_reply c = Err e.
Proof.
  induction 1 as [turns | turns c res Hopen Hstop
                 | turns c chal d res Hopen Hans Hstop
                 | turns c chal d def rest res Hopen Hans Hd Hrest IH];
    intros e He.
  - done.
  - subst res. unfold v1_stopped in Hstop.
    destruct (V1.c_reply c) as [s | e' | p] eqn:Hc; [done | | done].
    injection Hstop as ->. exists c. done.
  - subst res. unfold v1_stopped in Hstop.
    destruct (V1.c_reply d) as [s | e' | p] eqn:Hdr; [done | | done].
    injection Hstop as ->. exists d. done.
  - destruct res as [rs | e0 | p]; [done | | done]. injection He as ->.
    destruct (IH e eq_refl) as (x & Hlast & Hx).
    exists x. split; [apply last_two_more; done | done].
Qed.
End ErrorFacts.

Section ErrorWritten.
Context {C P : Type} `{V2.LLMClient C} `{GoRuntime P}.
#[local] Existing Instance recording.
#[local] Existing Instance quiet.

Lemma v2_flow_error_written claim config llm (w : world C P) e :
  Forall written (v2_writes claim config llm w) ->
  (V2.runDebateFlow claim config llm w).1.1 = Err e ->
  exists c e',
    last (V2.runDebateFlow claim config llm w).1.2 = Some c /\
    V2.c_reply c = Err e' /\
    e = (if Nat.even (length (V2.runDebateFlow claim config llm w).1.2)
         then "running defender: " else "running challenger: ") +:+ e'.
Proof.
  intros Hw He. pose proof (v2_run_when_written claim config llm w Hw) as Hq.
  destruct (v2_flow_run claim config llm (quieten w))
    as [(_ & (p & text & e' & Hf) & _) | Hrun]; [done |].
  rewrite Hq in Hrun. simpl in Hrun.
  exact (v2_run_error _ _ _ _ _ Hrun quiet_never_fails e He).
Qed.
End ErrorWritten.

(** In [src/unnamed/part_000], when every write to standard output made
    in the run succeeds, an error returned by [runDebateFlow] is the error
    of the last call it made, behind ["running challenger: "] when that
    call is a Challenger call (the trace has odd length) and
    ["running defender: "] when it is a Defender call.  The writes of the
    run are those noted down by the recording runtime. *)
Theorem v2_error_is_that_of_the_last_call
        (C P : Type) `{V2.LLMClient C} `{GoRuntime P}
        (claim : string) (config : DebateConfig) (llm : LLMConfig)
        (w : world C P) (e : error) :
  let run := V2.runDebateFlow claim config llm w in
  Forall written (v2_writes claim config llm w) ->
  run.1.1 = Err e ->
  exists c e',
    last run.1.2 = Some c /\ V2.c_reply c = Err e' /\
    e = (if Nat.even (length run.1.2) then "running defender: "
         else "running challenger: ") +:+ e'.
Proof.
  intros run Hw He. exact (v2_flow_error_written claim config llm w e Hw He).
Qed.

(** The theorem with a client that answers twice: the Challenger call of
    round 2 fails, after the three writes of the run. *)
Lemma v2_error_is_that_of_the_last_call_example :
  let run := V2.runDebateFlow "the claim" (config0 5) llm0 (Flaky.answers 2) in
  length (v2_writes "the claim" (config0 5) llm0 (Flaky.answers 2)) = 3 /\
  exists c e',
    last run.1.2 = Some c /\ V2.c_reply c = Err e' /\
    "running challenger: connection refused" =
      (if Nat.even (length run.1.2) then "running defender: "
       else "running challenger: ") +:+ e'.
Proof.
  intros run. split; [vm_compute; reflexivity |].
  apply (v2_error_is_that_of_the_last_call _ _ "the claim" (config0 5) llm0
           (Flaky.answers 2) "running challenger: connection refused").
  - vm_compute. repeat constructor.
  - vm_compute. reflexivity.
Defined.

(** In [src/main.go] an error returned by [runDebateFlow] is the error of
    the last call it made. *)
Theorem v1_error_is_that_of_the_last_call
        (C P : Type) `{V1.LLMClient C} `{GoRuntime P}
        (claim : string) (config : DebateConfig) (llm : LLMConfig)
        (w : world C P) (e : error) :
  let run := V1.runDebateFlow claim config llm w in
  run.1.1 = Err e ->
  exists c, last run.1.2 = Some c /\ V1.c_reply c = Err e.
Proof.
  intros run He.
  exact (v1_run_error _ _ _ _ _ (v1_flow_run claim config llm w) e He).
Qed.

Lemma v1_error_is_that_of_the_last_call_example :
  let run := V1.runDebateFlow "the claim" (config0 5) llm0 (Flaky.answers 2) in
  exists c, last run.1.2 = Some c /\ V1.c_reply c = Err "connection refused".
Proof.
  intros run.
  apply (v1_error_is_that_of_the_last_call _ _ "the claim" (config0 5) llm0
           (Flaky.answers 2) "connection refused").
  vm_compute. reflexivity.
Defined.
